(** * GPU detection and normalisation (utils/detectGpu.go)

    A shallow embedding of the GPU detector of the video-processing tool and
    the properties of its specification.

    Conventions of the embedding.
    - A Go [string] is a byte string: Rocq's [string], one [ascii] per byte.
      The Go library functions the detector calls ([strings.ToLower],
      [strings.TrimSpace], [strings.Contains], [strings.Split], ...) are
      written out below on bytes.  White space is Unicode's, recognised
      by its UTF-8 encoding.  [strings.ToLower] is written out for ASCII
      text only: a property that depends on its value is stated for ASCII
      arguments, or for the function it is about taken over an arbitrary
      lower-casing function.
    - [regexp] is embedded by a small backtracking matcher; Go's regexp
      returns the leftmost match and, among those, "the one that a
      backtracking search would have found first".  The patterns match
      ASCII bytes, but for the letters under the [i] flag, which also match
      what Unicode folds them with.
    - The host (operating system tag, external commands, the proc file) is a
      [World]; every invocation is logged in a trace, so that "which probes
      were attempted, in which order" is a property of the model.
    - A Go [error] is its message; [option error] is the interface value,
      [None] being [nil]. *)

From Stdlib Require Import ZArith Lia Ascii String DecimalString.
From stdpp Require Import base list strings.

Local Open Scope Z_scope.

(* ===================================================================== *)
(** ** Go's [strings] package, on byte strings *)
(* ===================================================================== *)

Module GoStrings.

Definition nl : ascii := "010"%char.
Definition dquote : ascii := "034"%char.

Definition byte (c : ascii) : N := N_of_ascii c.

(** Every byte is below [utf8.RuneSelf]: the text is ASCII. *)
Fixpoint isASCII (s : string) : bool :=
  match s with
  | EmptyString => true
  | String c s' => (byte c <? 128)%N && isASCII s'
  end.

(** [unicode.ToLower] on an ASCII byte: 'A'..'Z' are shifted by 32. *)
Definition lowerByte (c : ascii) : ascii :=
  if ((65 <=? byte c) && (byte c <=? 90))%N
  then ascii_of_N (byte c + 32) else c.

(** [strings.ToLower] as it is on ASCII text: 'A'..'Z' are shifted by 32
    and every other byte is kept.  Beyond ASCII the library lower-cases by
    Unicode tables and rewrites invalid bytes; that part is not modelled,
    and what depends on the value of [ToLower] is stated for ASCII
    arguments or for an arbitrary lower-casing function. *)
Fixpoint ToLower (s : string) : string :=
  match s with
  | EmptyString => EmptyString
  | String c s' => String (lowerByte c) (ToLower s')
  end.

(** [unicode.IsSpace], by UTF-8 encoding.  One byte: tab, line feed,
    vertical tab, form feed, carriage return and space. *)
Definition isSpace (c : ascii) : bool :=
  (((9 <=? byte c) && (byte c <=? 13)) || (byte c =? 32))%N.

(** Two bytes: U+0085 (C2 85) and U+00A0 (C2 A0). *)
Definition isSpace2 (a b : ascii) : bool :=
  ((byte a =? 194) && ((byte b =? 133) || (byte b =? 160)))%N.

(** Three bytes: U+1680 (E1 9A 80), U+2000..U+200A (E2 80 80..8A),
    U+2028 and U+2029 (E2 80 A8, A9), U+202F (E2 80 AF), U+205F (E2 81 9F)
    and U+3000 (E3 80 80). *)
Definition isSpace3 (a b c : ascii) : bool :=
  (((byte a =? 225) && (byte b =? 154) && (byte c =? 128))
   || ((byte a =? 226) && (byte b =? 128)
       && (((128 <=? byte c) && (byte c <=? 138))
           || (byte c =? 168) || (byte c =? 169) || (byte c =? 175)))
   || ((byte a =? 226) && (byte b =? 129) && (byte c =? 159))
   || ((byte a =? 227) && (byte b =? 128) && (byte c =? 128)))%N.

(** [strings.TrimLeftFunc s unicode.IsSpace]: the leading white-space runes
    are dropped.  A byte that starts no white-space rune ends the run, also
    when it is not valid UTF-8. *)
Fixpoint trimLeft (s : string) : string :=
  match s with
  | EmptyString => EmptyString
  | String a s1 =>
      if isSpace a then trimLeft s1
      else
        match s1 with
        | EmptyString => s
        | String b s2 =>
            if isSpace2 a b then trimLeft s2
            else
              match s2 with
              | EmptyString => s
              | String c s3 => if isSpace3 a b c then trimLeft s3 else s
              end
        end
  end.

(** The same from the end, on the reversed bytes: [r] is the text read
    backwards. *)
Fixpoint trimRev (r : list ascii) : list ascii :=
  match r with
  | [] => []
  | c :: r1 =>
      if isSpace c then trimRev r1
      else
        match r1 with
        | [] => r
        | b :: r2 =>
            if isSpace2 b c then trimRev r2
            else
              match r2 with
              | [] => r
              | a :: r3 => if isSpace3 a b c then trimRev r3 else r
              end
        end
  end.

(** [strings.TrimRightFunc s unicode.IsSpace]. *)
Definition trimRight (s : string) : string :=
  string_of_list_ascii (rev (trimRev (rev (list_ascii_of_string s)))).

(** [strings.TrimSpace]: its ASCII fast path and its Unicode path give the
    same result, the text without its leading and trailing white-space
    runes. *)
Definition TrimSpace (s : string) : string := trimRight (trimLeft s).

Fixpoint HasPrefix (s p : string) : bool :=
  match p, s with
  | EmptyString, _ => true
  | String _ _, EmptyString => false
  | String a p', String b s' => if Ascii.eqb a b then HasPrefix s' p' else false
  end.

Fixpoint dropBytes (n : nat) (s : string) : string :=
  match n, s with
  | O, _ => s
  | S _, EmptyString => EmptyString
  | S n', String _ s' => dropBytes n' s'
  end.

Fixpoint takeBytes (n : nat) (s : string) : string :=
  match n, s with
  | O, _ => EmptyString
  | S _, EmptyString => EmptyString
  | S n', String c s' => String c (takeBytes n' s')
  end.

Definition TrimPrefix (s p : string) : string :=
  if HasPrefix s p then dropBytes (String.length p) s else s.

(** [strings.Contains]: some suffix of [s] starts with [sub]; the empty
    string is contained in every string. *)
Fixpoint Contains (s sub : string) : bool :=
  HasPrefix s sub ||
  match s with
  | EmptyString => false
  | String _ s' => Contains s' sub
  end.

(** [strings.Cut]: the text before and after the first [sep]. *)
Fixpoint Cut (s sep : string) : option (string * string) :=
  if HasPrefix s sep then Some (EmptyString, dropBytes (String.length sep) s)
  else match s with
       | EmptyString => None
       | String c s' =>
           match Cut s' sep with
           | Some (a, b) => Some (String c a, b)
           | None => None
           end
       end.

(** [strings.SplitN s sep n] for [n >= 0] and a non-empty [sep]: at most
    [n] pieces, the last one being the unsplit remainder. *)
Fixpoint SplitN (s sep : string) (n : nat) : list string :=
  match n with
  | O => []
  | S O => [s]
  | S n' =>
      match Cut s sep with
      | None => [s]
      | Some (a, b) => a :: SplitN b sep n'
      end
  end.

(** [strings.Split s sep] for a non-empty [sep]: all the pieces; the
    result is never empty (the empty string splits into one empty piece).
    [skip] counts the bytes of a separator that was just recognised and
    is still to be stepped over; the result is the piece under
    construction and the pieces after it. *)
Fixpoint splitFrom (sep : string) (skip : nat) (s : string)
  : string * list string :=
  match s with
  | EmptyString => (EmptyString, [])
  | String c s' =>
      match skip with
      | S k => splitFrom sep k s'
      | O =>
          if HasPrefix s sep then
            let '(h, t) := splitFrom sep (String.length sep - 1) s' in
            (EmptyString, h :: t)
          else
            let '(h, t) := splitFrom sep O s' in (String c h, t)
      end
  end.

Definition Split (s sep : string) : list string :=
  let '(h, t) := splitFrom sep O s in h :: t.

Definition isEmpty (s : string) : bool :=
  match s with EmptyString => true | _ => false end.

End GoStrings.

Import GoStrings.

(* ===================================================================== *)
(** ** Go's [regexp] package: a backtracking matcher *)
(* ===================================================================== *)

Module Regexp.

(** The fragment of the syntax the detector's patterns use. *)
Inductive regex : Type :=
| Empty                                   (* the empty pattern *)
| Class (p : ascii -> bool)               (* one byte of a class *)
| Seq (r1 r2 : regex)                     (* r1 r2 *)
| Alt (r1 r2 : regex)                     (* r1|r2, r1 preferred *)
| Star (r : regex) (greedy : bool)        (* r* and r*? *)
| Capture (n : nat) (r : regex)           (* the n-th group (r) *)
| BeginText.                              (* ^ without the m flag *)

Definition Plus (r : regex) (greedy : bool) : regex := Seq r (Star r greedy).
Definition Opt (r : regex) : regex := Alt r Empty.

Definition Chr (c : ascii) : regex := Class (Ascii.eqb c).

(** A letter under the [i] flag: either case, and what Unicode's simple
    folding adds to it, U+017F (C5 BF) for s and U+212A (E2 84 AA) for k. *)
Definition ChrI (c : ascii) : regex :=
  let either := Class (fun x => Ascii.eqb (lowerByte x) (lowerByte c)) in
  if Ascii.eqb (lowerByte c) "s" then
    Alt either (Seq (Chr "197") (Chr "191"))
  else if Ascii.eqb (lowerByte c) "k" then
    Alt either (Seq (Chr "226") (Seq (Chr "132") (Chr "170")))
  else either.

Fixpoint Lit (s : string) : regex :=
  match s with
  | EmptyString => Empty
  | String c s' => Seq (Chr c) (Lit s')
  end.

Fixpoint LitI (s : string) : regex :=
  match s with
  | EmptyString => Empty
  | String c s' => Seq (ChrI c) (LitI s')
  end.

(** [.] without the s flag, [\d], [\s] (which is [\t\n\f\r ]), [0-9a-f]. *)
Definition anyButNL : regex := Class (fun c => negb (Ascii.eqb c nl)).
Definition digit : regex := Class (fun c => ((48 <=? byte c) && (byte c <=? 57))%N).
Definition space : regex :=
  Class (fun c => ((byte c =? 9) || (byte c =? 10) || (byte c =? 12)
                   || (byte c =? 13) || (byte c =? 32))%N).
Definition hexLower : regex :=
  Class (fun c => (((48 <=? byte c) && (byte c <=? 57))
                   || ((97 <=? byte c) && (byte c <=? 102)))%N).

(** The text of the groups closed so far, most recent first. *)
Definition captures := list (nat * string).

Fixpoint group (n : nat) (cs : captures) : string :=
  match cs with
  | [] => EmptyString
  | (m, s) :: cs' => if Nat.eqb m n then s else group n cs'
  end.

Section Matcher.
Context {R : Type}.

(** [matchAt r pos s cs k]: match [r] at offset [pos] of the text, [s]
    being the text from there on, then continue with [k]; alternatives
    are tried in the order of preference and the first success is
    returned.  An iteration of a star must consume input. *)
Fixpoint matchAt (r : regex) (pos : nat) (s : string) (cs : captures)
         (k : nat -> string -> captures -> option R) {struct r} : option R :=
  match r with
  | Empty => k pos s cs
  | Class p =>
      match s with
      | String c s' => if p c then k (S pos) s' cs else None
      | EmptyString => None
      end
  | Seq r1 r2 =>
      matchAt r1 pos s cs (fun pos' s' cs' => matchAt r2 pos' s' cs' k)
  | Alt r1 r2 =>
      match matchAt r1 pos s cs k with
      | Some x => Some x
      | None => matchAt r2 pos s cs k
      end
  | Star r1 greedy =>
      (fix loop (fuel : nat) (pos : nat) (s : string) (cs : captures)
         {struct fuel} : option R :=
         match fuel with
         | O => k pos s cs
         | S fuel' =>
             let again pos' s' cs' :=
               if (pos <? pos')%nat then loop fuel' pos' s' cs' else None in
             if greedy then
               match matchAt r1 pos s cs again with
               | Some x => Some x
               | None => k pos s cs
               end
             else
               match k pos s cs with
               | Some x => Some x
               | None => matchAt r1 pos s cs again
               end
         end) (String.length s) pos s cs
  | Capture n r1 =>
      matchAt r1 pos s cs
        (fun pos' s' cs' => k pos' s' ((n, takeBytes (pos' - pos) s) :: cs'))
  | BeginText => if (pos =? 0)%nat then k pos s cs else None
  end.
End Matcher.

(** One match: where it starts, its text, the groups, and the text after. *)
Record found := Found {
  fStart : nat; fText : string; fGroups : captures; fEnd : nat; fRest : string
}.

(** The leftmost match at or after offset [pos]. *)
Fixpoint findFrom (r : regex) (pos : nat) (s : string) : option found :=
  match matchAt r pos s []
          (fun pos' s' cs => Some (Found pos (takeBytes (pos' - pos) s) cs pos' s')) with
  | Some f => Some f
  | None =>
      match s with
      | EmptyString => None
      | String _ s' => findFrom r (S pos) s'
      end
  end.

(** [FindString]: the text of the leftmost match, [""] when there is none. *)
Definition FindString (r : regex) (s : string) : string :=
  match findFrom r O s with
  | Some f => fText f
  | None => EmptyString
  end.

Definition MatchString (r : regex) (s : string) : bool :=
  match findFrom r O s with Some _ => true | None => false end.

Definition submatches (ngroups : nat) (f : found) : list string :=
  fText f :: map (fun n => group n (fGroups f)) (seq 1 ngroups).

(** [FindStringSubmatch]: the match and its [ngroups] groups; [nil] when
    there is no match. *)
Definition FindStringSubmatch (r : regex) (ngroups : nat) (s : string)
  : list string :=
  match findFrom r O s with
  | Some f => submatches ngroups f
  | None => []
  end.

(** [FindAllStringSubmatch s (-1)]: the successive non-overlapping matches.
    After an empty match the search moves on by one byte, and an empty
    match right after the previous match is not reported. *)
Fixpoint findAll (fuel : nat) (r : regex) (ngroups : nat)
         (pos : nat) (s : string) (prevEnd : option nat) : list (list string) :=
  match fuel with
  | O => []
  | S fuel' =>
      match findFrom r pos s with
      | None => []
      | Some f =>
          if (fStart f =? fEnd f)%nat then
            let here :=
              if bool_decide (prevEnd = Some (fEnd f)) then []
              else [submatches ngroups f] in
            match fRest f with
            | EmptyString => here
            | String _ s' =>
                here ++ findAll fuel' r ngroups (S (fEnd f)) s' (Some (fEnd f))
            end
          else
            submatches ngroups f
              :: findAll fuel' r ngroups (fEnd f) (fRest f) (Some (fEnd f))
      end
  end.

Definition FindAllStringSubmatch (r : regex) (ngroups : nat) (s : string)
  : list (list string) :=
  findAll (S (String.length s)) r ngroups O s None.

End Regexp.

Import Regexp.

(* ===================================================================== *)
(** ** [strconv.ParseInt], [float64] conversion and [%.Nf] formatting *)
(* ===================================================================== *)

Module GoNum.

Definition maxInt64 : Z := 2 ^ 63 - 1.
Definition maxUint64 : Z := 2 ^ 64 - 1.

Definition digitVal (c : ascii) : option Z :=
  if ((48 <=? byte c) && (byte c <=? 57))%N
  then Some (Z.of_N (byte c) - 48) else None.

(** The digits of [strconv.ParseUint s 10 64]: a syntax error on a byte
    that is no digit, a range error above [maxUint64]. *)
Fixpoint parseDigits (acc : Z) (s : string) : option Z :=
  match s with
  | EmptyString => Some acc
  | String c s' =>
      match digitVal c with
      | None => None
      | Some v =>
          let acc' := acc * 10 + v in
          if maxUint64 <? acc' then None else parseDigits acc' s'
      end
  end.

Definition ParseUint (s : string) : option Z :=
  match s with
  | EmptyString => None
  | _ => parseDigits 0 s
  end.

(** [strconv.ParseInt s 10 64]; [None] stands for a non-nil error. *)
Definition ParseInt (s : string) : option Z :=
  match s with
  | EmptyString => None
  | String c s' =>
      let neg := Ascii.eqb c "-" in
      let digits := if Ascii.eqb c "+" || neg then s' else s in
      match ParseUint digits with
      | None => None
      | Some un =>
          if negb neg && (maxInt64 <? un) then None
          else if neg && (maxInt64 + 1 <? un) then None
          else Some (if neg then - un else un)
      end
  end.

(** [float64(n)] for [0 <= n]: the nearest number with a 53-bit
    significand, ties to the even one.  The result is an integer. *)
Definition float64_of_int (n : Z) : Z :=
  let e := Z.log2 n - 52 in
  if e <=? 0 then n
  else
    let q := Z.shiftr n e in
    let r := Z.land n (Z.ones e) in
    let half := 2 ^ (e - 1) in
    let q' := if (half <? r) || ((r =? half) && Z.odd q) then q + 1 else q in
    Z.shiftl q' e.

(** The integer nearest to [num / den], ties to the even one
    ([0 <= num], [0 < den]). *)
Definition roundHalfEven (num den : Z) : Z :=
  let q := num / den in
  let r := num mod den in
  if (den <? 2 * r) || ((2 * r =? den) && Z.odd q) then q + 1 else q.

Definition itoa (n : Z) : string := NilZero.string_of_uint (N.to_uint (Z.to_N n)).

Fixpoint zeros (n : nat) : string :=
  match n with O => EmptyString | S n' => String "0" (zeros n') end.

Definition padLeft (width : nat) (s : string) : string :=
  zeros (width - String.length s) +:+ s.

(** [fmt.Sprintf "%.{prec}f"] of the non-negative float whose exact value
    is [num / den]: [strconv] rounds the exact decimal expansion to [prec]
    places, half to even. *)
Definition FormatFixed (prec : nat) (num den : Z) : string :=
  let scale := 10 ^ Z.of_nat prec in
  let t := roundHalfEven (num * scale) den in
  match prec with
  | O => itoa t
  | _ => itoa (t / scale) +:+ "." +:+ padLeft prec (itoa (t mod scale))
  end.

End GoNum.

Import GoNum.

(* ===================================================================== *)
(** ** The data model *)
(* ===================================================================== *)

Record GPUInfo : Type := mkGPUInfo {
  Vendor : string;
  Model : string;
  Memory : string;
  DriverVersion : string;
  PCIAddress : string;
  RawOutput : string;
  Error : string
}.

(** [GPUInfo{}]: every field is the empty string. *)
Definition zeroGPUInfo : GPUInfo := mkGPUInfo "" "" "" "" "" "" "".

Definition setVendor (g : GPUInfo) (v : string) : GPUInfo :=
  mkGPUInfo v (Model g) (Memory g) (DriverVersion g) (PCIAddress g) (RawOutput g) (Error g).
Definition setModel (g : GPUInfo) (v : string) : GPUInfo :=
  mkGPUInfo (Vendor g) v (Memory g) (DriverVersion g) (PCIAddress g) (RawOutput g) (Error g).
Definition setMemory (g : GPUInfo) (v : string) : GPUInfo :=
  mkGPUInfo (Vendor g) (Model g) v (DriverVersion g) (PCIAddress g) (RawOutput g) (Error g).
Definition setDriverVersion (g : GPUInfo) (v : string) : GPUInfo :=
  mkGPUInfo (Vendor g) (Model g) (Memory g) v (PCIAddress g) (RawOutput g) (Error g).
Definition setPCIAddress (g : GPUInfo) (v : string) : GPUInfo :=
  mkGPUInfo (Vendor g) (Model g) (Memory g) (DriverVersion g) v (RawOutput g) (Error g).
Definition setRawOutput (g : GPUInfo) (v : string) : GPUInfo :=
  mkGPUInfo (Vendor g) (Model g) (Memory g) (DriverVersion g) (PCIAddress g) v (Error g).

(** [time.Duration] counts nanoseconds. *)
Record GPUDetector : Type := mkGPUDetector { timeout : Z }.

Definition second : Z := 1000000000.

Definition NewGPUDetector : GPUDetector := mkGPUDetector (10 * second).

(* ===================================================================== *)
(** ** Helper functions *)
(* ===================================================================== *)

Definition genericTerms : list string :=
  ["basic"; "generic"; "standard"; "vnc"; "virtual"; "vmware"; "vbox"].

Definition isGenericGPU (model : string) : bool :=
  let lower := ToLower model in
  existsb (Contains lower) genericTerms.

Definition nvidiaPatterns : list string :=
  ["nvidia"; "geforce"; "quadro"; "tesla"; "rtx"; "gtx"; "titan"; "nvs"].
Definition amdPatterns : list string :=
  ["amd"; "radeon"; "rx "; "vega"; "navi"; "rdna"; "ati"; "firepro"; "firegl"].
Definition intelPatterns : list string :=
  ["intel"; "iris"; "uhd graphics"; "hd graphics"; "xe graphics"; "arc"].
Definition applePatterns : list string :=
  ["apple"; "m1"; "m2"; "m3"; "m4"].

(** The two vendor classifiers are written over the lower-casing function
    they call, [strings.ToLower] in the source, so that what they do can be
    stated for any such function and not only for the ASCII one of the
    model. *)
Definition determineVendorFromOutputWith (toLower : string -> string)
           (output : string) : string :=
  let lower := toLower output in
  if existsb (Contains lower) nvidiaPatterns then "nvidia"
  else if existsb (Contains lower) amdPatterns then "amd"
  else if existsb (Contains lower) intelPatterns then "intel"
  else if existsb (Contains lower) applePatterns then "apple"
  else "unknown".

Definition determineVendorFromOutput (output : string) : string :=
  determineVendorFromOutputWith ToLower output.

Definition normalizeVendorNameWith (toLower : string -> string)
           (vendor : string) : string :=
  let lower := toLower vendor in
  if Contains lower "nvidia" then "nvidia"
  else if Contains lower "amd" || Contains lower "ati" then "amd"
  else if Contains lower "intel" then "intel"
  else if Contains lower "apple" then "apple"
  else toLower vendor.

Definition normalizeVendorName (vendor : string) : string :=
  normalizeVendorNameWith ToLower vendor.

(** The [strings.Builder] is its content; [Len() > 0] is "not empty". *)
Definition blockStep (st : list string * string) (line : string)
  : list string * string :=
  let '(blocks, currentBlock) := st in
  if isEmpty (TrimSpace line) && negb (isEmpty currentBlock) then
    (blocks ++ [currentBlock], "")
  else if negb (isEmpty (TrimSpace line)) then
    let currentBlock :=
      if negb (isEmpty currentBlock) then currentBlock +:+ String nl ""
      else currentBlock in
    (blocks, currentBlock +:+ line)
  else (blocks, currentBlock).

Definition splitIntoBlocks (output : string) : list string :=
  let '(blocks, currentBlock) :=
    fold_left blockStep (Split output (String nl "")) ([], "") in
  if negb (isEmpty currentBlock) then blocks ++ [currentBlock] else blocks.

Definition GiB : Z := 1024 * 1024 * 1024.
Definition MiB : Z := 1024 * 1024.

(** The pattern [\d+]. *)
Definition digitsRe : regex := Plus digit true.

Definition formatMemory (memStr : string) : string :=
  let match_ := FindString digitsRe memStr in
  if negb (isEmpty match_) then
    match ParseInt match_ with
    | Some bytes =>
        if GiB <=? bytes then
          FormatFixed 1 (float64_of_int bytes) GiB +:+ " GB"
        else if MiB <=? bytes then
          FormatFixed 0 (float64_of_int bytes) MiB +:+ " MB"
        else memStr
    | None => memStr
    end
  else memStr.

(** The pattern [^([0-9a-f]{2}:[0-9a-f]{2}\.[0-9a-f])]. *)
Definition pciRe : regex :=
  Seq BeginText
    (Capture 1
       (Seq hexLower (Seq hexLower (Seq (Chr ":")
          (Seq hexLower (Seq hexLower (Seq (Chr ".") hexLower))))))).

(** The loop of [extractPCIAddress] from index 1 on: [prevLine] is
    [lines[i-1]]. *)
Fixpoint pciScan (model : string) (prevLine : string) (lines : list string)
  : string :=
  match lines with
  | [] => ""
  | line :: rest =>
      if Contains line model && MatchString pciRe prevLine
      then FindString pciRe prevLine
      else pciScan model line rest
  end.

Definition extractPCIAddress (output model : string) : string :=
  match Split output (String nl "") with
  | [] => ""
  | line0 :: rest => pciScan model line0 rest
  end.

(** The pattern [NVIDIA.*?(\d+\.\d+(?:\.\d+)?)]. *)
Definition nvidiaVersionRe : regex :=
  Seq (Lit "NVIDIA")
    (Seq (Star anyButNL false)
       (Capture 1
          (Seq (Plus digit true)
             (Seq (Chr ".")
                (Seq (Plus digit true)
                   (Opt (Seq (Chr ".") (Plus digit true)))))))).

Definition extractNvidiaVersionFromProc (data : string) : string :=
  let match_ := FindStringSubmatch nvidiaVersionRe 1 data in
  if (1 <? length match_)%nat then nth 1 match_ "" else "".

(** The pattern [size:\s*(\d+)\s*bytes]. *)
Definition sizeRe : regex :=
  Seq (Lit "size:")
    (Seq (Star space true)
       (Seq (Capture 1 (Plus digit true))
          (Seq (Star space true) (Lit "bytes")))).

Definition extractMemoryFromSize (line : string) : string :=
  let match_ := FindStringSubmatch sizeRe 1 line in
  if (1 <? length match_)%nat then
    match ParseInt (nth 1 match_ "") with
    | Some _ => formatMemory (nth 1 match_ "")
    | None => ""
    end
  else "".

(* ===================================================================== *)
(** ** Output parsers *)
(* ===================================================================== *)

(** The acceptance test shared by the key/value parsers:
    [gpu.Model != "" && !d.isGenericGPU(gpu.Model)]. *)
Definition acceptable (gpu : GPUInfo) : bool :=
  negb (isEmpty (Model gpu)) && negb (isGenericGPU (Model gpu)).

(** The patterns ["Name":\s*"([^"]+)"], ["DriverVersion":\s*"([^"]+)"] and
    ["AdapterRAM":\s*(\d+)]. *)
Definition notQuote : regex := Class (fun c => negb (Ascii.eqb c dquote)).

Definition quotedFieldRe (field : string) : regex :=
  Seq (Chr dquote) (Seq (Lit field) (Seq (Chr dquote) (Seq (Chr ":")
    (Seq (Star space true)
       (Seq (Chr dquote) (Seq (Capture 1 (Plus notQuote true)) (Chr dquote))))))).

Definition adapterRAMRe : regex :=
  Seq (Chr dquote) (Seq (Lit "AdapterRAM") (Seq (Chr dquote) (Seq (Chr ":")
    (Seq (Star space true) (Capture 1 (Plus digit true)))))).

Definition jsonBlock (gpus : list GPUInfo) (block : string) : list GPUInfo :=
  let gpu := zeroGPUInfo in
  let nameMatch := FindStringSubmatch (quotedFieldRe "Name") 1 block in
  let gpu := if (1 <? length nameMatch)%nat
             then setModel gpu (nth 1 nameMatch "") else gpu in
  let driverMatch := FindStringSubmatch (quotedFieldRe "DriverVersion") 1 block in
  let gpu := if (1 <? length driverMatch)%nat
             then setDriverVersion gpu (nth 1 driverMatch "") else gpu in
  let ramMatch := FindStringSubmatch adapterRAMRe 1 block in
  let gpu := if (1 <? length ramMatch)%nat
             then setMemory gpu (formatMemory (nth 1 ramMatch "")) else gpu in
  if acceptable gpu then
    let gpu := setVendor gpu (determineVendorFromOutput (Model gpu)) in
    let gpu := setRawOutput gpu block in
    gpus ++ [gpu]
  else gpus.

Definition parseWindowsJSONOutput (output : string) : list GPUInfo :=
  fold_left jsonBlock (Split output "},{") [].

Definition windowsLine (gpu : GPUInfo) (line : string) : GPUInfo :=
  let line := TrimSpace line in
  if isEmpty line then gpu
  else
    match SplitN line ":" 2 with
    | [k; v] =>
        let key := TrimSpace (ToLower k) in
        let value := TrimSpace v in
        if Contains key "name" then setModel gpu value
        else if Contains key "videoprocessor" then
          (if isEmpty (Model gpu) then setModel gpu value else gpu)
        else if Contains key "driverversion" then setDriverVersion gpu value
        else if Contains key "adapterram" then setMemory gpu (formatMemory value)
        else gpu
    | _ => gpu
    end.

Definition windowsBlock (gpus : list GPUInfo) (block : string) : list GPUInfo :=
  let gpu := setRawOutput zeroGPUInfo block in
  let gpu := fold_left windowsLine (Split block (String nl "")) gpu in
  if acceptable gpu then
    gpus ++ [setVendor gpu (determineVendorFromOutput (Model gpu))]
  else gpus.

Definition parseWindowsGPUOutput (output : string) : list GPUInfo :=
  if Contains output "{" && Contains output "}" then
    parseWindowsJSONOutput output
  else
    fold_left windowsBlock (splitIntoBlocks output) [].

(** The pattern [(?i)(VGA|3D|Display).*?:\s*(.+)]. *)
Definition lspciRe : regex :=
  Seq (Capture 1 (Alt (LitI "VGA") (Alt (LitI "3D") (LitI "Display"))))
    (Seq (Star anyButNL false)
       (Seq (Chr ":")
          (Seq (Star space true) (Capture 2 (Plus anyButNL true))))).

Definition lspciMatch (output : string) (gpus : list GPUInfo) (match_ : list string)
  : list GPUInfo :=
  if (2 <? length match_)%nat then
    let model := TrimSpace (nth 2 match_ "") in
    if negb (isGenericGPU model) then
      let gpu := setRawOutput
                   (setModel (setVendor zeroGPUInfo (determineVendorFromOutput model))
                      model) output in
      let pciAddr := extractPCIAddress output model in
      let gpu := if negb (isEmpty pciAddr) then setPCIAddress gpu pciAddr else gpu in
      gpus ++ [gpu]
    else gpus
  else gpus.

Definition parseLinuxLspciOutput (output : string) : list GPUInfo :=
  fold_left (lspciMatch output) (FindAllStringSubmatch lspciRe 2 output) [].

Definition lshwLine (gpu : GPUInfo) (line : string) : GPUInfo :=
  let line := TrimSpace line in
  if HasPrefix line "product:" then
    setModel gpu (TrimSpace (TrimPrefix line "product:"))
  else if HasPrefix line "vendor:" then
    let vendor := TrimSpace (TrimPrefix line "vendor:") in
    if String.eqb (Vendor gpu) "" || String.eqb (Vendor gpu) "unknown"
    then setVendor gpu (normalizeVendorName vendor) else gpu
  else if Contains line "size:" && Contains line "bytes" then
    setMemory gpu (extractMemoryFromSize line)
  else gpu.

Definition lshwBlock (gpus : list GPUInfo) (block : string) : list GPUInfo :=
  let gpu := setRawOutput zeroGPUInfo block in
  let gpu := fold_left lshwLine (Split block (String nl "")) gpu in
  if acceptable gpu then
    let gpu :=
      if String.eqb (Vendor gpu) "" || String.eqb (Vendor gpu) "unknown"
      then setVendor gpu (determineVendorFromOutput (Model gpu)) else gpu in
    gpus ++ [gpu]
  else gpus.

Definition parseLinuxLshwOutput (output : string) : list GPUInfo :=
  fold_left lshwBlock (splitIntoBlocks output) [].

Definition macLine (gpu : GPUInfo) (line : string) : GPUInfo :=
  let line := TrimSpace line in
  if Contains line "Chipset Model:" then
    match SplitN line ":" 2 with
    | [_; v] => setModel gpu (TrimSpace v)
    | _ => gpu
    end
  else if Contains line "VRAM" && Contains line ":" then
    match SplitN line ":" 2 with
    | [_; v] => setMemory gpu (TrimSpace v)
    | _ => gpu
    end
  else gpu.

(** The macOS parser accepts on [gpu.Model != ""] alone. *)
Definition macBlock (gpus : list GPUInfo) (block : string) : list GPUInfo :=
  let gpu := setRawOutput zeroGPUInfo block in
  let gpu := fold_left macLine (Split block (String nl "")) gpu in
  if negb (isEmpty (Model gpu)) then
    gpus ++ [setVendor gpu (determineVendorFromOutput (Model gpu))]
  else gpus.

Definition parseMacGPUOutput (output : string) : list GPUInfo :=
  fold_left macBlock (splitIntoBlocks output) [].

Definition glxLine (output : string) (gpus : list GPUInfo) (line : string)
  : list GPUInfo :=
  if Contains line "OpenGL renderer string:" then
    match SplitN line ":" 2 with
    | [_; v] =>
        let model := TrimSpace v in
        if negb (isGenericGPU model) then
          gpus ++ [setRawOutput
                     (setModel (setVendor zeroGPUInfo (determineVendorFromOutput model))
                        model) output]
        else gpus
    | _ => gpus
    end
  else gpus.

Definition parseLinuxGLXOutput (output : string) : list GPUInfo :=
  fold_left (glxLine output) (Split output (String nl "")) [].

(* ===================================================================== *)
(** ** Merging the Linux probes *)
(* ===================================================================== *)

Definition areGPUsSimilar (gpu1 gpu2 : GPUInfo) : bool :=
  String.eqb (Vendor gpu1) (Vendor gpu2)
  && (Contains (Model gpu1) (Model gpu2) || Contains (Model gpu2) (Model gpu1)).

(** The three assignments to [result[i]] of the merge. *)
Definition backfill (r newGPU : GPUInfo) : GPUInfo :=
  let r := if isEmpty (Memory r) && negb (isEmpty (Memory newGPU))
           then setMemory r (Memory newGPU) else r in
  let r := if isEmpty (DriverVersion r) && negb (isEmpty (DriverVersion newGPU))
           then setDriverVersion r (DriverVersion newGPU) else r in
  let r := if isEmpty (PCIAddress r) && negb (isEmpty (PCIAddress newGPU))
           then setPCIAddress r (PCIAddress newGPU) else r in
  r.

(** One iteration of the outer loop: the inner loop stops at the first
    index [i] whose record is similar to [newGPU] and updates [result[i]];
    without one, [newGPU] is appended. *)
Definition mergeOne (result : list GPUInfo) (newGPU : GPUInfo) : list GPUInfo :=
  match list_find (fun existingGPU => areGPUsSimilar existingGPU newGPU) result with
  | Some (i, _) =>
      match result !! i with
      | Some r => <[i := backfill r newGPU]> result
      | None => result
      end
  | None => result ++ [newGPU]
  end.

Definition mergeLinuxGPUInfo (existing new : list GPUInfo) : list GPUInfo :=
  let result := existing in
  fold_left mergeOne new result.

(* ===================================================================== *)
(** ** The host and the probes *)
(* ===================================================================== *)

Definition error : Type := string.

(** What the detector asks of the host. *)
Inductive Call : Type :=
| Exec (timeout : Z) (name : string) (args : list string)
| ReadFile (path : string).

(** The host: [runtime.GOOS], what [exec.CommandContext(...).Output()]
    returns for a command run under a timeout, and what [os.ReadFile]
    returns.  A failed or timed-out command has a non-nil error. *)
Record World : Type := mkWorld {
  GOOS : string;
  commandOutput : Z -> string -> list string -> string * option error;
  fileContent : string -> string * option error
}.

(** A computation that questions the host and logs its calls. *)
Definition Probe (A : Type) : Type := World -> list Call -> A * list Call.

Definition ret {A} (a : A) : Probe A := fun _ tr => (a, tr).

Definition bind {A B} (m : Probe A) (k : A -> Probe B) : Probe B :=
  fun w tr => let '(a, tr') := m w tr in k a w tr'.

Notation "'let*' p ':=' m 'in' k" := (bind m (fun p => k))
  (at level 10, p pattern, m at level 100, k at level 200).

Definition run {A} (m : Probe A) (w : World) : A * list Call := m w [].
Definition result {A} (m : Probe A) (w : World) : A := fst (run m w).
Definition trace {A} (m : Probe A) (w : World) : list Call := snd (run m w).

Definition runCommandWithTimeout (d : GPUDetector) (name : string)
           (args : list string) : Probe (string * option error) :=
  fun w tr => (commandOutput w (timeout d) name args,
               tr ++ [Exec (timeout d) name args]).

Definition osReadFile (path : string) : Probe (string * option error) :=
  fun w tr => (fileContent w path, tr ++ [ReadFile path]).

Definition sentinel (msg : string) : GPUInfo :=
  mkGPUInfo "unknown" "unknown" "" "" "" "" msg.

(** *** Windows *)

Definition squote : string := String "039" "".

Definition cimCommand : string :=
  "Get-CimInstance -ClassName Win32_VideoController | Where-Object {$_.Name -notlike "
  +:+ squote +:+ "*Basic*" +:+ squote +:+ " -and $_.Name -notlike "
  +:+ squote +:+ "*Generic*" +:+ squote +:+ " -and $_.Name -notlike "
  +:+ squote +:+ "*VNC*" +:+ squote
  +:+ "} | Select-Object Name, VideoProcessor, DriverVersion, AdapterRAM, PNPDeviceID | ConvertTo-Json".

Definition wmiCommand : string :=
  "Get-WmiObject -Class Win32_VideoController | Where-Object {$_.Name -notlike "
  +:+ squote +:+ "*Basic*" +:+ squote +:+ " -and $_.Name -notlike "
  +:+ squote +:+ "*Generic*" +:+ squote
  +:+ "} | Select-Object Name, VideoProcessor, DriverVersion, AdapterRAM | Format-List".

Definition detectWindowsGPUsPowerShellCIM (d : GPUDetector)
  : Probe (list GPUInfo * option error) :=
  let* (out, err) := runCommandWithTimeout d "powershell" ["-NoProfile"; "-Command"; cimCommand] in
  match err with
  | Some e => ret ([], Some e)
  | None => ret (parseWindowsGPUOutput out, None)
  end.

Definition detectWindowsGPUsPowerShellWMI (d : GPUDetector)
  : Probe (list GPUInfo * option error) :=
  let* (out, err) := runCommandWithTimeout d "powershell" ["-NoProfile"; "-Command"; wmiCommand] in
  match err with
  | Some e => ret ([], Some e)
  | None => ret (parseWindowsGPUOutput out, None)
  end.

Definition wmicArgs : list string :=
  ["path"; "win32_VideoController"; "get";
   "name,VideoProcessor,DriverVersion,AdapterRAM"; "/format:list"].

Definition detectWindowsGPUsWMIC (d : GPUDetector)
  : Probe (list GPUInfo * option error) :=
  let* (out, err) := runCommandWithTimeout d "wmic" wmicArgs in
  match err with
  | Some e => ret ([], Some e)
  | None => ret (parseWindowsGPUOutput out, None)
  end.

Definition windowsFailure : string :=
  "Failed to detect GPU using all Windows methods".

(** The loop over [methods]: the first method with a nil error and a
    non-empty result returns; after the last one, the sentinel. *)
Fixpoint tryMethods (methods : list (string * Probe (list GPUInfo * option error)))
  : Probe (list GPUInfo * option error) :=
  match methods with
  | [] => ret ([sentinel windowsFailure], None)
  | (_, fn) :: rest =>
      let* (gpus, err) := fn in
      match err, gpus with
      | None, _ :: _ => ret (gpus, None)
      | _, _ => tryMethods rest
      end
  end.

Definition windowsMethods (d : GPUDetector)
  : list (string * Probe (list GPUInfo * option error)) :=
  [("PowerShell CIM", detectWindowsGPUsPowerShellCIM d);
   ("PowerShell WMI", detectWindowsGPUsPowerShellWMI d);
   ("WMIC", detectWindowsGPUsWMIC d)].

Definition detectWindowsGPUs (d : GPUDetector) : Probe (list GPUInfo * option error) :=
  tryMethods (windowsMethods d).

(** *** Linux *)

Definition lspciPreferredArgs : list string :=
  ["-v"; "-s"; "$(lspci | grep -i vga | cut -d" +:+ squote +:+ " " +:+ squote +:+ " -f1)"].

Definition tryLinuxLspci (d : GPUDetector) : Probe (list GPUInfo) :=
  let* (out, err) := runCommandWithTimeout d "lspci" lspciPreferredArgs in
  match err with
  | Some _ =>
      let* (out, err) := runCommandWithTimeout d "lspci" [] in
      match err with
      | Some _ => ret []
      | None => ret (parseLinuxLspciOutput out)
      end
  | None => ret (parseLinuxLspciOutput out)
  end.

Definition lshwArgs : list string := ["-C"; "display"].

Definition tryLinuxLshw (d : GPUDetector) : Probe (list GPUInfo) :=
  let* (out, err) := runCommandWithTimeout d "lshw" lshwArgs in
  match err with
  | Some _ => ret []
  | None => ret (parseLinuxLshwOutput out)
  end.

Definition nvidiaProcPath : string := "/proc/driver/nvidia/version".

Definition tryLinuxNvidiaProc : Probe GPUInfo :=
  let* (data, err) := osReadFile nvidiaProcPath in
  match err with
  | None =>
      let version := extractNvidiaVersionFromProc data in
      ret (mkGPUInfo "nvidia" "NVIDIA GPU" "" version "" data "")
  | Some _ => ret (setVendor zeroGPUInfo "unknown")
  end.

Definition tryLinuxGLX (d : GPUDetector) : Probe (list GPUInfo) :=
  let* (out, err) := runCommandWithTimeout d "glxinfo" [] in
  match err with
  | Some _ => ret []
  | None => ret (parseLinuxGLXOutput out)
  end.

Definition linuxFailure : string :=
  "Could not detect GPU. Consider installing lspci, lshw, or mesa-utils".

Definition detectLinuxGPUs (d : GPUDetector) : Probe (list GPUInfo * option error) :=
  let gpus := [] in
  let* lspciGPUs := tryLinuxLspci d in
  let gpus := if (0 <? length lspciGPUs)%nat then gpus ++ lspciGPUs else gpus in
  let* lshwGPUs := tryLinuxLshw d in
  let gpus := if (0 <? length lshwGPUs)%nat
              then mergeLinuxGPUInfo gpus lshwGPUs else gpus in
  let* nvidiaGPU := tryLinuxNvidiaProc in
  let gpus := if negb (String.eqb (Vendor nvidiaGPU) "unknown")
              then mergeLinuxGPUInfo gpus [nvidiaGPU] else gpus in
  let* glxGPUs := tryLinuxGLX d in
  let gpus := if (0 <? length glxGPUs)%nat
              then mergeLinuxGPUInfo gpus glxGPUs else gpus in
  if (length gpus =? 0)%nat then ret ([sentinel linuxFailure], None)
  else ret (gpus, None).

(** *** macOS *)

Definition detectMacGPUs (d : GPUDetector) : Probe (list GPUInfo * option error) :=
  let* (out, err) := runCommandWithTimeout d "system_profiler" ["SPDisplaysDataType"] in
  match err with
  | Some e => ret ([sentinel ("Failed to run system_profiler: " +:+ e)], None)
  | None => ret (parseMacGPUOutput out, None)
  end.

(** *** The entry points *)

Definition DetectGPUs (d : GPUDetector) : Probe (list GPUInfo * option error) :=
  fun w =>
    (if String.eqb (GOOS w) "windows" then detectWindowsGPUs d
     else if String.eqb (GOOS w) "linux" then detectLinuxGPUs d
     else if String.eqb (GOOS w) "darwin" then detectMacGPUs d
     else ret ([sentinel ("Unsupported operating system: " +:+ GOOS w)], None)) w.

(** [%v] of an error value. *)
Definition showError (err : option error) : string :=
  match err with
  | None => "<nil>"
  | Some e => e
  end.

Definition DetectGPUVendor : Probe GPUInfo :=
  let detector := NewGPUDetector in
  let* (gpus, err) := DetectGPUs detector in
  match err, gpus with
  | None, gpu0 :: _ => ret gpu0
  | _, _ => ret (sentinel ("Detection failed: " +:+ showError err))
  end.

(* ===================================================================== *)
(** ** The vocabulary of the properties: predicates and sample hosts *)
(* ===================================================================== *)

(** Either the single sentinel record, or records that all satisfy [P]. *)
Definition sentinelOr (P : GPUInfo -> Prop) (gpus : list GPUInfo) : Prop :=
  (exists msg, msg <> "" /\ gpus = [sentinel msg]) \/ Forall P gpus.

(** The model of [g] holds no block-listed term. *)
Definition notGeneric (g : GPUInfo) : Prop := isGenericGPU (Model g) = false.

(** [r] stands where [e] stood and keeps what [e] had observed: vendor,
    model, raw output and error, and every set field among memory, driver
    version and PCI address. *)
Definition keepsFirstObserved (e r : GPUInfo) : Prop :=
  Vendor r = Vendor e /\ Model r = Model e
  /\ RawOutput r = RawOutput e /\ Error r = Error e
  /\ (Memory e <> "" -> Memory r = Memory e)
  /\ (DriverVersion e <> "" -> DriverVersion r = DriverVersion e)
  /\ (PCIAddress e <> "" -> PCIAddress r = PCIAddress e).

(** The back-fill written the way the specification words it: an empty
    field takes the value of the new record, a set field keeps its own. *)
Definition firstWins (old new : string) : string :=
  if isEmpty old then new else old.

(** [g] is no sentinel: it carries no error text. *)
Definition noError (g : GPUInfo) : Prop := Error g = "".

(** Text made of lines, each ended by a line feed. *)
Definition unlines (ls : list string) : string :=
  fold_right (fun l rest => l +:+ String nl rest) "" ls.

(** A Mac on which [system_profiler] runs and lists no graphics device. *)
Definition headlessMac : World :=
  mkWorld "darwin"
    (fun _ name _ =>
       if String.eqb name "system_profiler"
       then (unlines ["Graphics/Displays:"; ""], None)
       else ("", Some "executable file not found in $PATH"))
    (fun _ => ("", Some "no such file or directory")).

(** [parse] reads at most one record from [piece], and that record holds
    [piece] as its raw output. *)
Definition readsOne (parse : string -> list GPUInfo) (piece : string) : Prop :=
  parse piece = [] \/ exists g, parse piece = [g] /\ RawOutput g = piece.

(** The lines of a text, put together again. *)
Fixpoint joinLines (lines : list string) : string :=
  match lines with
  | [] => ""
  | [l] => l
  | l :: rest => l +:+ String nl (joinLines rest)
  end.


(** The closed set of vendor tags of the specification. *)
Definition vendorTags : list string := ["nvidia"; "amd"; "intel"; "apple"; "unknown"].





(** A Linux host whose only working probe is the hardware listing, which
    reports a Matrox adapter. *)
Definition matroxServer : World :=
  mkWorld "linux"
    (fun _ name _ =>
       if String.eqb name "lshw"
       then (unlines ["  *-display";
                      "       description: VGA compatible controller";
                      "       product: G200eR2";
                      "       vendor: Matrox Electronics Systems Ltd.";
                      "       size: 16777216 bytes"], None)
       else ("", Some "executable file not found in $PATH"))
    (fun _ => ("", Some "no such file or directory")).

(** The vendor that detection reports on [matroxServer]. *)
Definition matroxVendor : string := "matrox electronics systems ltd.".

(** What [system_profiler SPDisplaysDataType] prints in a VMware guest. *)
Definition vmwareGuestProfile : string :=
  unlines ["Graphics/Displays:";
           "";
           "    Display:";
           "";
           "      Chipset Model: VMware SVGA II";
           "      Type: GPU";
           "      Bus: PCI";
           "      VRAM (Total): 128 MB"].

(** The two records of the back-fill example of the specification. *)
Definition rtxFromLspci : GPUInfo := mkGPUInfo "nvidia" "GeForce RTX 3080" "" "" "" "" "".

(** The three invocations of the Windows strategies, as the host sees them. *)
Definition cimCall (d : GPUDetector) : Call :=
  Exec (timeout d) "powershell" ["-NoProfile"; "-Command"; cimCommand].
Definition wmiCall (d : GPUDetector) : Call :=
  Exec (timeout d) "powershell" ["-NoProfile"; "-Command"; wmiCommand].
Definition wmicCall (d : GPUDetector) : Call :=
  Exec (timeout d) "wmic" wmicArgs.

(** What a strategy yields on host [w]: the records parsed from its output
    when the invocation succeeds, none when it fails. *)
Definition strategyYield (w : World) (c : Call) : list GPUInfo :=
  match c with
  | Exec t name args =>
      match commandOutput w t name args with
      | (out, None) => parseWindowsGPUOutput out
      | (_, Some _) => []
      end
  | ReadFile _ => []
  end.

(** The model, lower-cased by [toLower], contains a pattern of the group. *)
Definition matchesGroup (toLower : string -> string) (model : string)
           (patterns : list string) : Prop :=
  exists p, p ∈ patterns /\ Contains (toLower model) p = true.

(** The model of the precedence example of the specification. *)
Definition amdWithIntel : string := "AMD Radeon with Intel Iris fallback".

(** [runtime.GOOS] is none of the three platforms with a branch. *)
Definition unsupportedOS (w : World) : Prop :=
  GOOS w <> "windows" /\ GOOS w <> "linux" /\ GOOS w <> "darwin".


(** The record that stands for a failed detection. *)
Definition isSentinel (g : GPUInfo) : Prop :=
  Vendor g = "unknown" /\ Model g = "unknown" /\ Error g <> "".

(** A host of an unknown kind on which nothing can be run or read. *)
Definition deadHost (os : string) : World :=
  mkWorld os
    (fun _ _ _ => ("", Some "executable file not found in $PATH"))
    (fun _ => ("", Some "no such file or directory")).

(* ===================================================================== *)
(** ** Further vocabulary: lines, calls and merged sets *)
(* ===================================================================== *)

(** The byte [c] occurs in [s]. *)
Fixpoint hasByte (c : ascii) (s : string) : bool :=
  match s with
  | EmptyString => false
  | String x s' => Ascii.eqb x c || hasByte c s'
  end.

(** The lines of a text. *)
Definition linesOf (s : string) : list string := Split s (String nl "").

(** A line with something other than white space on it. *)
Definition nonBlank (line : string) : bool := negb (isEmpty (TrimSpace line)).

(** No byte of [s] is a decimal digit. *)
Fixpoint noDigit (s : string) : bool :=
  match s with
  | EmptyString => true
  | String c s' => negb ((48 <=? byte c) && (byte c <=? 57))%N && noDigit s'
  end.

(** The programs the detector runs. *)
Definition probeCommands : list string :=
  ["powershell"; "wmic"; "lspci"; "lshw"; "glxinfo"; "system_profiler"].

(** A call the detector [d] may make: one of its programs under its own
    timeout, or a read of the NVIDIA driver file. *)
Definition probeCall (d : GPUDetector) (c : Call) : Prop :=
  (exists name args, c = Exec (timeout d) name args /\ name ∈ probeCommands)
  \/ c = ReadFile nvidiaProcPath.

(** The calls of the Linux branch: the simple bus listing is run only after
    the preferred one failed; the three other probes are always run. *)
Definition linuxCalls (d : GPUDetector) (w : World) : list Call :=
  Exec (timeout d) "lspci" lspciPreferredArgs
  :: match snd (commandOutput w (timeout d) "lspci" lspciPreferredArgs) with
     | Some _ => [Exec (timeout d) "lspci" []]
     | None => []
     end
  ++ [Exec (timeout d) "lshw" lshwArgs; ReadFile nvidiaProcPath;
      Exec (timeout d) "glxinfo" []].

(** The record built from the content of the NVIDIA driver file. *)
Definition nvidiaProcRecord (data : string) : GPUInfo :=
  mkGPUInfo "nvidia" "NVIDIA GPU" "" (extractNvidiaVersionFromProc data) "" data "".

(** Merging [n] into [result] changes nothing. *)
Definition absorbed (result : list GPUInfo) (n : GPUInfo) : Prop :=
  mergeOne result n = result.

(** Three models that show that similarity does not compose. *)
Definition gpuNamed (model : string) : GPUInfo :=
  mkGPUInfo "nvidia" model "" "" "" "" "".

(** The lines of the blocks closed so far and of the block under
    construction. *)
Definition blockLines (st : list string * string) : list string :=
  flat_map linesOf (fst st) ++ (if isEmpty (snd st) then [] else linesOf (snd st)).

(** The single call of the macOS branch. *)
Definition macCall (d : GPUDetector) : Call :=
  Exec (timeout d) "system_profiler" ["SPDisplaysDataType"].

(** A Linux host on which every probe answers. *)
Definition linuxWorkstation : World :=
  mkWorld "linux"
    (fun _ name _ =>
       if String.eqb name "lspci"
       then (unlines ["01:00.0 VGA compatible controller: NVIDIA GeForce RTX 3080"], None)
       else if String.eqb name "lshw"
       then (unlines ["  *-display";
                      "       product: GeForce RTX 3080";
                      "       vendor: NVIDIA Corporation";
                      "       size: 10737418240 bytes"], None)
       else if String.eqb name "glxinfo"
       then (unlines ["OpenGL renderer string: NVIDIA GeForce RTX 3080/PCIe/SSE2"], None)
       else ("", Some "executable file not found in $PATH"))
    (fun _ => ("NVRM version: NVIDIA UNIX x86_64 Kernel Module  535.104.05", None)).

(** A Windows host on which only the third strategy answers. *)
Definition windowsDesktop : World :=
  mkWorld "windows"
    (fun _ name _ =>
       if String.eqb name "wmic"
       then (unlines ["AdapterRAM : 4293918720";
                      "DriverVersion : 31.0.15.3623";
                      "Name : NVIDIA GeForce RTX 3080"], None)
       else ("", Some "exit status 1"))
    (fun _ => ("", Some "no such file or directory")).

(** A Linux host on which only glxinfo answers, with a renderer line that
    names nothing. *)
Definition blankRenderer : World :=
  mkWorld "linux"
    (fun _ name _ =>
       if String.eqb name "glxinfo"
       then (unlines ["OpenGL renderer string: "], None)
       else ("", Some "executable file not found in $PATH"))
    (fun _ => ("", Some "no such file or directory")).

(* ===================================================================== *)
(** ** internal/config: the processing configuration *)
(* ===================================================================== *)

(** [Quality] is a Go [int]; the detector's host is a 64-bit one. *)
Record ProcessingConfig : Type := mkProcessingConfig {
  Acceleration : string;
  Codec : string;
  Quality : Z;
  Preset : string;
  InputPath : string;
  OutputPath : string
}.

Definition NewDefault : ProcessingConfig :=
  mkProcessingConfig "" "" 23 "" "" "output.mp4".

Definition SetSoftwareEncoding (c : ProcessingConfig) : ProcessingConfig :=
  mkProcessingConfig "none" "libx264" (Quality c) "medium" (InputPath c) (OutputPath c).

Definition SetHardwareEncoding (c : ProcessingConfig)
           (acceleration codec preset : string) : ProcessingConfig :=
  mkProcessingConfig acceleration codec (Quality c) preset (InputPath c) (OutputPath c).

Definition setInputPath (c : ProcessingConfig) (v : string) : ProcessingConfig :=
  mkProcessingConfig (Acceleration c) (Codec c) (Quality c) (Preset c) v (OutputPath c).
Definition setOutputPath (c : ProcessingConfig) (v : string) : ProcessingConfig :=
  mkProcessingConfig (Acceleration c) (Codec c) (Quality c) (Preset c) (InputPath c) v.
Definition setQuality (c : ProcessingConfig) (v : Z) : ProcessingConfig :=
  mkProcessingConfig (Acceleration c) (Codec c) v (Preset c) (InputPath c) (OutputPath c).

(* ===================================================================== *)
(** ** internal/encoder: the encoder table *)
(* ===================================================================== *)

(** [goos] is [runtime.GOOS]. *)
Definition getAccelerationMethod (goos : string) (gpu : GPUInfo) : string :=
  if String.eqb (Vendor gpu) "nvidia" then "cuda"
  else if String.eqb (Vendor gpu) "intel" then
    (if String.eqb goos "windows" then "qsv" else "vaapi")
  else if String.eqb (Vendor gpu) "amd" then
    (if String.eqb goos "windows" then "d3d11va" else "vaapi")
  else if String.eqb (Vendor gpu) "apple" then "videotoolbox"
  else "none".

Definition getCodec (acceleration : string) : string :=
  if String.eqb acceleration "cuda" then "h264_nvenc"
  else if String.eqb acceleration "qsv" then "h264_qsv"
  else if String.eqb acceleration "vaapi" then "h264_vaapi"
  else if String.eqb acceleration "videotoolbox" then "h264_videotoolbox"
  else if String.eqb acceleration "d3d11va" then "h264_amf"
  else "libx264".

Definition getPreset (acceleration : string) : string :=
  if String.eqb acceleration "cuda" then "medium"
  else if String.eqb acceleration "qsv" then "medium"
  else if String.eqb acceleration "vaapi" then "ultrafast"
  else if String.eqb acceleration "videotoolbox" then "balanced"
  else if String.eqb acceleration "d3d11va" then "balanced"
  else "medium".

Definition ConfigureForGPU (goos : string) (gpu : GPUInfo) : string * string * string :=
  let acceleration := getAccelerationMethod goos gpu in
  let codec := getCodec acceleration in
  let preset := getPreset acceleration in
  (acceleration, codec, preset).

(* ===================================================================== *)
(** ** Go's [path/filepath.Ext] and [fmt]'s [%d] *)
(* ===================================================================== *)

(** [os.IsPathSeparator]: the slash, and on Windows the backslash too. *)
Definition isPathSeparator (goos : string) (c : ascii) : bool :=
  Ascii.eqb c "/" || (String.eqb goos "windows" && Ascii.eqb c "\").

(** The backward scan of [filepath.Ext], read from the front: [Some] as soon
    as the part of the path from here on holds a dot or a separator, with
    the answer that the one nearest to the end gives. *)
Fixpoint extScan (goos : string) (path : string) : option string :=
  match path with
  | EmptyString => None
  | String c rest =>
      match extScan goos rest with
      | Some r => Some r
      | None =>
          if isPathSeparator goos c then Some ""
          else if Ascii.eqb c "." then Some path
          else None
      end
  end.

Definition Ext (goos : string) (path : string) : string :=
  match extScan goos path with
  | Some r => r
  | None => ""
  end.

(** [fmt.Sprintf "%d"]. *)
Definition formatInt (n : Z) : string :=
  if n <? 0 then "-" +:+ itoa (- n) else itoa n.

(* ===================================================================== *)
(** ** internal/encoder: the command builder *)
(* ===================================================================== *)

Module CommandBuilder.

Definition addHardwareAcceleration (args : list string) (acceleration : string)
  : list string :=
  if String.eqb acceleration "cuda" then
    args ++ ["-hwaccel"; "cuda"; "-hwaccel_output_format"; "cuda"]
  else if String.eqb acceleration "qsv" then
    args ++ ["-hwaccel"; "qsv"]
  else if String.eqb acceleration "vaapi" then
    let args := args ++ ["-init_hw_device"; "vaapi=va:/dev/dri/renderD128"] in
    let args := args ++ ["-filter_hw_device"; "va"] in
    args ++ ["-hwaccel_output_format"; "vaapi"]
  else if String.eqb acceleration "videotoolbox" then
    args ++ ["-hwaccel"; "videotoolbox"]
  else if String.eqb acceleration "d3d11va" then
    args ++ ["-hwaccel"; "d3d11va"]
  else args.

Definition addVideoEncoding (args : list string) (config : ProcessingConfig)
  : list string :=
  if String.eqb (Codec config) "h264_nvenc" then
    let args := args ++ ["-c:v"; Codec config] in
    let args := args ++ ["-preset"; Preset config] in
    let args := args ++ ["-rc"; "vbr"; "-cq"; formatInt (Quality config)] in
    args ++ ["-b:v"; "0"]
  else if String.eqb (Codec config) "h264_qsv" then
    let args := args ++ ["-c:v"; Codec config] in
    let args := args ++ ["-preset"; Preset config] in
    args ++ ["-global_quality"; formatInt (Quality config)]
  else if String.eqb (Codec config) "h264_vaapi" then
    let args := args ++ ["-vf"; "format=nv12,hwupload"] in
    let args := args ++ ["-c:v"; Codec config] in
    args ++ ["-qp"; formatInt (Quality config)]
  else if String.eqb (Codec config) "h264_videotoolbox" then
    let args := args ++ ["-c:v"; Codec config] in
    args ++ ["-q:v"; formatInt (Quality config)]
  else if String.eqb (Codec config) "h264_amf" then
    let args := args ++ ["-c:v"; Codec config] in
    let args := args ++ ["-quality"; Preset config] in
    let args := args ++ ["-rc"; "cqp"] in
    let args := args ++ ["-qp_i"; formatInt (Quality config)] in
    args ++ ["-qp_p"; formatInt (Quality config)]
  else
    let args := args ++ ["-c:v"; "libx264"] in
    let args := args ++ ["-preset"; Preset config] in
    args ++ ["-crf"; formatInt (Quality config)].

Definition isStreamingURL (outputPath : string) : bool :=
  let lower := ToLower outputPath in
  HasPrefix lower "rtmp://" || HasPrefix lower "rtmps://"
  || HasPrefix lower "rtsp://" || HasPrefix lower "rtsps://"
  || HasPrefix lower "srt://" || HasPrefix lower "udp://"
  || HasPrefix lower "tcp://" || HasPrefix lower "http://"
  || HasPrefix lower "https://".

Definition addStreamingFormat (args : list string) (outputPath : string)
  : list string :=
  let lower := ToLower outputPath in
  if HasPrefix lower "rtmp://" || HasPrefix lower "rtmps://" then
    args ++ ["-f"; "flv"]
  else if HasPrefix lower "rtsp://" || HasPrefix lower "rtsps://" then
    args ++ ["-f"; "rtsp"]
  else if HasPrefix lower "srt://" then args ++ ["-f"; "mpegts"]
  else if HasPrefix lower "udp://" then args ++ ["-f"; "mpegts"]
  else if HasPrefix lower "tcp://" then args ++ ["-f"; "mpegts"]
  else if HasPrefix lower "http://" || HasPrefix lower "https://" then
    (if Contains lower ".m3u8" then
       let args := args ++ ["-f"; "hls"] in
       let args := args ++ ["-hls_time"; "10"] in
       args ++ ["-hls_list_size"; "0"]
     else if Contains lower ".mpd" then args ++ ["-f"; "dash"]
     else args ++ ["-f"; "mpegts"])
  else args ++ ["-f"; "mpegts"].

(** The switch on the extension of a file output; its text is the same in
    the [addOutputFormat] of the command builder and of the fallback
    manager. *)
Definition fileFormat (args : list string) (ext : string) : list string :=
  if String.eqb ext ".mp4" then args ++ ["-f"; "mp4"]
  else if String.eqb ext ".mkv" then args ++ ["-f"; "matroska"]
  else if String.eqb ext ".avi" then args ++ ["-f"; "avi"]
  else if String.eqb ext ".mov" then args ++ ["-f"; "mov"]
  else if String.eqb ext ".webm" then args ++ ["-f"; "webm"]
  else if String.eqb ext ".flv" then args ++ ["-f"; "flv"]
  else if String.eqb ext ".ts" then args ++ ["-f"; "mpegts"]
  else if String.eqb ext ".m3u8" then
    let args := args ++ ["-f"; "hls"] in
    let args := args ++ ["-hls_time"; "10"] in
    args ++ ["-hls_list_size"; "0"]
  else args ++ ["-f"; "mp4"].

Definition addOutputFormat (goos : string) (args : list string) (outputPath : string)
  : list string :=
  if isStreamingURL outputPath then addStreamingFormat args outputPath
  else
    let ext := ToLower (Ext goos outputPath) in
    fileFormat args ext.

Definition BuildFFmpegCommand (goos : string) (config : ProcessingConfig)
  : list string :=
  let args := [] in
  let args := addHardwareAcceleration args (Acceleration config) in
  let args := args ++ ["-i"; InputPath config] in
  let args := addVideoEncoding args config in
  let args := args ++ ["-c:a"; "copy"] in
  let args := addOutputFormat goos args (OutputPath config) in
  let args := args ++ ["-movflags"; "+faststart"] in
  let args := args ++ ["-bf"; "0"] in
  let args := args ++ ["-fflags"; "nobuffer"] in
  let args := args ++ ["-flags"; "low_delay"] in
  let args := args ++ ["-fflags"; "+discardcorrupt"] in
  let args := args ++ ["-analyzeduration"; "0"] in
  let args := args ++ ["-probesize"; "32"] in
  let args := args ++ ["-tune"; "zerolatency"] in
  let args := args ++ ["-y"] in
  args ++ [OutputPath config].

End CommandBuilder.

(* ===================================================================== *)
(** ** internal/encoder: the fallback manager *)
(* ===================================================================== *)

Record FallbackMethod : Type := mkFallbackMethod {
  Description : string;
  Args : list string
}.

Module FallbackManager.

Definition isStreamingURL (outputPath : string) : bool :=
  let lower := ToLower outputPath in
  HasPrefix lower "rtmp://" || HasPrefix lower "rtmps://"
  || HasPrefix lower "rtsp://" || HasPrefix lower "rtsps://"
  || HasPrefix lower "srt://" || HasPrefix lower "udp://"
  || HasPrefix lower "tcp://" || HasPrefix lower "http://"
  || HasPrefix lower "https://".

Definition addStreamingFormat (args : list string) (outputPath : string)
  : list string :=
  let lower := ToLower outputPath in
  if HasPrefix lower "rtmp://" || HasPrefix lower "rtmps://" then
    args ++ ["-f"; "flv"]
  else if HasPrefix lower "rtsp://" || HasPrefix lower "rtsps://" then
    let args := args ++ ["-f"; "rtsp"] in
    let args := args ++ ["-rtsp_transport"; "tcp"] in
    let args := args ++ ["-muxdelay"; "0.1"] in
    let args := args ++ ["-bufsize"; "64k"] in
    let args := args ++ ["-maxrate"; "2000k"] in
    let args := args ++ ["-rtsp_flags"; "listen"] in
    let args := args ++ ["-timeout"; "5000000"] in
    args ++ ["-stimeout"; "5000000"]
  else if HasPrefix lower "srt://" then args ++ ["-f"; "mpegts"]
  else if HasPrefix lower "udp://" then args ++ ["-f"; "mpegts"]
  else if HasPrefix lower "tcp://" then args ++ ["-f"; "mpegts"]
  else if HasPrefix lower "http://" || HasPrefix lower "https://" then
    (if Contains lower ".m3u8" then
       let args := args ++ ["-f"; "hls"] in
       let args := args ++ ["-hls_time"; "10"] in
       args ++ ["-hls_list_size"; "0"]
     else if Contains lower ".mpd" then args ++ ["-f"; "dash"]
     else args ++ ["-f"; "mpegts"])
  else args ++ ["-f"; "mpegts"].

Definition addOutputFormat (goos : string) (args : list string) (outputPath : string)
  : list string :=
  if isStreamingURL outputPath then addStreamingFormat args outputPath
  else
    let ext := ToLower (Ext goos outputPath) in
    CommandBuilder.fileFormat args ext.

Definition addMP4Fallback (args : list string) : list string :=
  args ++ ["-f"; "mp4"].

(** [baseArgs] is a slice literal, full to its capacity: each [append] to it
    copies, so the three argument lists share nothing. *)
Definition getFallbackMethods (goos : string) (config : ProcessingConfig)
  : list FallbackMethod :=
  let baseArgs :=
    ["-i"; InputPath config;
     "-c:v"; "libx264";
     "-fflags"; "nobuffer";
     "-flags"; "low_delay";
     "-fflags"; "+discardcorrupt";
     "-analyzeduration"; "0";
     "-probesize"; "32";
     "-preset"; "ultrafast";
     "-tune"; "zerolatency";
     "-crf"; formatInt (Quality config);
     "-c:a"; "copy"] in
  let argsWithFormat := addOutputFormat goos baseArgs (OutputPath config) in
  let finalArgs :=
    argsWithFormat ++ ["-movflags"; "+faststart"; "-y"; OutputPath config] in
  [mkFallbackMethod "Software encoding (libx264) with auto-detected output format"
     finalArgs;
   mkFallbackMethod "Software encoding (libx264) with MP4 format fallback"
     (addMP4Fallback baseArgs ++ ["-movflags"; "+faststart"; "-y"; OutputPath config]);
   mkFallbackMethod "Basic software encoding (minimal options)"
     ["-i"; InputPath config;
      "-c:v"; "libx264";
      "-preset"; "ultrafast";
      "-crf"; formatInt (Quality config);
      "-c:a"; "copy";
      "-y"; OutputPath config]].

End FallbackManager.

(* ===================================================================== *)
(** ** The machine: programs, files and the terminal *)
(* ===================================================================== *)

(** What the processor asks of the machine.  Console output is not part of
    the model. *)
Inductive Event : Type :=
| EvDetect (calls : list Call)                     (* DetectGPUs and its calls *)
| EvLookPath (file : string)                       (* exec.LookPath *)
| EvStat (path : string)                           (* os.Stat *)
| EvRun (name : string) (args : list string)       (* cmd.Run *)
| EvOutput (name : string) (args : list string)    (* cmd.Output *)
| EvStart (name : string) (args : list string)     (* cmd.Start *)
| EvWait (name : string)                           (* cmd.Wait *)
| EvReadString (reader : string).                  (* reader.ReadString('\n') *)

(** The answers of the machine.  Each may depend on all that happened
    before, so that the same command can fail once and succeed later, and
    successive reads return successive lines. *)
Record Machine : Type := mkMachine {
  gpuHost : World;
  lookPath : list Event -> string -> option error;
  stat : list Event -> string -> option error;
  runCmd : list Event -> string -> list string -> option error;
  outputCmd : list Event -> string -> list string -> string * option error;
  startCmd : list Event -> string -> list string -> option error;
  waitCmd : list Event -> string -> option error;
  readString : list Event -> string -> string * option error
}.

Definition Action (A : Type) : Type := Machine -> list Event -> A * list Event.

Definition aret {A} (a : A) : Action A := fun _ tr => (a, tr).

Definition abind {A B} (m : Action A) (k : A -> Action B) : Action B :=
  fun mc tr => let '(a, tr') := m mc tr in k a mc tr'.

Notation "'do*' p ':=' m 'in' k" := (abind m (fun p => k))
  (at level 10, p pattern, m at level 100, k at level 200).

Definition perform {A} (m : Action A) (mc : Machine) : A * list Event := m mc [].
Definition outcome {A} (m : Action A) (mc : Machine) : A := fst (perform m mc).
Definition events {A} (m : Action A) (mc : Machine) : list Event := snd (perform m mc).

Definition execLookPath (file : string) : Action (option error) :=
  fun mc tr => (lookPath mc tr file, tr ++ [EvLookPath file]).
Definition osStat (path : string) : Action (option error) :=
  fun mc tr => (stat mc tr path, tr ++ [EvStat path]).
Definition cmdRun (name : string) (args : list string) : Action (option error) :=
  fun mc tr => (runCmd mc tr name args, tr ++ [EvRun name args]).
Definition cmdOutput (name : string) (args : list string)
  : Action (string * option error) :=
  fun mc tr => (outputCmd mc tr name args, tr ++ [EvOutput name args]).
Definition cmdStart (name : string) (args : list string) : Action (option error) :=
  fun mc tr => (startCmd mc tr name args, tr ++ [EvStart name args]).
Definition cmdWait (name : string) : Action (option error) :=
  fun mc tr => (waitCmd mc tr name, tr ++ [EvWait name]).
Definition readerReadString (reader : string) : Action (string * option error) :=
  fun mc tr => (readString mc tr reader, tr ++ [EvReadString reader]).

(* ===================================================================== *)
(** ** internal/encoder: running the fallbacks *)
(* ===================================================================== *)

Definition allFallbacksFailed : error := "❌ All fallback encoding methods failed".

(** The loop of [TryFallbacks]. *)
Fixpoint tryFallbackList (fallbacks : list FallbackMethod) : Action (option error) :=
  match fallbacks with
  | [] => aret (Some allFallbacksFailed)
  | fallback :: rest =>
      do* err := cmdRun "ffmpeg" (Args fallback) in
      match err with
      | Some _ => tryFallbackList rest
      | None => aret None
      end
  end.

Definition TryFallbacks (goos : string) (config : ProcessingConfig)
  : Action (option error) :=
  let fallbacks := FallbackManager.getFallbackMethods goos config in
  tryFallbackList fallbacks.

(* ===================================================================== *)
(** ** internal/validator *)
(* ===================================================================== *)

Module Validator.

Definition renderNodes : list string := ["/dev/dri/renderD128"; "/dev/dri/renderD129"].

(** The loop over the render nodes, left at the first one that exists. *)
Fixpoint findRenderNode (nodes : list string) : Action bool :=
  match nodes with
  | [] => aret false
  | node :: rest =>
      do* err := osStat node in
      match err with
      | None => aret true
      | Some _ => findRenderNode rest
      end
  end.

Definition validateVAAPISetup : Action (option error) :=
  do* foundNode := findRenderNode renderNodes in
  do* err := execLookPath "vainfo" in
  match err with
  | None =>
      do* r := cmdOutput "vainfo" ["-a"] in
      aret None
  | Some _ => aret None
  end.

Definition ffmpegMissing : error := "ffmpeg not found in PATH. Please install FFmpeg".

Definition ValidateSetup (config : ProcessingConfig) : Action (option error) :=
  do* err := execLookPath "ffmpeg" in
  match err with
  | Some _ => aret (Some ffmpegMissing)
  | None =>
      if String.eqb (Acceleration config) "vaapi" then validateVAAPISetup
      else aret None
  end.

End Validator.

(* ===================================================================== *)
(** ** internal/player *)
(* ===================================================================== *)

Module Player.

Definition players (videoPath : string) : list (string * list string * string) :=
  [("ffplay", ["-autoexit"; "-window_title"; "Processed Video"; videoPath], "FFplay");
   ("vlc", ["--intf"; "dummy"; "--play-and-exit"; videoPath], "VLC");
   ("mpv", ["--really-quiet"; videoPath], "MPV")].

Definition noPlayer : error := "no video player available".

(** The loop of [PlayVideo]: the first player that is installed and starts
    is waited for, and its exit status is only reported. *)
Fixpoint tryPlayers (ps : list (string * list string * string)) : Action (option error) :=
  match ps with
  | [] => aret (Some noPlayer)
  | (cmd, args, name) :: rest =>
      do* err := execLookPath cmd in
      match err with
      | None =>
          do* err := cmdStart cmd args in
          match err with
          | Some _ => tryPlayers rest
          | None =>
              do* err := cmdWait cmd in
              aret None
          end
      | Some _ => tryPlayers rest
      end
  end.

Definition PlayVideo (videoPath : string) : Action (option error) :=
  tryPlayers (players videoPath).

Definition OfferPlayback (outputPath : string) : Action (option error) :=
  do* (choice, _) := readerReadString "player" in
  let choice := TrimSpace (ToLower choice) in
  if String.eqb choice "y" || String.eqb choice "yes" then PlayVideo outputPath
  else aret None.

End Player.

(* ===================================================================== *)
(** ** internal/processor *)
(* ===================================================================== *)

(** The token of [fmt]'s [%d] verb after the optional sign: the leading
    decimal digits; what follows is left unread. *)
Fixpoint numberToken (s : string) : string :=
  match s with
  | EmptyString => EmptyString
  | String c s' =>
      if ((48 <=? byte c) && (byte c <=? 57))%N
      then String c (numberToken s') else EmptyString
  end.

(** [fmt.Sscanf s "%d" &n] on a text that starts with no white space;
    [None] is a non-nil error. *)
Definition sscanInt (s : string) : option Z :=
  match s with
  | EmptyString => None
  | String c s' =>
      let signed := Ascii.eqb c "+" || Ascii.eqb c "-" in
      let tok := numberToken (if signed then s' else s) in
      if isEmpty tok then None
      else ParseInt (if signed then String c tok else tok)
  end.

Module Processor.

Definition detectAndDisplayGPUs : Action (list GPUInfo * option error) :=
  fun mc tr =>
    let '((gpus, err), calls) := run (DetectGPUs NewGPUDetector) (gpuHost mc) in
    (match err with
     | Some e => ([], Some e)
     | None => (gpus, None)
     end, tr ++ [EvDetect calls]).

Definition configureProcessing (goos : string) (gpus : list GPUInfo)
  : ProcessingConfig * option error :=
  let cfg := NewDefault in
  match gpus with
  | [] => (SetSoftwareEncoding cfg, None)
  | primaryGPU :: _ =>
      if String.eqb (Vendor primaryGPU) "unknown" then (SetSoftwareEncoding cfg, None)
      else
        let '(acceleration, codec, preset) := ConfigureForGPU goos primaryGPU in
        (SetHardwareEncoding cfg acceleration codec preset, None)
  end.

Definition noInput : error := "no input provided".

(** The configuration is updated in place: the result is the configuration
    as the call leaves it, also when it returns an error. *)
Definition getUserInput (cfg : ProcessingConfig)
  : Action (ProcessingConfig * option error) :=
  do* (input, err) := readerReadString "processor" in
  match err with
  | Some e => aret (cfg, Some e)
  | None =>
      let cfg := setInputPath cfg (TrimSpace input) in
      if String.eqb (InputPath cfg) "" then aret (cfg, Some noInput)
      else
        do* (output, _) := readerReadString "processor" in
        let output := TrimSpace output in
        let cfg := if negb (String.eqb output "") then setOutputPath cfg output else cfg in
        do* (qualityStr, _) := readerReadString "processor" in
        let qualityStr := TrimSpace qualityStr in
        let cfg :=
          if negb (String.eqb qualityStr "") then
            match sscanInt qualityStr with
            | Some quality =>
                if (0 <=? quality) && (quality <=? 51) then setQuality cfg quality
                else cfg
            | None => cfg
            end
          else cfg in
        aret (cfg, None)
  end.

Definition processVideo (goos : string) (cfg : ProcessingConfig)
  : Action (option error) :=
  let args := CommandBuilder.BuildFFmpegCommand goos cfg in
  do* err := cmdRun "ffmpeg" args in
  match err with
  | Some _ =>
      do* fallbackErr := TryFallbacks goos cfg in
      match fallbackErr with
      | Some e => aret (Some ("all encoding methods failed: " +:+ e))
      | None =>
          do* info := osStat (OutputPath cfg) in
          aret None
      end
  | None =>
      do* info := osStat (OutputPath cfg) in
      aret None
  end.

Definition Run : Action (option error) :=
  fun mc =>
    let goos := GOOS (gpuHost mc) in
    (do* (gpus, err) := detectAndDisplayGPUs in
     match err with
     | Some e => aret (Some ("GPU detection failed: " +:+ e))
     | None =>
         let '(config, err) := configureProcessing goos gpus in
         match err with
         | Some e => aret (Some ("configuration failed: " +:+ e))
         | None =>
             do* warn := Validator.ValidateSetup config in
             do* (config, err) := getUserInput config in
             match err with
             | Some e => aret (Some ("input failed: " +:+ e))
             | None =>
                 do* err := processVideo goos config in
                 match err with
                 | Some e => aret (Some ("video processing failed: " +:+ e))
                 | None => Player.OfferPlayback (OutputPath config)
                 end
             end
         end
     end) mc.

End Processor.

(* ===================================================================== *)
(** ** Vocabulary for the encoder and the processor *)
(* ===================================================================== *)

(** The rows of the encoder table: acceleration, codec, preset. *)
Definition encoderRows : list (string * string * string) :=
  [("cuda", "h264_nvenc", "medium");
   ("qsv", "h264_qsv", "medium");
   ("vaapi", "h264_vaapi", "ultrafast");
   ("videotoolbox", "h264_videotoolbox", "balanced");
   ("d3d11va", "h264_amf", "balanced");
   ("none", "libx264", "medium")].

(** The vendors with a hardware encoder. *)
Definition hardwareVendors : list string := ["nvidia"; "intel"; "amd"; "apple"].

(** [b] comes right after [a] somewhere in [l]. *)
Definition followedBy (a b : string) (l : list string) : Prop :=
  exists p q, l = p ++ a :: b :: q.

(** The container formats the builders can ask for. *)
Definition outputFormats : list string :=
  ["mp4"; "matroska"; "avi"; "mov"; "webm"; "flv"; "mpegts"; "hls"; "rtsp"; "dash"].

Definition hlsOptions : list string := ["-hls_time"; "10"; "-hls_list_size"; "0"].

(** What the fallback manager adds for an RTSP output and the command
    builder does not. *)
Definition rtspPublishing : list string :=
  ["-rtsp_transport"; "tcp"; "-muxdelay"; "0.1"; "-bufsize"; "64k";
   "-maxrate"; "2000k"; "-rtsp_flags"; "listen"; "-timeout"; "5000000";
   "-stimeout"; "5000000"].

(** The output is an RTSP or RTSPS address, in any case. *)
Definition isRTSP (outputPath : string) : bool :=
  HasPrefix (ToLower outputPath) "rtsp://" || HasPrefix (ToLower outputPath) "rtsps://".

(** The configuration that [configureProcessing] builds for [gpu]. *)
Definition configFor (goos : string) (gpu : GPUInfo) : ProcessingConfig :=
  fst (Processor.configureProcessing goos [gpu]).

(** The extensions with a container format other than MP4. *)
Definition otherContainers : list string :=
  [".mkv"; ".avi"; ".mov"; ".webm"; ".flv"; ".ts"; ".m3u8"].

(** The low-latency options that [BuildFFmpegCommand] puts between the
    format and the output. *)
Definition streamingTail : list string :=
  ["-movflags"; "+faststart"; "-bf"; "0"; "-fflags"; "nobuffer";
   "-flags"; "low_delay"; "-fflags"; "+discardcorrupt";
   "-analyzeduration"; "0"; "-probesize"; "32"; "-tune"; "zerolatency"].

(** The three argument lists of the fallbacks. *)
Definition fallbackArgs (goos : string) (config : ProcessingConfig) : list (list string) :=
  map Args (FallbackManager.getFallbackMethods goos config).

(** A software command line: input first, libx264, the quality after
    [-crf], the audio copied, [-y] and the output last. *)
Definition softwareCommand (config : ProcessingConfig) (args : list string) : Prop :=
  (exists mid,
      args = "-i" :: InputPath config :: "-c:v" :: "libx264"
             :: mid ++ ["-y"; OutputPath config])
  /\ followedBy "-crf" (formatInt (Quality config)) args
  /\ followedBy "-c:a" "copy" args.

(** The error of [processVideo] when nothing worked. *)
Definition allEncodingFailed : error :=
  "all encoding methods failed: " +:+ allFallbacksFailed.

(** The [i]-th fallback command line. *)
Definition fallbackCommand (goos : string) (config : ProcessingConfig) (i : nat)
  : list string :=
  nth i (fallbackArgs goos config) [].

(** The four command lines that [processVideo] can run: the primary one and
    the three fallbacks. *)
Definition commandLines (goos : string) (cfg : ProcessingConfig) : list (list string) :=
  CommandBuilder.BuildFFmpegCommand goos cfg
  :: map (fallbackCommand goos cfg) [0; 1; 2]%nat.

(** A configuration that [processVideo] can be given: a row of the encoder
    table, a quality between 0 and 51, and both paths set. *)
Definition complete (cfg : ProcessingConfig) : Prop :=
  (Acceleration cfg, Codec cfg, Preset cfg) ∈ encoderRows
  /\ 0 <= Quality cfg <= 51
  /\ InputPath cfg <> "" /\ OutputPath cfg <> "".

(** The run of ffmpeg on [args]. *)
Definition ffmpeg (args : list string) : Event := EvRun "ffmpeg" args.

(** A machine on which ffmpeg fails on every command line with a hardware
    option and works otherwise; every program is installed, every file
    exists, and the user answers with empty lines. *)
Definition softwareOnlyMachine : Machine :=
  mkMachine (deadHost "linux")
    (fun _ _ => None)
    (fun _ _ => None)
    (fun _ name args =>
       if existsb (fun a => HasPrefix a "-hwaccel" || HasPrefix a "-init_hw_device") args
       then Some "exit status 1" else None)
    (fun _ _ _ => ("", None))
    (fun _ _ _ => None)
    (fun _ _ => None)
    (fun _ _ => (String nl "", None)).

(** The same machine with a user who names an input and accepts the
    defaults, and declines playback. *)
Definition answeringMachine : Machine :=
  mkMachine (gpuHost softwareOnlyMachine)
    (lookPath softwareOnlyMachine) (stat softwareOnlyMachine)
    (runCmd softwareOnlyMachine) (outputCmd softwareOnlyMachine)
    (startCmd softwareOnlyMachine) (waitCmd softwareOnlyMachine)
    (fun tr reader =>
       if existsb (fun ev => match ev with EvReadString _ => true | _ => false end) tr
       then (String nl "", None)
       else ("in.mp4" +:+ String nl "", None)).

(** The events that only look at the machine: a lookup, a file status, the
    output of [vainfo]. *)
Definition inspection (ev : Event) : Prop :=
  match ev with
  | EvLookPath _ | EvStat _ => True
  | EvOutput name _ => name = "vainfo"
  | _ => False
  end.

(** The event is the run of a program by [cmd.Run]. *)
Definition isRun (ev : Event) : bool :=
  match ev with EvRun _ _ => true | _ => false end.

(** The event is a read from a terminal reader. *)
Definition isRead (ev : Event) : bool :=
  match ev with EvReadString _ => true | _ => false end.

(** The event is the end of a player. *)
Definition isWait (ev : Event) : bool :=
  match ev with EvWait _ => true | _ => false end.

(** The player commands. *)
Definition playerCommands : list string := ["ffplay"; "vlc"; "mpv"].

(** What the workflow may execute besides the detection probes: ffmpeg
    through [cmd.Run], [vainfo] through [cmd.Output], and one of the players
    with its arguments through [cmd.Start]. *)
Definition launch (ev : Event) : Prop :=
  match ev with
  | EvRun name _ => name = "ffmpeg"
  | EvOutput name _ => name = "vainfo"
  | EvStart cmd args => exists path name, (cmd, args, name) ∈ Player.players path
  | _ => True
  end.

(* ===================================================================== *)
(** ** The parsers on sample outputs *)
(* ===================================================================== *)

(** Two blocks separated by a blank line give two records; white space
    around keys and values is dropped and the byte count is formatted. *)
Example parseWindowsGPUOutput_two_blocks :
  map (fun g => (Vendor g, Model g, Memory g, DriverVersion g))
      (parseWindowsGPUOutput
         (unlines ["Name          : NVIDIA GeForce RTX 3080";
                   "DriverVersion : 31.0.15.3623";
                   "AdapterRAM    : 4293918720";
                   "";
                   "Name          : Intel(R) UHD Graphics 630";
                   "AdapterRAM    : 1073741824"]))
  = [("nvidia", "NVIDIA GeForce RTX 3080", "4.0 GB", "31.0.15.3623");
     ("intel", "Intel(R) UHD Graphics 630", "1.0 GB", "")].
Proof. vm_compute. reflexivity. Qed.

(** Output with braces goes to the JSON parser, one record per object. *)
Example parseWindowsGPUOutput_json :
  map (fun g => (Vendor g, Model g, Memory g))
      (parseWindowsGPUOutput
         ("[{" +:+ String dquote "Name" +:+ String dquote ":  "
          +:+ String dquote "AMD Radeon RX 6800" +:+ String dquote ","
          +:+ String dquote "AdapterRAM" +:+ String dquote ": 2097152},{"
          +:+ String dquote "Name" +:+ String dquote ": "
          +:+ String dquote "VMware SVGA II" +:+ String dquote "}]"))
  = [("amd", "AMD Radeon RX 6800", "2 MB")].
Proof. vm_compute. reflexivity. Qed.

(** The bus listing: one record per matching line; the address is looked
    for on the line before the one that holds the model.  The word
    "Corporation" contains the AMD pattern "ati", and the AMD group is
    tested before the Intel group. *)
Example parseLinuxLspciOutput_lines :
  map (fun g => (Vendor g, Model g, PCIAddress g))
      (parseLinuxLspciOutput
         (unlines ["00:02.0 Host bridge";
                   "VGA compatible controller: Intel Corporation UHD Graphics 620";
                   "01:00.0 3D controller: NVIDIA Corporation GP108M [GeForce MX150]"]))
  = [("amd", "Intel Corporation UHD Graphics 620", "00:02.0");
     ("nvidia", "NVIDIA Corporation GP108M [GeForce MX150]", "")].
Proof. vm_compute. reflexivity. Qed.

Example parseLinuxGLXOutput_renderer :
  map (fun g => (Vendor g, Model g))
      (parseLinuxGLXOutput
         (unlines ["OpenGL vendor string: Intel";
                   "OpenGL renderer string: Mesa Intel(R) UHD Graphics 620 (KBL GT2)"]))
  = [("intel", "Mesa Intel(R) UHD Graphics 620 (KBL GT2)")].
Proof. vm_compute. reflexivity. Qed.

Example extractNvidiaVersionFromProc_sample :
  extractNvidiaVersionFromProc
    "NVRM version: NVIDIA UNIX x86_64 Kernel Module  535.104.05  Sat Aug 19"
  = "535.104.05".
Proof. vm_compute. reflexivity. Qed.

(** All four Linux probes answer; the records of the later probes that are
    similar to an earlier one only fill its empty fields. *)
Example detectLinuxGPUs_merges :
  let w := mkWorld "linux"
             (fun _ name _ =>
                if String.eqb name "lspci"
                then (unlines ["01:00.0 VGA compatible controller: NVIDIA GeForce RTX 3080"],
                      None)
                else if String.eqb name "lshw"
                then (unlines ["  *-display";
                               "       product: GeForce RTX 3080";
                               "       vendor: NVIDIA Corporation";
                               "       size: 10737418240 bytes"], None)
                else ("", Some "exit status 1"))
             (fun _ => ("NVRM version: NVIDIA UNIX x86_64 Kernel Module  535.104.05",
                        None)) in
  map (fun g => (Vendor g, Model g, Memory g, DriverVersion g))
      (fst (result (DetectGPUs NewGPUDetector) w))
  = [("nvidia", "NVIDIA GeForce RTX 3080", "10.0 GB", "");
     ("nvidia", "NVIDIA GPU", "", "535.104.05")].
Proof. vm_compute. reflexivity. Qed.

(* ===================================================================== *)
(** ** Properties of the library functions *)
(* ===================================================================== *)

Section StringFacts.

Lemma isEmpty_true (s : string) : isEmpty s = true <-> s = "".
Proof. destruct s; simpl; split; congruence. Qed.

Lemma isEmpty_false (s : string) : isEmpty s = false <-> s <> "".
Proof. destruct s; simpl; split; congruence. Qed.

Lemma lowerByte_idemp (c : ascii) : lowerByte (lowerByte c) = lowerByte c.
Proof. destruct c as [[] [] [] [] [] [] [] []]; reflexivity. Qed.

Lemma ToLower_idemp (s : string) : ToLower (ToLower s) = ToLower s.
Proof.
  induction s as [|c s IH]; simpl; [reflexivity|].
  now rewrite lowerByte_idemp, IH.
Qed.

Lemma ToLower_empty (s : string) : ToLower s = "" <-> s = "".
Proof. destruct s; simpl; split; congruence. Qed.

Lemma Contains_empty (s : string) : Contains s "" = true.
Proof. destruct s; reflexivity. Qed.

End StringFacts.

(** A loop that only ever appends to its accumulator keeps every property
    that each appended element has. *)
Lemma fold_left_Forall {A B : Type} (P : B -> Prop) (step : list B -> A -> list B)
      (xs : list A) :
  (forall acc x, x ∈ xs -> Forall P acc -> Forall P (step acc x)) ->
  forall acc, Forall P acc -> Forall P (fold_left step xs acc).
Proof.
  induction xs as [|x xs IH]; intros Hstep acc Hacc; simpl; [exact Hacc|].
  apply IH.
  - intros acc' y Hy. apply Hstep. now apply list_elem_of_further.
  - apply Hstep; [apply list_elem_of_here | exact Hacc].
Qed.

(** A loop over the lines of a block keeps an invariant of the record. *)
Lemma fold_left_invariant {A B : Type} (P : B -> Prop) (step : B -> A -> B)
      (xs : list A) :
  (forall b x, x ∈ xs -> P b -> P (step b x)) ->
  forall b, P b -> P (fold_left step xs b).
Proof.
  induction xs as [|x xs IH]; intros Hstep b Hb; simpl; [exact Hb|].
  apply IH.
  - intros b' y Hy. apply Hstep. now apply list_elem_of_further.
  - apply Hstep; [apply list_elem_of_here | exact Hb].
Qed.

Lemma Forall_snoc {A : Type} (P : A -> Prop) (l : list A) (x : A) :
  Forall P l -> P x -> Forall P (l ++ [x]).
Proof. intros Hl Hx. apply Forall_app; split; [exact Hl | now constructor]. Qed.

(* ===================================================================== *)
(** ** More on strings: prefixes, containment, lines *)
(* ===================================================================== *)

Lemma append_nil_l (s : string) : "" +:+ s = s.
Proof. reflexivity. Qed.

Lemma append_cons (c : ascii) (a b : string) : String c a +:+ b = String c (a +:+ b).
Proof. reflexivity. Qed.

Lemma append_nil_r (s : string) : s +:+ "" = s.
Proof.
  induction s as [|c s IH]; [reflexivity|]. now rewrite append_cons, IH.
Qed.

Lemma append_assoc (a b c : string) : (a +:+ b) +:+ c = a +:+ (b +:+ c).
Proof.
  induction a as [|x a IH]; [reflexivity|]. now rewrite !append_cons, IH.
Qed.

Lemma HasPrefix_spec (s p : string) :
  HasPrefix s p = true <-> exists q, s = p +:+ q.
Proof.
  revert s. induction p as [|a p IH]; intros s.
  - split; [intros _; now exists s | intros _; now destruct s].
  - destruct s as [|b s]; [split; [discriminate | intros (q & Hq); discriminate]|].
    simpl. destruct (Ascii.eqb a b) eqn:E.
    + apply Ascii.eqb_eq in E. subst b. rewrite IH.
      split; intros (q & Hq); exists q.
      * now rewrite append_cons, Hq.
      * rewrite append_cons in Hq. now injection Hq.
    + apply Ascii.eqb_neq in E.
      split; [discriminate|].
      intros (q & Hq). rewrite append_cons in Hq. injection Hq as Hb _. congruence.
Qed.

Lemma Contains_nil (sub : string) : Contains "" sub = HasPrefix "" sub.
Proof. simpl. apply orb_false_r. Qed.

Lemma Contains_cons (c : ascii) (s sub : string) :
  Contains (String c s) sub = HasPrefix (String c s) sub || Contains s sub.
Proof. reflexivity. Qed.

Lemma Contains_spec (s sub : string) :
  Contains s sub = true <-> exists p q, s = p +:+ sub +:+ q.
Proof.
  induction s as [|c s IH].
  - rewrite Contains_nil, HasPrefix_spec. split.
    + intros (q & Hq). now exists "", q.
    + intros (p & q & H). destruct p; [now exists q | discriminate].
  - rewrite Contains_cons, orb_true_iff, HasPrefix_spec, IH. split.
    + intros [(q & Hq)|(p & q & Hpq)].
      * now exists "", q.
      * exists (String c p), q. now rewrite append_cons, Hpq.
    + intros (p & q & H). destruct p as [|x p].
      * left. now exists q.
      * right. rewrite append_cons in H. injection H as _ H. now exists p, q.
Qed.

Lemma Contains_refl (s : string) : Contains s s = true.
Proof. apply Contains_spec. exists "", "". now rewrite append_nil_r. Qed.

Lemma Contains_trans (s a b : string) :
  Contains s a = true -> Contains a b = true -> Contains s b = true.
Proof.
  rewrite !Contains_spec. intros (p & q & ->) (p' & q' & ->).
  exists (p +:+ p'), (q' +:+ q). now rewrite !append_assoc.
Qed.

Lemma ToLower_append (a b : string) : ToLower (a +:+ b) = ToLower a +:+ ToLower b.
Proof.
  induction a as [|c a IH]; [reflexivity|].
  rewrite append_cons. simpl. now rewrite IH, append_cons.
Qed.

Lemma Contains_ToLower (s sub : string) :
  Contains s sub = true -> Contains (ToLower s) (ToLower sub) = true.
Proof.
  rewrite !Contains_spec. intros (p & q & ->).
  exists (ToLower p), (ToLower q). now rewrite !ToLower_append.
Qed.

Lemma hasByte_append (c : ascii) (a b : string) :
  hasByte c (a +:+ b) = hasByte c a || hasByte c b.
Proof.
  induction a as [|x a IH]; [reflexivity|].
  rewrite append_cons. simpl. now rewrite IH, orb_assoc.
Qed.

(** *** [strings.TrimSpace] keeps a piece of the text *)

Lemma trimLeft_bounded (n : nat) (s : string) :
  (String.length s <= n)%nat -> exists p, s = p +:+ trimLeft s.
Proof.
  revert s. induction n as [|n IH]; intros s Hn.
  { destruct s; [now exists "" | simpl in Hn; lia]. }
  destruct s as [|a s1]; [now exists ""|]. simpl in Hn.
  assert (Hkeep : exists p, String a s1 = p +:+ String a s1) by now exists "".
  simpl trimLeft.
  destruct (isSpace a).
  { destruct (IH s1 ltac:(lia)) as (p & Hp). exists (String a p).
    now rewrite append_cons, <- Hp. }
  destruct s1 as [|b s2]; [exact Hkeep|]. simpl in Hn.
  destruct (isSpace2 a b).
  { destruct (IH s2 ltac:(lia)) as (p & Hp). exists (String a (String b p)).
    now rewrite !append_cons, <- Hp. }
  destruct s2 as [|c s3]; [exact Hkeep|]. simpl in Hn.
  destruct (isSpace3 a b c); [|exact Hkeep].
  destruct (IH s3 ltac:(lia)) as (p & Hp). exists (String a (String b (String c p))).
  now rewrite !append_cons, <- Hp.
Qed.

Lemma trimLeft_suffix (s : string) : exists p, s = p +:+ trimLeft s.
Proof. now apply (trimLeft_bounded (String.length s)). Qed.

Lemma trimRev_bounded (n : nat) (r : list ascii) :
  (length r <= n)%nat -> exists q, r = q ++ trimRev r.
Proof.
  revert r. induction n as [|n IH]; intros r Hn.
  { destruct r; [now exists [] | simpl in Hn; lia]. }
  destruct r as [|c r1]; [now exists []|]. simpl in Hn.
  assert (Hkeep : exists q, c :: r1 = q ++ c :: r1) by now exists [].
  simpl trimRev.
  destruct (isSpace c).
  { destruct (IH r1 ltac:(lia)) as (q & Hq). exists (c :: q).
    simpl. now rewrite <- Hq. }
  destruct r1 as [|b r2]; [exact Hkeep|]. simpl in Hn.
  destruct (isSpace2 b c).
  { destruct (IH r2 ltac:(lia)) as (q & Hq). exists (c :: b :: q).
    simpl. now rewrite <- Hq. }
  destruct r2 as [|a r3]; [exact Hkeep|]. simpl in Hn.
  destruct (isSpace3 a b c); [|exact Hkeep].
  destruct (IH r3 ltac:(lia)) as (q & Hq). exists (c :: b :: a :: q).
  simpl. now rewrite <- Hq.
Qed.

Lemma string_of_list_ascii_app (a b : list ascii) :
  string_of_list_ascii (a ++ b) = string_of_list_ascii a +:+ string_of_list_ascii b.
Proof.
  induction a as [|x a IH]; [reflexivity|].
  simpl. now rewrite append_cons, IH.
Qed.

Lemma trimRight_prefix (s : string) : exists q, s = trimRight s +:+ q.
Proof.
  unfold trimRight.
  destruct (trimRev_bounded (length (rev (list_ascii_of_string s)))
              (rev (list_ascii_of_string s)) (le_n _)) as (q & Hq).
  exists (string_of_list_ascii (rev q)).
  rewrite <- string_of_list_ascii_app, <- rev_app_distr, <- Hq, rev_involutive.
  symmetry. apply string_of_list_ascii_of_string.
Qed.

Lemma TrimSpace_within (s : string) : exists p q, s = p +:+ TrimSpace s +:+ q.
Proof.
  unfold TrimSpace.
  destruct (trimLeft_suffix s) as (p & Hp).
  destruct (trimRight_prefix (trimLeft s)) as (q & Hq).
  exists p, q. now rewrite <- Hq.
Qed.

(** *** [strings.Split] on line feeds *)

Lemma HasPrefix_nil (s : string) : HasPrefix s "" = true.
Proof. now destruct s. Qed.

Lemma HasPrefix_byte (c x : ascii) (s : string) :
  HasPrefix (String c s) (String x "") = Ascii.eqb x c.
Proof. simpl. rewrite HasPrefix_nil. now destruct (Ascii.eqb x c). Qed.

Lemma splitFrom_cons (sep : string) (c : ascii) (s : string) :
  splitFrom sep 0 (String c s)
  = if HasPrefix (String c s) sep
    then let '(h, t) := splitFrom sep (String.length sep - 1) s in ("", h :: t)
    else let '(h, t) := splitFrom sep 0 s in (String c h, t).
Proof. reflexivity. Qed.

Lemma Split_nl_cons_nl (s : string) :
  linesOf (String nl s) = "" :: linesOf s.
Proof.
  unfold linesOf, Split. rewrite splitFrom_cons, HasPrefix_byte.
  change (Ascii.eqb nl nl) with true. cbv iota.
  change (String.length (String nl "") - 1)%nat with 0%nat.
  destruct (splitFrom (String nl "") 0 s) as [h t]. reflexivity.
Qed.

Lemma Split_nl_cons_other (c : ascii) (s : string) :
  c <> nl ->
  linesOf (String c s)
  = match linesOf s with
    | h :: t => String c h :: t
    | [] => [String c ""]
    end.
Proof.
  intros Hc. unfold linesOf, Split. rewrite splitFrom_cons, HasPrefix_byte.
  assert (E : Ascii.eqb nl c = false) by (apply Ascii.eqb_neq; congruence).
  rewrite E. destruct (splitFrom (String nl "") 0 s) as [h t]. reflexivity.
Qed.

Lemma linesOf_nonempty (s : string) : linesOf s <> [].
Proof. unfold linesOf, Split. destruct (splitFrom _ _ _). discriminate. Qed.

Lemma linesOf_no_nl (s : string) : hasByte nl s = false -> linesOf s = [s].
Proof.
  induction s as [|c s IH]; simpl; intros H; [reflexivity|].
  apply orb_false_iff in H as [Hc Hs]. apply Ascii.eqb_neq in Hc.
  rewrite Split_nl_cons_other by exact Hc. now rewrite (IH Hs).
Qed.

Lemma linesOf_pieces_no_nl (s : string) :
  Forall (fun l => hasByte nl l = false) (linesOf s).
Proof.
  induction s as [|c s IH]; [repeat constructor|].
  destruct (Ascii.eqb c nl) eqn:E.
  - apply Ascii.eqb_eq in E. subst c. rewrite Split_nl_cons_nl.
    constructor; [reflexivity | exact IH].
  - assert (Hc : c <> nl) by now apply Ascii.eqb_neq.
    rewrite Split_nl_cons_other by exact Hc.
    destruct (linesOf s) as [|h t]; [repeat constructor; simpl; now rewrite E|].
    inversion IH; subst. constructor; [|assumption]. simpl. now rewrite E.
Qed.

Lemma linesOf_hasByte (c : ascii) (s : string) :
  hasByte c s = false -> Forall (fun l => hasByte c l = false) (linesOf s).
Proof.
  induction s as [|x s IH]; intros H; [repeat constructor|].
  simpl in H. apply orb_false_iff in H as [Hx Hs]. specialize (IH Hs).
  destruct (Ascii.eqb x nl) eqn:E.
  - apply Ascii.eqb_eq in E. subst x. rewrite Split_nl_cons_nl.
    constructor; [reflexivity | exact IH].
  - assert (Hc : x <> nl) by now apply Ascii.eqb_neq.
    rewrite Split_nl_cons_other by exact Hc.
    destruct (linesOf s) as [|h t]; [repeat constructor; simpl; now rewrite Hx|].
    inversion IH; subst. constructor; [|assumption]. simpl. now rewrite Hx.
Qed.

Lemma linesOf_append_nl (a b : string) :
  linesOf (a +:+ String nl b) = linesOf a ++ linesOf b.
Proof.
  induction a as [|c a IH]; [now rewrite append_nil_l, Split_nl_cons_nl|].
  rewrite append_cons.
  - destruct (Ascii.eqb c nl) eqn:E.
    + apply Ascii.eqb_eq in E. subst c. now rewrite !Split_nl_cons_nl, IH.
    + assert (Hc : c <> nl) by now apply Ascii.eqb_neq.
      rewrite !Split_nl_cons_other by exact Hc. rewrite IH.
      pose proof (linesOf_nonempty a) as Ha.
      destruct (linesOf a) as [|h t]; [contradiction | reflexivity].
Qed.

(* ===================================================================== *)
(** ** Block splitting *)
(* ===================================================================== *)

Lemma nonBlank_nonempty (line : string) : nonBlank line = true -> line <> "".
Proof. intros H ->. discriminate H. Qed.

Lemma append_nonempty_r (a b : string) : b <> "" -> a +:+ b <> "".
Proof.
  intros Hb H. destruct a as [|c a]; [now rewrite append_nil_l in H|].
  rewrite append_cons in H. discriminate.
Qed.

Lemma blockStep_lines (st : list string * string) (line : string) :
  hasByte nl line = false ->
  blockLines (blockStep st line)
  = blockLines st ++ (if nonBlank line then [line] else []).
Proof.
  intros Hnl. destruct st as [blocks cur]. unfold blockStep, blockLines, nonBlank.
  cbn [fst snd].
  destruct (isEmpty (TrimSpace line)) eqn:Hblank; simpl negb.
  - destruct (isEmpty cur) eqn:Hcur; simpl negb; cbv iota; cbn [fst snd andb].
    + now rewrite ?Hcur, !app_nil_r.
    + rewrite flat_map_app. simpl. now rewrite ?Hcur, !app_nil_r.
  - assert (Hline : line <> "")
      by (apply nonBlank_nonempty; unfold nonBlank; now rewrite Hblank).
    rewrite andb_false_l. cbv iota.
    destruct (isEmpty cur) eqn:Hcur; simpl negb; cbv iota; cbn [fst snd].
    + apply isEmpty_true in Hcur. subst cur. rewrite append_nil_l.
      apply isEmpty_false in Hline. rewrite Hline.
      now rewrite (linesOf_no_nl line Hnl), app_nil_r.
    + rewrite append_assoc, append_cons, append_nil_l.
      assert (Hne : isEmpty (cur +:+ String nl line) = false).
      { apply isEmpty_false. apply append_nonempty_r. discriminate. }
      rewrite Hne, linesOf_append_nl, (linesOf_no_nl line Hnl).
      now rewrite app_assoc.
Qed.

Lemma blockStep_nonempty (st : list string * string) (line : string) :
  Forall (fun b => b <> "") (fst st) ->
  Forall (fun b => b <> "") (fst (blockStep st line)).
Proof.
  destruct st as [blocks cur]. unfold blockStep. simpl. intros H.
  destruct (isEmpty (TrimSpace line)); simpl.
  - destruct (isEmpty cur) eqn:Hcur; simpl; [exact H|].
    apply Forall_snoc; [exact H | now apply isEmpty_false].
  - exact H.
Qed.

Lemma blockStep_fold (lines : list string) (st : list string * string) :
  Forall (fun l => hasByte nl l = false) lines ->
  blockLines (fold_left blockStep lines st)
  = blockLines st ++ List.filter nonBlank lines
  /\ (Forall (fun b => b <> "") (fst st) ->
      Forall (fun b => b <> "") (fst (fold_left blockStep lines st))).
Proof.
  revert st. induction lines as [|l ls IH]; intros st Hall; simpl.
  - split; [now rewrite app_nil_r | auto].
  - inversion Hall as [|? ? Hl Hls]; subst.
    destruct (IH (blockStep st l) Hls) as [IH1 IH2]. split.
    + rewrite IH1, (blockStep_lines st l Hl), <- app_assoc.
      now destruct (nonBlank l).
    + intros H. apply IH2. now apply blockStep_nonempty.
Qed.

Lemma splitIntoBlocks_flat (output : string) :
  flat_map linesOf (splitIntoBlocks output) = List.filter nonBlank (linesOf output)
  /\ Forall (fun b => b <> "") (splitIntoBlocks output).
Proof.
  unfold splitIntoBlocks. fold (linesOf output).
  destruct (blockStep_fold (linesOf output) ([], "") (linesOf_pieces_no_nl output))
    as [H1 H2].
  specialize (H2 (List.Forall_nil _)).
  destruct (fold_left blockStep (linesOf output) ([], "")) as [blocks cur].
  unfold blockLines in H1. simpl in H1, H2.
  destruct (isEmpty cur) eqn:Hcur; simpl negb; cbv iota.
  - rewrite app_nil_r in H1. auto.
  - split.
    + rewrite flat_map_app. simpl. now rewrite app_nil_r.
    + apply Forall_snoc; [exact H2 | now apply isEmpty_false].
Qed.

Lemma splitIntoBlocks_line (output b l : string) :
  b ∈ splitIntoBlocks output -> l ∈ linesOf b ->
  l ∈ linesOf output /\ nonBlank l = true.
Proof.
  intros Hb Hl. destruct (splitIntoBlocks_flat output) as [H1 _].
  assert (Hin : In l (flat_map linesOf (splitIntoBlocks output))).
  { apply in_flat_map. exists b. split; now apply list_elem_of_In. }
  rewrite H1 in Hin. apply filter_In in Hin. destruct Hin as [Hin Hnb].
  split; [now apply list_elem_of_In | exact Hnb].
Qed.

(** X1.  The blocks hold exactly the non-blank lines of the text, in order: none
    is lost and none is added.  No block is empty, and no block holds a
    blank line. *)
Theorem splitIntoBlocks_lines (output : string) :
  flat_map linesOf (splitIntoBlocks output) = List.filter nonBlank (linesOf output)
  /\ Forall (fun b => b <> "") (splitIntoBlocks output)
  /\ (forall b l, b ∈ splitIntoBlocks output -> l ∈ linesOf b -> nonBlank l = true).
Proof.
  destruct (splitIntoBlocks_flat output) as [H1 H2].
  split; [exact H1|]. split; [exact H2|].
  intros b l Hb Hl. now apply (splitIntoBlocks_line output b l).
Qed.

(* ===================================================================== *)
(** ** The generic-device filter of the parsers *)
(* ===================================================================== *)

Lemma acceptable_notGeneric (g : GPUInfo) :
  acceptable g = true -> isGenericGPU (Model g) = false /\ Model g <> "".
Proof.
  unfold acceptable. intros H. apply andb_true_iff in H as [H1 H2].
  apply negb_true_iff in H1, H2. split; [exact H2 | now apply isEmpty_false].
Qed.

Lemma parseWindowsJSONOutput_notGeneric (output : string) :
  Forall notGeneric (parseWindowsJSONOutput output).
Proof.
  unfold parseWindowsJSONOutput. apply fold_left_Forall; [|constructor].
  intros acc block _ Hacc. unfold jsonBlock.
  match goal with |- context [acceptable ?g] => destruct (acceptable g) eqn:Hok end;
    [|exact Hacc].
  apply Forall_snoc; [exact Hacc|].
  apply acceptable_notGeneric in Hok as [Hok _]. exact Hok.
Qed.

Lemma parseWindowsGPUOutput_notGeneric (output : string) :
  Forall notGeneric (parseWindowsGPUOutput output).
Proof.
  unfold parseWindowsGPUOutput.
  destruct (Contains output "{" && Contains output "}").
  - apply parseWindowsJSONOutput_notGeneric.
  - apply fold_left_Forall; [|constructor].
    intros acc block _ Hacc. unfold windowsBlock.
    match goal with |- context [acceptable ?g] => destruct (acceptable g) eqn:Hok end;
      [|exact Hacc].
    apply Forall_snoc; [exact Hacc|].
    apply acceptable_notGeneric in Hok as [Hok _]. exact Hok.
Qed.

Lemma parseLinuxLspciOutput_notGeneric (output : string) :
  Forall notGeneric (parseLinuxLspciOutput output).
Proof.
  unfold parseLinuxLspciOutput. apply fold_left_Forall; [|constructor].
  intros acc m _ Hacc. unfold lspciMatch.
  destruct (2 <? length m)%nat; [|exact Hacc].
  destruct (isGenericGPU (TrimSpace (nth 2 m ""))) eqn:Hgen; simpl; [exact Hacc|].
  apply Forall_snoc; [exact Hacc|].
  unfold notGeneric.
  destruct (isEmpty (extractPCIAddress output (TrimSpace (nth 2 m "")))); exact Hgen.
Qed.

Lemma lshwLine_fold_fields (lines : list string) (gpu : GPUInfo) :
  let gpu' := fold_left lshwLine lines gpu in
  Error gpu' = Error gpu /\ RawOutput gpu' = RawOutput gpu.
Proof.
  revert gpu. induction lines as [|l ls IH]; intros gpu; simpl; [easy|].
  destruct (IH (lshwLine gpu l)) as [-> ->].
  unfold lshwLine.
  repeat match goal with |- context [if ?b then _ else _] => destruct b end; easy.
Qed.

Lemma parseLinuxLshwOutput_notGeneric (output : string) :
  Forall notGeneric (parseLinuxLshwOutput output).
Proof.
  unfold parseLinuxLshwOutput. apply fold_left_Forall; [|constructor].
  intros acc block _ Hacc. unfold lshwBlock.
  match goal with |- context [acceptable ?g] => destruct (acceptable g) eqn:Hok end;
    [|exact Hacc].
  apply Forall_snoc; [exact Hacc|].
  apply acceptable_notGeneric in Hok as [Hok _]. unfold notGeneric.
  match goal with |- context [if ?b then _ else _] => destruct b end; exact Hok.
Qed.

Lemma parseLinuxGLXOutput_notGeneric (output : string) :
  Forall notGeneric (parseLinuxGLXOutput output).
Proof.
  unfold parseLinuxGLXOutput. apply fold_left_Forall; [|constructor].
  intros acc line _ Hacc. unfold glxLine.
  destruct (Contains line "OpenGL renderer string:"); [|exact Hacc].
  destruct (SplitN line ":" 2) as [|k [|v [|? ?]]]; try exact Hacc.
  destruct (isGenericGPU (TrimSpace v)) eqn:Hgen; simpl; [exact Hacc|].
  apply Forall_snoc; [exact Hacc | exact Hgen].
Qed.

(* ===================================================================== *)
(** ** The merge *)
(* ===================================================================== *)

Lemma backfill_fields (r n : GPUInfo) :
  Vendor (backfill r n) = Vendor r /\ Model (backfill r n) = Model r
  /\ RawOutput (backfill r n) = RawOutput r /\ Error (backfill r n) = Error r.
Proof.
  unfold backfill.
  repeat match goal with |- context [if ?b then _ else _] => destruct b end;
    simpl; easy.
Qed.

Lemma backfill_firstWins (r n : GPUInfo) :
  Memory (backfill r n) = firstWins (Memory r) (Memory n)
  /\ DriverVersion (backfill r n) = firstWins (DriverVersion r) (DriverVersion n)
  /\ PCIAddress (backfill r n) = firstWins (PCIAddress r) (PCIAddress n).
Proof.
  unfold backfill, firstWins.
  destruct r as [v m mem drv pci raw err], n as [v' m' mem' drv' pci' raw' err'].
  simpl. destruct mem, mem', drv, drv', pci, pci'; simpl; easy.
Qed.

Lemma mergeOne_Forall (P : GPUInfo -> Prop) (result : list GPUInfo) (n : GPUInfo) :
  (forall r x, P r -> P (backfill r x)) ->
  Forall P result -> P n -> Forall P (mergeOne result n).
Proof.
  intros Hback Hres Hn. unfold mergeOne.
  destruct (list_find _ result) as [[i x]|].
  - destruct (result !! i) as [r|] eqn:Hi; [|exact Hres].
    apply Forall_insert; [exact Hres|].
    apply Hback. eapply Forall_lookup_1; eassumption.
  - now apply Forall_snoc.
Qed.

Lemma mergeLinuxGPUInfo_Forall (P : GPUInfo -> Prop) (existing new : list GPUInfo) :
  (forall r x, P r -> P (backfill r x)) ->
  Forall P existing -> Forall P new -> Forall P (mergeLinuxGPUInfo existing new).
Proof.
  intros Hback. unfold mergeLinuxGPUInfo.
  revert existing. induction new as [|n new IH]; intros existing Hex Hnew; simpl.
  - exact Hex.
  - inversion Hnew; subst. apply IH; [|assumption].
    now apply mergeOne_Forall.
Qed.

Lemma mergeOne_length (result : list GPUInfo) (n : GPUInfo) :
  (length result <= length (mergeOne result n))%nat.
Proof.
  unfold mergeOne. destruct (list_find _ result) as [[i x]|].
  - destruct (result !! i); [rewrite length_insert|]; lia.
  - rewrite length_app. simpl. lia.
Qed.

Lemma mergeLinuxGPUInfo_length (existing new : list GPUInfo) :
  (length existing <= length (mergeLinuxGPUInfo existing new))%nat.
Proof.
  unfold mergeLinuxGPUInfo. revert existing.
  induction new as [|n new IH]; intros existing; simpl; [lia|].
  etransitivity; [apply (mergeOne_length existing n) | apply IH].
Qed.

Lemma keepsFirstObserved_refl (e : GPUInfo) : keepsFirstObserved e e.
Proof. repeat split; auto. Qed.

Lemma keepsFirstObserved_trans (a b c : GPUInfo) :
  keepsFirstObserved a b -> keepsFirstObserved b c -> keepsFirstObserved a c.
Proof.
  intros (V1 & M1 & R1 & E1 & m1 & d1 & p1) (V2 & M2 & R2 & E2 & m2 & d2 & p2).
  repeat split; try congruence.
  - intros H. rewrite <- (m1 H). apply m2. rewrite (m1 H). exact H.
  - intros H. rewrite <- (d1 H). apply d2. rewrite (d1 H). exact H.
  - intros H. rewrite <- (p1 H). apply p2. rewrite (p1 H). exact H.
Qed.

Lemma backfill_keeps (e n : GPUInfo) : keepsFirstObserved e (backfill e n).
Proof.
  destruct (backfill_fields e n) as (Hv & Hm & Hr & He).
  destruct (backfill_firstWins e n) as (Hmem & Hdrv & Hpci).
  unfold firstWins in *.
  repeat split; try assumption.
  - intros H. apply isEmpty_false in H. now rewrite Hmem, H.
  - intros H. apply isEmpty_false in H. now rewrite Hdrv, H.
  - intros H. apply isEmpty_false in H. now rewrite Hpci, H.
Qed.

Lemma mergeOne_frame (result : list GPUInfo) (n : GPUInfo) (i : nat) (e : GPUInfo) :
  result !! i = Some e ->
  exists r, mergeOne result n !! i = Some r /\ keepsFirstObserved e r.
Proof.
  intros Hi. unfold mergeOne.
  destruct (list_find _ result) as [[j x]|].
  - destruct (result !! j) as [rj|] eqn:Hj.
    + destruct (decide (j = i)) as [->|Hne].
      * rewrite list_lookup_insert_eq by (eapply lookup_lt_Some; eassumption).
        rewrite Hi in Hj. injection Hj as <-.
        eexists. split; [reflexivity | apply backfill_keeps].
      * rewrite list_lookup_insert_ne by exact Hne.
        exists e. split; [exact Hi | apply keepsFirstObserved_refl].
    + exists e. split; [exact Hi | apply keepsFirstObserved_refl].
  - rewrite lookup_app_l by (eapply lookup_lt_Some; eassumption).
    exists e. split; [exact Hi | apply keepsFirstObserved_refl].
Qed.

Lemma mergeLinuxGPUInfo_frame (existing new : list GPUInfo) (i : nat) (e : GPUInfo) :
  existing !! i = Some e ->
  exists r, mergeLinuxGPUInfo existing new !! i = Some r /\ keepsFirstObserved e r.
Proof.
  unfold mergeLinuxGPUInfo. revert existing e.
  induction new as [|n new IH]; intros existing e Hi; simpl.
  - exists e. split; [exact Hi | apply keepsFirstObserved_refl].
  - destruct (mergeOne_frame existing n i e Hi) as (r1 & H1 & K1).
    destruct (IH _ _ H1) as (r & Hr & K).
    exists r. split; [exact Hr|]. eapply keepsFirstObserved_trans; eassumption.
Qed.

(* ===================================================================== *)
(** ** What detection can return *)
(* ===================================================================== *)

Lemma append_nonempty (a b : string) : a <> "" -> a +:+ b <> "".
Proof. intros Ha. destruct a; [congruence | discriminate]. Qed.

Section DetectionShape.

Variable P : GPUInfo -> Prop.
Variable d : GPUDetector.
Variable w : World.

Hypothesis P_backfill : forall r x, P r -> P (backfill r x).
Hypothesis P_windows : forall out, Forall P (parseWindowsGPUOutput out).
Hypothesis P_lspci : forall out, Forall P (parseLinuxLspciOutput out).
Hypothesis P_lshw : forall out,
    GOOS w = "linux" ->
    commandOutput w (timeout d) "lshw" lshwArgs = (out, None) ->
    Forall P (parseLinuxLshwOutput out).
Hypothesis P_proc : forall data,
    P (mkGPUInfo "nvidia" "NVIDIA GPU" "" (extractNvidiaVersionFromProc data) "" data "").
Hypothesis P_glx : forall out, Forall P (parseLinuxGLXOutput out).
Hypothesis P_mac : forall out, Forall P (parseMacGPUOutput out).

Lemma windowsMethod_yield (name : string) (args : list string) (tr : list Call) :
  let m := (let* (out, err) := runCommandWithTimeout d name args in
            match err with
            | Some e => ret ([], Some e)
            | None => ret (parseWindowsGPUOutput out, None)
            end) in
  Forall P (fst (fst (m w tr))).
Proof.
  simpl. unfold bind, runCommandWithTimeout, ret.
  destruct (commandOutput w (timeout d) name args) as [out [e|]]; simpl;
    [constructor | apply P_windows].
Qed.

Lemma tryMethods_shape (methods : list (string * Probe (list GPUInfo * option error)))
      (tr : list Call) :
  Forall (fun m => forall tr', Forall P (fst (fst (snd m w tr')))) methods ->
  sentinelOr P (fst (fst (tryMethods methods w tr)))
  /\ snd (fst (tryMethods methods w tr)) = None.
Proof.
  revert tr. induction methods as [|[desc fn] rest IH]; intros tr Hall; simpl.
  - split; [|reflexivity]. left. exists windowsFailure. split; [discriminate | reflexivity].
  - inversion Hall as [|? ? Hfn Hrest]; subst. simpl in Hfn.
    unfold bind. specialize (Hfn tr).
    destruct (fn w tr) as [[gpus err] tr']. simpl in Hfn.
    destruct err as [e|]; [now apply IH|].
    destruct gpus as [|g gs]; [now apply IH|].
    unfold ret; simpl. split; [right; exact Hfn | reflexivity].
Qed.

Lemma detectWindowsGPUs_shape (tr : list Call) :
  sentinelOr P (fst (fst (detectWindowsGPUs d w tr)))
  /\ snd (fst (detectWindowsGPUs d w tr)) = None.
Proof.
  apply tryMethods_shape. unfold windowsMethods.
  repeat constructor; intros tr'; apply windowsMethod_yield.
Qed.

Lemma tryLinuxLspci_Forall (tr : list Call) :
  Forall P (fst (tryLinuxLspci d w tr)).
Proof.
  unfold tryLinuxLspci, bind, runCommandWithTimeout, ret.
  destruct (commandOutput w (timeout d) "lspci" lspciPreferredArgs) as [out [e|]];
    simpl; [|apply P_lspci].
  destruct (commandOutput w (timeout d) "lspci" []) as [out' [e'|]];
    simpl; [constructor | apply P_lspci].
Qed.

Lemma tryLinuxLshw_Forall (tr : list Call) :
  GOOS w = "linux" -> Forall P (fst (tryLinuxLshw d w tr)).
Proof.
  intros Hos.
  unfold tryLinuxLshw, bind, runCommandWithTimeout, ret.
  destruct (commandOutput w (timeout d) "lshw" lshwArgs) as [out [e|]] eqn:Hout;
    simpl; [constructor | now apply P_lshw].
Qed.

Lemma tryLinuxNvidiaProc_cases (tr : list Call) :
  Vendor (fst (tryLinuxNvidiaProc w tr)) = "unknown"
  \/ P (fst (tryLinuxNvidiaProc w tr)).
Proof.
  unfold tryLinuxNvidiaProc, bind, osReadFile, ret.
  destruct (fileContent w nvidiaProcPath) as [data [e|]]; simpl;
    [left; reflexivity | right; apply P_proc].
Qed.

Lemma tryLinuxGLX_Forall (tr : list Call) :
  Forall P (fst (tryLinuxGLX d w tr)).
Proof.
  unfold tryLinuxGLX, bind, runCommandWithTimeout, ret.
  destruct (commandOutput w (timeout d) "glxinfo" []) as [out [e|]];
    simpl; [constructor | apply P_glx].
Qed.

Lemma detectLinuxGPUs_shape (tr : list Call) :
  GOOS w = "linux" ->
  sentinelOr P (fst (fst (detectLinuxGPUs d w tr)))
  /\ snd (fst (detectLinuxGPUs d w tr)) = None.
Proof.
  intros Hos. unfold detectLinuxGPUs, bind.
  pose proof (tryLinuxLspci_Forall tr) as H1.
  destruct (tryLinuxLspci d w tr) as [g1 tr1]. simpl in H1.
  pose proof (tryLinuxLshw_Forall tr1 Hos) as H2.
  destruct (tryLinuxLshw d w tr1) as [g2 tr2]. simpl in H2.
  pose proof (tryLinuxNvidiaProc_cases tr2) as H3.
  destruct (tryLinuxNvidiaProc w tr2) as [g3 tr3]. simpl in H3.
  pose proof (tryLinuxGLX_Forall tr3) as H4.
  destruct (tryLinuxGLX d w tr3) as [g4 tr4]. simpl in H4.
  set (a := if (0 <? length g1)%nat then [] ++ g1 else []).
  assert (Ha : Forall P a) by (subst a; destruct (0 <? length g1)%nat; simpl; auto).
  set (b := if (0 <? length g2)%nat then mergeLinuxGPUInfo a g2 else a).
  assert (Hb : Forall P b).
  { subst b. destruct (0 <? length g2)%nat; [|exact Ha].
    now apply mergeLinuxGPUInfo_Forall. }
  set (c := if negb (String.eqb (Vendor g3) "unknown")
            then mergeLinuxGPUInfo b [g3] else b).
  assert (Hc : Forall P c).
  { subst c. destruct (String.eqb (Vendor g3) "unknown") eqn:Hv; simpl; [exact Hb|].
    apply mergeOne_Forall; [assumption | exact Hb |].
    destruct H3 as [H3|H3]; [|exact H3].
    rewrite H3 in Hv. discriminate. }
  set (e := if (0 <? length g4)%nat then mergeLinuxGPUInfo c g4 else c).
  assert (He : Forall P e).
  { subst e. destruct (0 <? length g4)%nat; [|exact Hc].
    now apply mergeLinuxGPUInfo_Forall. }
  destruct (length e =? 0)%nat; unfold ret; simpl; split; try reflexivity.
  - left. exists linuxFailure. split; [discriminate | reflexivity].
  - right. exact He.
Qed.

Lemma detectMacGPUs_shape (tr : list Call) :
  sentinelOr P (fst (fst (detectMacGPUs d w tr)))
  /\ snd (fst (detectMacGPUs d w tr)) = None.
Proof.
  unfold detectMacGPUs, bind, runCommandWithTimeout, ret.
  destruct (commandOutput w (timeout d) "system_profiler" ["SPDisplaysDataType"])
    as [out [e|]]; simpl; split; try reflexivity.
  - left. eexists. split; [|reflexivity]. now apply append_nonempty.
  - right. apply P_mac.
Qed.

Lemma DetectGPUs_shape (tr : list Call) :
  sentinelOr P (fst (fst (DetectGPUs d w tr)))
  /\ snd (fst (DetectGPUs d w tr)) = None.
Proof.
  unfold DetectGPUs.
  destruct (String.eqb (GOOS w) "windows"); [apply detectWindowsGPUs_shape|].
  destruct (String.eqb (GOOS w) "linux") eqn:Hos;
    [apply detectLinuxGPUs_shape; now apply String.eqb_eq|].
  destruct (String.eqb (GOOS w) "darwin"); [apply detectMacGPUs_shape|].
  unfold ret; simpl. split; [|reflexivity].
  left. eexists. split; [|reflexivity]. now apply append_nonempty.
Qed.

End DetectionShape.

(* ===================================================================== *)
(** ** Parsed records carry no error text *)
(* ===================================================================== *)

Lemma fold_left_Error (step : GPUInfo -> string -> GPUInfo) (lines : list string) :
  (forall g l, Error (step g l) = Error g) ->
  forall gpu, Error (fold_left step lines gpu) = Error gpu.
Proof.
  intros Hstep. induction lines as [|l ls IH]; intros gpu; simpl; [reflexivity|].
  now rewrite IH, Hstep.
Qed.

Lemma windowsLine_Error (g : GPUInfo) (l : string) : Error (windowsLine g l) = Error g.
Proof.
  unfold windowsLine.
  destruct (isEmpty (TrimSpace l)); [reflexivity|].
  destruct (SplitN (TrimSpace l) ":" 2) as [|k [|v [|? ?]]]; try reflexivity.
  repeat match goal with |- context [if ?b then _ else _] => destruct b end;
    reflexivity.
Qed.

Lemma macLine_Error (g : GPUInfo) (l : string) : Error (macLine g l) = Error g.
Proof.
  unfold macLine.
  destruct (Contains (TrimSpace l) "Chipset Model:").
  - destruct (SplitN (TrimSpace l) ":" 2) as [|k [|v [|? ?]]]; reflexivity.
  - destruct (Contains (TrimSpace l) "VRAM" && Contains (TrimSpace l) ":");
      [|reflexivity].
    destruct (SplitN (TrimSpace l) ":" 2) as [|k [|v [|? ?]]]; reflexivity.
Qed.

Lemma parseWindowsGPUOutput_noError (output : string) :
  Forall noError (parseWindowsGPUOutput output).
Proof.
  unfold parseWindowsGPUOutput.
  destruct (Contains output "{" && Contains output "}").
  - unfold parseWindowsJSONOutput. apply fold_left_Forall; [|constructor].
    intros acc block _ Hacc. unfold jsonBlock.
    match goal with |- context [acceptable ?g] => destruct (acceptable g) end;
      [|exact Hacc].
    apply Forall_snoc; [exact Hacc|]. unfold noError.
    repeat match goal with |- context [if ?b then _ else _] => destruct b end;
      reflexivity.
  - apply fold_left_Forall; [|constructor].
    intros acc block _ Hacc. unfold windowsBlock.
    match goal with |- context [acceptable ?g] => destruct (acceptable g) end;
      [|exact Hacc].
    apply Forall_snoc; [exact Hacc|]. unfold noError. simpl.
    now rewrite (fold_left_Error windowsLine _ windowsLine_Error).
Qed.

Lemma parseLinuxLspciOutput_noError (output : string) :
  Forall noError (parseLinuxLspciOutput output).
Proof.
  unfold parseLinuxLspciOutput. apply fold_left_Forall; [|constructor].
  intros acc m _ Hacc. unfold lspciMatch.
  repeat match goal with |- context [if ?b then _ else _] => destruct b end;
    try exact Hacc; (apply Forall_snoc; [exact Hacc | reflexivity]).
Qed.

Lemma parseLinuxLshwOutput_noError (output : string) :
  Forall noError (parseLinuxLshwOutput output).
Proof.
  unfold parseLinuxLshwOutput. apply fold_left_Forall; [|constructor].
  intros acc block _ Hacc. unfold lshwBlock.
  match goal with |- context [acceptable ?g] => destruct (acceptable g) end;
    [|exact Hacc].
  apply Forall_snoc; [exact Hacc|]. unfold noError.
  match goal with |- context [if ?b then _ else _] => destruct b end; simpl;
    now destruct (lshwLine_fold_fields (Split block (String nl ""))
                    (setRawOutput zeroGPUInfo block)) as [-> _].
Qed.

Lemma parseLinuxGLXOutput_noError (output : string) :
  Forall noError (parseLinuxGLXOutput output).
Proof.
  unfold parseLinuxGLXOutput. apply fold_left_Forall; [|constructor].
  intros acc line _ Hacc. unfold glxLine.
  destruct (Contains line "OpenGL renderer string:"); [|exact Hacc].
  destruct (SplitN line ":" 2) as [|k [|v [|? ?]]]; try exact Hacc.
  destruct (isGenericGPU (TrimSpace v)); simpl; [exact Hacc|].
  apply Forall_snoc; [exact Hacc | reflexivity].
Qed.

Lemma parseMacGPUOutput_noError (output : string) :
  Forall noError (parseMacGPUOutput output).
Proof.
  unfold parseMacGPUOutput. apply fold_left_Forall; [|constructor].
  intros acc block _ Hacc. unfold macBlock.
  match goal with |- context [if ?b then _ else _] => destruct b end;
    [|exact Hacc].
  apply Forall_snoc; [exact Hacc|]. unfold noError. simpl.
  now rewrite (fold_left_Error macLine _ macLine_Error).
Qed.

Lemma backfill_noError (r x : GPUInfo) : noError r -> noError (backfill r x).
Proof. unfold noError. now destruct (backfill_fields r x) as (_ & _ & _ & ->). Qed.

(** Whatever the host, detection returns a nil error and either the single
    sentinel record or records without error text. *)
Lemma DetectGPUs_sentinel_or_clean (d : GPUDetector) (w : World) (tr : list Call) :
  sentinelOr noError (fst (fst (DetectGPUs d w tr)))
  /\ snd (fst (DetectGPUs d w tr)) = None.
Proof.
  apply DetectGPUs_shape.
  - apply backfill_noError.
  - apply parseWindowsGPUOutput_noError.
  - apply parseLinuxLspciOutput_noError.
  - intros out _ _. apply parseLinuxLshwOutput_noError.
  - intros data. reflexivity.
  - apply parseLinuxGLXOutput_noError.
  - apply parseMacGPUOutput_noError.
Qed.

(* ===================================================================== *)
(** ** Detection results are never empty, except on macOS *)
(* ===================================================================== *)

Lemma tryMethods_nonempty (methods : list (string * Probe (list GPUInfo * option error)))
      (w : World) (tr : list Call) :
  fst (fst (tryMethods methods w tr)) <> [].
Proof.
  revert tr. induction methods as [|[desc fn] rest IH]; intros tr; simpl.
  - discriminate.
  - unfold bind. destruct (fn w tr) as [[gpus err] tr'].
    destruct err as [e|]; [apply IH|].
    destruct gpus as [|g gs]; [apply IH | discriminate].
Qed.

Lemma detectLinuxGPUs_nonempty (d : GPUDetector) (w : World) (tr : list Call) :
  fst (fst (detectLinuxGPUs d w tr)) <> [].
Proof.
  unfold detectLinuxGPUs, bind.
  destruct (tryLinuxLspci d w tr) as [g1 tr1].
  destruct (tryLinuxLshw d w tr1) as [g2 tr2].
  destruct (tryLinuxNvidiaProc w tr2) as [g3 tr3].
  destruct (tryLinuxGLX d w tr3) as [g4 tr4].
  match goal with |- context [(length ?e =? 0)%nat] => destruct e as [|x xs] end;
    simpl; discriminate.
Qed.

(** The Windows and Linux branches and the unsupported-platform branch all
    end in a sentinel when nothing was found. *)
Lemma DetectGPUs_nonempty_off_darwin (d : GPUDetector) (w : World) :
  GOOS w <> "darwin" -> fst (result (DetectGPUs d) w) <> [].
Proof.
  intros Hos. unfold result, run, DetectGPUs.
  destruct (String.eqb (GOOS w) "windows"); [apply tryMethods_nonempty|].
  destruct (String.eqb (GOOS w) "linux"); [apply detectLinuxGPUs_nonempty|].
  destruct (String.eqb (GOOS w) "darwin") eqn:E;
    [apply String.eqb_eq in E; contradiction | discriminate].
Qed.

(** The empty result is the macOS branch with a successful probe and
    nothing parsed, and nothing else. *)
Lemma DetectGPUs_empty_iff (d : GPUDetector) (w : World) :
  fst (result (DetectGPUs d) w) = [] <->
  GOOS w = "darwin"
  /\ exists out,
      commandOutput w (timeout d) "system_profiler" ["SPDisplaysDataType"] = (out, None)
      /\ parseMacGPUOutput out = [].
Proof.
  split.
  - intros Hempty.
    destruct (decide (GOOS w = "darwin")) as [Hos|Hos];
      [|now apply DetectGPUs_nonempty_off_darwin in Hempty].
    split; [exact Hos|].
    unfold result, run, DetectGPUs in Hempty. rewrite Hos in Hempty.
    unfold detectMacGPUs, bind, runCommandWithTimeout, ret in Hempty.
    simpl in Hempty.
    destruct (commandOutput w (timeout d) "system_profiler" ["SPDisplaysDataType"])
      as [out [e|]]; simpl in Hempty; [discriminate|].
    now exists out.
  - intros (Hos & out & Hout & Hparse).
    unfold result, run, DetectGPUs. rewrite Hos.
    unfold detectMacGPUs, bind, runCommandWithTimeout, ret. simpl.
    now rewrite Hout.
Qed.

(** C1.  On macOS, when [system_profiler] succeeds and its output holds no
    [Chipset Model:] line, [DetectGPUs] returns the empty sequence with a
    nil error: no sentinel record is added, unlike on Windows and Linux. *)
Theorem DetectGPUs_darwin_empty :
  result (DetectGPUs NewGPUDetector) headlessMac = ([], None).
Proof. vm_compute. reflexivity. Qed.

(* ===================================================================== *)
(** ** The vendor field *)
(* ===================================================================== *)


Lemma normalizeVendorName_cases (v : string) :
  normalizeVendorName v ∈ vendorTags \/ normalizeVendorName v = ToLower v.
Proof.
  unfold normalizeVendorName, normalizeVendorNameWith, vendorTags.
  repeat match goal with |- context [if ?b then _ else _] => destruct b end;
    try (right; reflexivity); left; apply list_elem_of_In; simpl; tauto.
Qed.













(* ===================================================================== *)
(** ** The generic-device filter, parser by parser *)
(* ===================================================================== *)

(** Five of the six parsers drop every generic model. *)
Lemma filtering_parsers_notGeneric (output : string) (g : GPUInfo) :
  g ∈ parseWindowsGPUOutput output \/ g ∈ parseWindowsJSONOutput output
  \/ g ∈ parseLinuxLspciOutput output \/ g ∈ parseLinuxLshwOutput output
  \/ g ∈ parseLinuxGLXOutput output ->
  isGenericGPU (Model g) = false.
Proof.
  intros H.
  pose proof (parseWindowsGPUOutput_notGeneric output) as H1.
  pose proof (parseWindowsJSONOutput_notGeneric output) as H2.
  pose proof (parseLinuxLspciOutput_notGeneric output) as H3.
  pose proof (parseLinuxLshwOutput_notGeneric output) as H4.
  pose proof (parseLinuxGLXOutput_notGeneric output) as H5.
  rewrite Forall_forall in H1, H2, H3, H4, H5.
  destruct H as [H|[H|[H|[H|H]]]];
    [exact (H1 g H) | exact (H2 g H) | exact (H3 g H) | exact (H4 g H) | exact (H5 g H)].
Qed.

Lemma windows_drops_basic_display_adapter (output : string) (g : GPUInfo) :
  g ∈ parseWindowsGPUOutput output -> Model g <> "Microsoft Basic Display Adapter".
Proof.
  intros Hin Hm.
  assert (H : isGenericGPU (Model g) = false)
    by (apply (filtering_parsers_notGeneric output); auto).
  rewrite Hm in H. vm_compute in H. discriminate.
Qed.

(** C3.  The macOS parser applies no generic-device filter: the model
    "VMware SVGA II", which [isGenericGPU] classifies as generic, is
    returned by [parseMacGPUOutput]. *)
Theorem parseMacGPUOutput_keeps_generic :
  isGenericGPU "VMware SVGA II" = true
  /\ map (fun g => (Vendor g, Model g, Memory g)) (parseMacGPUOutput vmwareGuestProfile)
     = [("unknown", "VMware SVGA II", "128 MB")].
Proof. split; vm_compute; reflexivity. Qed.

(* ===================================================================== *)
(** ** Merging one record *)
(* ===================================================================== *)

Lemma areGPUsSimilar_spec (e n : GPUInfo) :
  areGPUsSimilar e n = true <->
  Vendor e = Vendor n
  /\ (Contains (Model e) (Model n) = true \/ Contains (Model n) (Model e) = true).
Proof.
  unfold areGPUsSimilar.
  rewrite andb_true_iff, orb_true_iff, String.eqb_eq. reflexivity.
Qed.





(* ===================================================================== *)
(** ** The Windows strategies *)
(* ===================================================================== *)

Lemma strategyYield_noError (w : World) (c : Call) :
  Forall noError (strategyYield w c).
Proof.
  destruct c as [t name args|path]; simpl; [|constructor].
  destruct (commandOutput w t name args) as [out [e|]];
    [constructor | apply parseWindowsGPUOutput_noError].
Qed.

Lemma noError_not_sentinel (gpus : list GPUInfo) (msg : string) :
  msg <> "" -> Forall noError gpus -> gpus <> [sentinel msg].
Proof.
  intros Hmsg Hall ->. inversion Hall as [|? ? H]; subst.
  unfold noError in H; simpl in H. congruence.
Qed.

(** C5.  [detectWindowsGPUs] asks PowerShell-CIM, then PowerShell-WMI, then
    WMIC; it returns the records of the first strategy that yields any, and
    the host sees no call after that one; when none yields a record, and
    only then, it returns the single sentinel record.  The error is nil. *)
Theorem detectWindowsGPUs_first_success (d : GPUDetector) (w : World) :
  let y1 := strategyYield w (cimCall d) in
  let y2 := strategyYield w (wmiCall d) in
  let y3 := strategyYield w (wmicCall d) in
  run (detectWindowsGPUs d) w
  = match y1, y2, y3 with
    | _ :: _, _, _ => (y1, None, [cimCall d])
    | [], _ :: _, _ => (y2, None, [cimCall d; wmiCall d])
    | [], [], _ :: _ => (y3, None, [cimCall d; wmiCall d; wmicCall d])
    | [], [], [] =>
        ([sentinel windowsFailure], None, [cimCall d; wmiCall d; wmicCall d])
    end
  /\ (fst (result (detectWindowsGPUs d) w) = [sentinel windowsFailure]
      <-> y1 = [] /\ y2 = [] /\ y3 = []).
Proof.
  intros y1 y2 y3.
  pose proof (strategyYield_noError w (cimCall d)) as N1.
  pose proof (strategyYield_noError w (wmiCall d)) as N2.
  pose proof (strategyYield_noError w (wmicCall d)) as N3.
  fold y1 in N1. fold y2 in N2. fold y3 in N3.
  assert (Hmsg : windowsFailure <> "") by discriminate.
  assert (Hrun : run (detectWindowsGPUs d) w
                 = match y1, y2, y3 with
                   | _ :: _, _, _ => (y1, None, [cimCall d])
                   | [], _ :: _, _ => (y2, None, [cimCall d; wmiCall d])
                   | [], [], _ :: _ => (y3, None, [cimCall d; wmiCall d; wmicCall d])
                   | [], [], [] =>
                       ([sentinel windowsFailure], None,
                        [cimCall d; wmiCall d; wmicCall d])
                   end).
  { subst y1 y2 y3.
    unfold run, detectWindowsGPUs, windowsMethods, tryMethods,
      detectWindowsGPUsPowerShellCIM, detectWindowsGPUsPowerShellWMI,
      detectWindowsGPUsWMIC, bind, runCommandWithTimeout, ret,
      strategyYield, cimCall, wmiCall, wmicCall.
    destruct (commandOutput w (timeout d) "powershell"
                ["-NoProfile"; "-Command"; cimCommand]) as [o1 [e1|]];
      [|destruct (parseWindowsGPUOutput o1); [|reflexivity]];
      (destruct (commandOutput w (timeout d) "powershell"
                   ["-NoProfile"; "-Command"; wmiCommand]) as [o2 [e2|]];
       [|destruct (parseWindowsGPUOutput o2); [|reflexivity]]);
      (destruct (commandOutput w (timeout d) "wmic" wmicArgs) as [o3 [e3|]];
       [|destruct (parseWindowsGPUOutput o3)]); reflexivity. }
  split; [exact Hrun|].
  unfold result. rewrite Hrun.
  destruct y1 as [|a1 l1]; [destruct y2 as [|a2 l2]; [destruct y3 as [|a3 l3]|]|];
    simpl; split.
  - auto.
  - reflexivity.
  - intros H. exfalso. revert H. now apply noError_not_sentinel.
  - intros (_ & _ & H). discriminate.
  - intros H. exfalso. revert H. now apply noError_not_sentinel.
  - intros (_ & H & _). discriminate.
  - intros H. exfalso. revert H. now apply noError_not_sentinel.
  - intros (H & _). discriminate.
Qed.

(* ===================================================================== *)
(** ** Vendor classification *)
(* ===================================================================== *)

Lemma existsb_matchesGroup (toLower : string -> string) (model : string)
      (patterns : list string) :
  existsb (Contains (toLower model)) patterns = true
  <-> matchesGroup toLower model patterns.
Proof.
  unfold matchesGroup. rewrite existsb_exists.
  split; intros (p & Hp & Hc); exists p; split; auto; now apply list_elem_of_In.
Qed.

Lemma existsb_not_matchesGroup (toLower : string -> string) (model : string)
      (patterns : list string) :
  ~ matchesGroup toLower model patterns ->
  existsb (Contains (toLower model)) patterns = false.
Proof.
  intros H. apply not_true_is_false. intros E. apply H.
  now apply existsb_matchesGroup.
Qed.

(** C6.  [determineVendorFromOutput] tests the lower-cased model against
    the NVIDIA, AMD, Intel and Apple pattern groups in this order; the
    first group with a contained pattern gives the tag, and no group gives
    "unknown".  So a model with an AMD pattern and no NVIDIA pattern is
    "amd", whether or not it also has an Intel pattern, as
    "AMD Radeon with Intel Iris fallback" is.  This holds of every model
    string whatever the lower-casing function [toLower] is, hence for
    [strings.ToLower] on text of any script. *)
Theorem determineVendorFromOutput_order (toLower : string -> string) (model : string) :
  let vendor := determineVendorFromOutputWith toLower model in
  let has := matchesGroup toLower model in
  (has nvidiaPatterns -> vendor = "nvidia")
  /\ (~ has nvidiaPatterns -> has amdPatterns -> vendor = "amd")
  /\ (~ has nvidiaPatterns -> ~ has amdPatterns -> has intelPatterns ->
      vendor = "intel")
  /\ (~ has nvidiaPatterns -> ~ has amdPatterns -> ~ has intelPatterns ->
      has applePatterns -> vendor = "apple")
  /\ (~ has nvidiaPatterns -> ~ has amdPatterns -> ~ has intelPatterns ->
      ~ has applePatterns -> vendor = "unknown")
  /\ (has amdPatterns -> has intelPatterns -> ~ has nvidiaPatterns ->
      vendor = "amd")
  /\ determineVendorFromOutput amdWithIntel = "amd".
Proof.
  cbv zeta. unfold determineVendorFromOutputWith.
  repeat split.
  - intros H. apply existsb_matchesGroup in H. now rewrite H.
  - intros N A. apply existsb_not_matchesGroup in N. apply existsb_matchesGroup in A.
    now rewrite N, A.
  - intros N A I. apply existsb_not_matchesGroup in N, A.
    apply existsb_matchesGroup in I. now rewrite N, A, I.
  - intros N A I P. apply existsb_not_matchesGroup in N, A, I.
    apply existsb_matchesGroup in P. now rewrite N, A, I, P.
  - intros N A I P. apply existsb_not_matchesGroup in N, A, I, P.
    now rewrite N, A, I, P.
  - intros A _ N. apply existsb_not_matchesGroup in N. apply existsb_matchesGroup in A.
    now rewrite N, A.
Qed.

Lemma determineVendorFromOutput_order_witness :
  determineVendorFromOutput amdWithIntel = "amd".
Proof.
  destruct (determineVendorFromOutput_order ToLower amdWithIntel)
    as (_ & _ & _ & _ & _ & H & _).
  apply H.
  - exists "radeon". split; [|reflexivity]. apply list_elem_of_In. simpl. tauto.
  - exists "iris". split; [|reflexivity]. apply list_elem_of_In. simpl. tauto.
  - intros (p & Hp & Hc). apply list_elem_of_In in Hp. simpl in Hp.
    repeat destruct Hp as [<-|Hp]; try discriminate Hc. exact Hp.
Defined.

(* ===================================================================== *)
(** ** Memory formatting *)
(* ===================================================================== *)

Lemma roundHalfEven_nearest (num den : Z) :
  0 <= num -> 0 < den ->
  2 * Z.abs (roundHalfEven num den * den - num) <= den.
Proof.
  intros Hnum Hden. unfold roundHalfEven.
  pose proof (Z.div_mod num den ltac:(lia)) as Hdm.
  pose proof (Z.mod_pos_bound num den Hden) as Hr.
  set (q := num / den) in *. set (r := num mod den) in *.
  assert (Hq : q * den = num - r) by lia.
  destruct (den <? 2 * r) eqn:E1; simpl.
  - apply Z.ltb_lt in E1.
    replace ((q + 1) * den - num) with (den - r) by lia. lia.
  - apply Z.ltb_ge in E1.
    destruct ((2 * r =? den) && Z.odd q) eqn:E2.
    + apply andb_true_iff in E2 as [E2 _]. apply Z.eqb_eq in E2.
      replace ((q + 1) * den - num) with (den - r) by lia. lia.
    + replace (q * den - num) with (- r) by lia. lia.
Qed.

Lemma roundHalfEven_nonneg (num den : Z) :
  0 <= num -> 0 < den -> 0 <= roundHalfEven num den.
Proof.
  intros Hnum Hden. unfold roundHalfEven.
  assert (0 <= num / den) by (apply Z.div_pos; lia).
  destruct ((den <? 2 * (num mod den)) || _); lia.
Qed.

Lemma float64_of_int_exact (n : Z) : 0 <= n < 2 ^ 53 -> float64_of_int n = n.
Proof.
  intros [H0 H53]. unfold float64_of_int.
  assert (Hlog : Z.log2 n < 53).
  { destruct (Z.eq_dec n 0) as [->|Hn]; [reflexivity|].
    apply Z.log2_lt_pow2; lia. }
  destruct (Z.log2 n - 52 <=? 0) eqn:E; [reflexivity|].
  apply Z.leb_gt in E. lia.
Qed.

Lemma float64_of_int_nonneg (n : Z) : 0 <= n -> 0 <= float64_of_int n.
Proof.
  intros H0. unfold float64_of_int.
  destruct (Z.log2 n - 52 <=? 0); [exact H0|].
  apply Z.shiftl_nonneg.
  assert (0 <= Z.shiftr n (Z.log2 n - 52)) by now apply Z.shiftr_nonneg.
  match goal with |- context [if ?b then _ else _] => destruct b end; lia.
Qed.

Lemma itoa_digit (r : Z) : 0 <= r < 10 -> padLeft 1 (itoa r) = itoa r.
Proof.
  intros H.
  assert (r = 0 \/ r = 1 \/ r = 2 \/ r = 3 \/ r = 4 \/ r = 5 \/ r = 6 \/ r = 7
          \/ r = 8 \/ r = 9) as Hc by lia.
  repeat destruct Hc as [->|Hc]; try reflexivity. now subst.
Qed.

Lemma FormatFixed_one (num den : Z) :
  0 <= num -> 0 < den ->
  exists tenths,
    FormatFixed 1 num den = itoa (tenths / 10) +:+ "." +:+ itoa (tenths mod 10)
    /\ 0 <= tenths /\ 2 * Z.abs (tenths * den - 10 * num) <= den.
Proof.
  intros Hnum Hden. exists (roundHalfEven (num * 10) den).
  unfold FormatFixed. change (10 ^ Z.of_nat 1) with 10.
  split; [|split].
  - rewrite itoa_digit; [reflexivity|]. apply Z.mod_pos_bound. lia.
  - apply roundHalfEven_nonneg; lia.
  - replace (10 * num) with (num * 10) by lia.
    apply roundHalfEven_nearest; lia.
Qed.

Lemma FormatFixed_zero (num den : Z) :
  0 <= num -> 0 < den ->
  exists k,
    FormatFixed 0 num den = itoa k
    /\ 0 <= k /\ 2 * Z.abs (k * den - num) <= den.
Proof.
  intros Hnum Hden. exists (roundHalfEven (num * 1) den).
  unfold FormatFixed. change (10 ^ Z.of_nat 0) with 1.
  split; [reflexivity|]. rewrite Z.mul_1_r.
  split; [apply roundHalfEven_nonneg | apply roundHalfEven_nearest]; lia.
Qed.

Lemma formatMemory_parsed (memStr : string) (bytes : Z) :
  ParseInt (FindString digitsRe memStr) = Some bytes ->
  formatMemory memStr
  = if GiB <=? bytes then FormatFixed 1 (float64_of_int bytes) GiB +:+ " GB"
    else if MiB <=? bytes then FormatFixed 0 (float64_of_int bytes) MiB +:+ " MB"
    else memStr.
Proof.
  intros Hp. unfold formatMemory.
  destruct (FindString digitsRe memStr) as [|c s] eqn:E; [discriminate Hp|].
  simpl negb. cbv iota. now rewrite Hp.
Qed.

(** C7.  [formatMemory] on the byte count [bytes] parsed from the first run
    of digits of its input.  (1) From 1 GiB on, the result is a number with
    one decimal followed by " GB", the number being a nearest tenth of
    [float64(bytes) / 2^30].  (2) From 1 MiB up to 1 GiB, it is an integer
    followed by " MB", the integer being a nearest one to [bytes / 2^20].
    (3, 4) Below 1 MiB, and when no count can be parsed (no digit, or a
    count beyond 64 bits), it is the input itself.  (5) [float64(bytes)] is
    [bytes] below 2^53.  (6) The three examples of the specification. *)
Theorem formatMemory_spec (memStr : string) :
  let digits := FindString digitsRe memStr in
  (forall bytes, ParseInt digits = Some bytes -> GiB <= bytes ->
      exists tenths,
        formatMemory memStr
        = (itoa (tenths / 10) +:+ "." +:+ itoa (tenths mod 10)) +:+ " GB"
        /\ 0 <= tenths
        /\ 2 * Z.abs (tenths * GiB - 10 * float64_of_int bytes) <= GiB)
  /\ (forall bytes, ParseInt digits = Some bytes -> MiB <= bytes < GiB ->
      exists mib,
        formatMemory memStr = itoa mib +:+ " MB"
        /\ 0 <= mib /\ 2 * Z.abs (mib * MiB - bytes) <= MiB)
  /\ (forall bytes, ParseInt digits = Some bytes -> bytes < MiB ->
      formatMemory memStr = memStr)
  /\ (ParseInt digits = None -> formatMemory memStr = memStr)
  /\ (forall n, 0 <= n < 2 ^ 53 -> float64_of_int n = n)
  /\ formatMemory "1073741824" = "1.0 GB"
  /\ formatMemory "2097152" = "2 MB"
  /\ formatMemory "512" = "512".
Proof.
  intros digits. subst digits.
  split; [|split; [|split; [|split; [|split; [|repeat split]]]]].
  - intros bytes Hp Hge. rewrite (formatMemory_parsed _ _ Hp).
    apply Z.leb_le in Hge as Hb. rewrite Hb.
    assert (0 <= bytes) by (unfold GiB in Hge; lia).
    destruct (FormatFixed_one (float64_of_int bytes) GiB) as (t & Ht & Ht0 & Hnear).
    { now apply float64_of_int_nonneg. }
    { reflexivity. }
    exists t. rewrite Ht. auto.
  - intros bytes Hp [Hge Hlt]. rewrite (formatMemory_parsed _ _ Hp).
    apply Z.leb_le in Hge as Hb. apply Z.leb_gt in Hlt as Hb'. rewrite Hb, Hb'.
    assert (0 <= bytes) by (unfold MiB in Hge; lia).
    rewrite float64_of_int_exact by (unfold GiB in Hlt; lia).
    destruct (FormatFixed_zero bytes MiB) as (k & Hk & Hk0 & Hnear);
      [assumption | reflexivity |].
    exists k. rewrite Hk. auto.
  - intros bytes Hp Hlt. rewrite (formatMemory_parsed _ _ Hp).
    assert (Hb : (GiB <=? bytes) = false) by (apply Z.leb_gt; unfold GiB, MiB in *; lia).
    assert (Hb' : (MiB <=? bytes) = false) by (apply Z.leb_gt; lia).
    now rewrite Hb, Hb'.
  - intros Hp. unfold formatMemory. rewrite Hp.
    now destruct (negb (isEmpty (FindString digitsRe memStr))).
  - apply float64_of_int_exact.
Qed.

Lemma formatMemory_spec_witness :
  exists tenths,
    formatMemory "AdapterRAM : 4293918720"
    = (itoa (tenths / 10) +:+ "." +:+ itoa (tenths mod 10)) +:+ " GB"
    /\ 0 <= tenths
    /\ 2 * Z.abs (tenths * GiB - 10 * float64_of_int 4293918720) <= GiB.
Proof.
  destruct (formatMemory_spec "AdapterRAM : 4293918720") as [H _].
  apply (H 4293918720).
  - reflexivity.
  - vm_compute. discriminate.
Defined.

(* ===================================================================== *)
(** ** Merging nothing *)
(* ===================================================================== *)

(** C8.  Merging an empty list of new records returns the existing records,
    in their order and with all their fields. *)
Theorem mergeLinuxGPUInfo_nil (existing : list GPUInfo) :
  mergeLinuxGPUInfo existing [] = existing.
Proof. reflexivity. Qed.

(* ===================================================================== *)
(** ** Failure is a record, not an error *)
(* ===================================================================== *)






(* ===================================================================== *)
(** ** The backward-compatible entry point *)
(* ===================================================================== *)

(** C10.  [DetectGPUVendor] runs [DetectGPUs] on a fresh detector, with the
    same calls to the host.  When that returns a nil error and a non-empty
    sequence, the result is its first record.  Otherwise the result is a
    record with vendor and model "unknown" and a non-empty error text. *)
Theorem DetectGPUVendor_first_or_sentinel (w : World) :
  let r := result (DetectGPUs NewGPUDetector) w in
  (forall g gs, r = (g :: gs, None) -> result DetectGPUVendor w = g)
  /\ (snd r <> None \/ fst r = [] ->
      exists msg, msg <> "" /\ result DetectGPUVendor w = sentinel msg)
  /\ trace DetectGPUVendor w = trace (DetectGPUs NewGPUDetector) w.
Proof.
  unfold result, trace, run, DetectGPUVendor, bind.
  destruct (DetectGPUs NewGPUDetector w []) as [[gpus err] tr]. simpl.
  split; [|split].
  - intros g gs [= -> ->]. reflexivity.
  - intros [Herr|Hnil].
    + destruct err as [e|]; [|contradiction].
      eexists. split; [|reflexivity]. now apply append_nonempty.
    + subst gpus. exists ("Detection failed: " +:+ showError err).
      split; [now apply append_nonempty|]. now destruct err.
  - destruct err as [e|]; [reflexivity|]. now destruct gpus.
Qed.

Lemma DetectGPUVendor_first_or_sentinel_witness :
  Model (result DetectGPUVendor matroxServer) = "G200eR2"
  /\ exists msg, msg <> "" /\ result DetectGPUVendor headlessMac = sentinel msg.
Proof.
  split.
  - destruct (DetectGPUVendor_first_or_sentinel matroxServer) as (H & _).
    erewrite H; [|vm_compute; reflexivity]. reflexivity.
  - destruct (DetectGPUVendor_first_or_sentinel headlessMac) as (_ & H & _).
    apply H. right. reflexivity.
Defined.

(* ===================================================================== *)
(** ** What the parsers put into a record *)
(* ===================================================================== *)

Lemma fold_left_RawOutput (step : GPUInfo -> string -> GPUInfo) (lines : list string) :
  (forall g l, RawOutput (step g l) = RawOutput g) ->
  forall gpu, RawOutput (fold_left step lines gpu) = RawOutput gpu.
Proof.
  intros Hstep. induction lines as [|l ls IH]; intros gpu; simpl; [reflexivity|].
  now rewrite IH, Hstep.
Qed.

Lemma windowsLine_RawOutput (g : GPUInfo) (l : string) :
  RawOutput (windowsLine g l) = RawOutput g.
Proof.
  unfold windowsLine.
  destruct (isEmpty (TrimSpace l)); [reflexivity|].
  destruct (SplitN (TrimSpace l) ":" 2) as [|k [|v [|? ?]]]; try reflexivity.
  repeat match goal with |- context [if ?b then _ else _] => destruct b end;
    reflexivity.
Qed.

Lemma macLine_RawOutput (g : GPUInfo) (l : string) :
  RawOutput (macLine g l) = RawOutput g.
Proof.
  unfold macLine.
  destruct (Contains (TrimSpace l) "Chipset Model:").
  - destruct (SplitN (TrimSpace l) ":" 2) as [|k [|v [|? ?]]]; reflexivity.
  - destruct (Contains (TrimSpace l) "VRAM" && Contains (TrimSpace l) ":");
      [|reflexivity].
    destruct (SplitN (TrimSpace l) ":" 2) as [|k [|v [|? ?]]]; reflexivity.
Qed.

(** *** A text is its lines *)

Lemma joinLines_linesOf (s : string) : joinLines (linesOf s) = s.
Proof.
  induction s as [|c s IH]; [reflexivity|].
  pose proof (linesOf_nonempty s) as Hne.
  destruct (Ascii.eqb c nl) eqn:E.
  - apply Ascii.eqb_eq in E. subst c. rewrite Split_nl_cons_nl.
    destruct (linesOf s) as [|h t]; [contradiction|].
    change (joinLines ("" :: h :: t)) with ("" +:+ String nl (joinLines (h :: t))).
    now rewrite append_nil_l, IH.
  - assert (Hc : c <> nl) by now apply Ascii.eqb_neq.
    rewrite Split_nl_cons_other by exact Hc.
    destruct (linesOf s) as [|h t]; [contradiction|].
    rewrite <- IH. destruct t as [|h' t']; [reflexivity|].
    change (joinLines (String c h :: h' :: t'))
      with (String c h +:+ String nl (joinLines (h' :: t'))).
    now rewrite append_cons.
Qed.

Lemma linesOf_inj (a b : string) : linesOf a = linesOf b -> a = b.
Proof. intros H. now rewrite <- (joinLines_linesOf a), <- (joinLines_linesOf b), H. Qed.

Lemma hasByte_joinLines (c : ascii) (lines : list string) :
  c <> nl -> Forall (fun l => hasByte c l = false) lines ->
  hasByte c (joinLines lines) = false.
Proof.
  intros Hc. induction lines as [|l ls IH]; intros Hall; [reflexivity|].
  inversion Hall as [|? ? Hl Hls]; subst.
  destruct ls as [|l' ls']; [exact Hl|].
  change (joinLines (l :: l' :: ls')) with (l +:+ String nl (joinLines (l' :: ls'))).
  rewrite hasByte_append, Hl. cbn [hasByte orb].
  rewrite (IH Hls), orb_false_r. apply Ascii.eqb_neq. congruence.
Qed.

Lemma Contains_byte (c : ascii) (s : string) : Contains s (String c "") = hasByte c s.
Proof.
  induction s as [|x s IH]; [reflexivity|].
  rewrite Contains_cons, HasPrefix_byte, IH. simpl. now rewrite Ascii.eqb_sym.
Qed.

(** *** A block is split into itself *)

Lemma blockStep_keeps_blocks (lines : list string) (blocks : list string) (cur : string) :
  Forall (fun l => nonBlank l = true) lines ->
  fst (fold_left blockStep lines (blocks, cur)) = blocks.
Proof.
  revert cur. induction lines as [|l ls IH]; intros cur Hall; [reflexivity|].
  inversion Hall as [|? ? Hl Hls]; subst. simpl.
  unfold nonBlank in Hl. apply negb_true_iff in Hl. rewrite Hl. simpl.
  now apply IH.
Qed.

Lemma splitIntoBlocks_block (output b : string) :
  b ∈ splitIntoBlocks output -> splitIntoBlocks b = [b].
Proof.
  intros Hb.
  assert (Hall : Forall (fun l => nonBlank l = true) (linesOf b)).
  { apply Forall_forall. intros l Hl.
    now destruct (splitIntoBlocks_line output b l Hb Hl). }
  unfold splitIntoBlocks. fold (linesOf b).
  pose proof (blockStep_keeps_blocks (linesOf b) [] "" Hall) as Hfst.
  destruct (blockStep_fold (linesOf b) ([], "") (linesOf_pieces_no_nl b)) as [Hlines _].
  destruct (fold_left blockStep (linesOf b) ([], "")) as [blocks cur].
  cbn [fst] in Hfst. subst blocks.
  unfold blockLines in Hlines. cbn [fst snd flat_map app] in Hlines.
  assert (Hfilter : List.filter nonBlank (linesOf b) = linesOf b).
  { clear Hlines. induction Hall as [|l ls Hl _ IH]; [reflexivity|].
    simpl. now rewrite Hl, IH. }
  rewrite Hfilter in Hlines.
  destruct (isEmpty cur) eqn:Hcur; simpl negb; cbv iota.
  - symmetry in Hlines. now apply linesOf_nonempty in Hlines.
  - now rewrite (linesOf_inj _ _ Hlines).
Qed.

Lemma block_hasByte (c : ascii) (output b : string) :
  c <> nl -> b ∈ splitIntoBlocks output -> hasByte c output = false ->
  hasByte c b = false.
Proof.
  intros Hc Hb Hout. rewrite <- (joinLines_linesOf b).
  apply hasByte_joinLines; [exact Hc|].
  apply Forall_forall. intros l Hl.
  destruct (splitIntoBlocks_line output b l Hb Hl) as [Hin _].
  pose proof (linesOf_hasByte c output Hout) as Hall.
  rewrite Forall_forall in Hall. now apply Hall.
Qed.

Lemma block_not_json (output b : string) :
  Contains output "{" && Contains output "}" = false ->
  b ∈ splitIntoBlocks output ->
  Contains b "{" && Contains b "}" = false.
Proof.
  intros H Hb. rewrite !Contains_byte in *.
  apply andb_false_iff in H. apply andb_false_iff.
  destruct H as [H|H]; [left | right];
    (apply (block_hasByte _ output b); [discriminate | exact Hb | exact H]).
Qed.

(** *** The pieces between separators hold no separator *)

Lemma splitFrom_head_prefix (sep s : string) :
  exists r, s = fst (splitFrom sep 0 s) +:+ r.
Proof.
  induction s as [|c s IH]; [now exists ""|].
  rewrite splitFrom_cons.
  destruct (HasPrefix (String c s) sep).
  - destruct (splitFrom sep (String.length sep - 1) s) as [h t]. cbn [fst].
    now exists (String c s).
  - destruct (splitFrom sep 0 s) as [h t]. cbn [fst] in *.
    destruct IH as (r & Hr). exists r. now rewrite append_cons, <- Hr.
Qed.

Lemma splitFrom_no_sep (sep : string) (s : string) (skip : nat) :
  sep <> "" ->
  Contains (fst (splitFrom sep skip s)) sep = false
  /\ Forall (fun p => Contains p sep = false) (snd (splitFrom sep skip s)).
Proof.
  intros Hsep.
  assert (Hnil : Contains "" sep = false) by (destruct sep; [contradiction | reflexivity]).
  revert skip. induction s as [|c s IH]; intros skip.
  { simpl. split; [exact Hnil | constructor]. }
  destruct skip as [|k]; [|exact (IH k)].
  rewrite splitFrom_cons.
  destruct (HasPrefix (String c s) sep) eqn:Hp.
  - destruct (IH (String.length sep - 1)%nat) as [H1 H2].
    destruct (splitFrom sep (String.length sep - 1) s) as [h t]. cbn [fst snd] in *.
    split; [exact Hnil | now constructor].
  - destruct (IH 0%nat) as [H1 H2].
    destruct (splitFrom_head_prefix sep s) as (r & Hr).
    destruct (splitFrom sep 0 s) as [h t]. cbn [fst snd] in *.
    split; [|exact H2].
    rewrite Contains_cons, H1, orb_false_r.
    apply not_true_is_false. intros Hpre.
    apply HasPrefix_spec in Hpre as (q & Hq).
    assert (HasPrefix (String c s) sep = true); [|congruence].
    apply HasPrefix_spec. exists (q +:+ r).
    now rewrite Hr, <- append_cons, Hq, append_assoc.
Qed.

Lemma Split_no_sep (sep s piece : string) :
  sep <> "" -> piece ∈ Split s sep -> Contains piece sep = false.
Proof.
  intros Hsep Hin. unfold Split in Hin.
  destruct (splitFrom_no_sep sep s 0 Hsep) as [H1 H2].
  destruct (splitFrom sep 0 s) as [h t]. cbn [fst snd] in *.
  apply elem_of_cons in Hin as [->|Hin]; [exact H1|].
  rewrite Forall_forall in H2. now apply H2.
Qed.

Lemma Split_whole (sep s : string) :
  Contains s sep = false -> Split s sep = [s].
Proof.
  intros H. unfold Split.
  assert (Hs : splitFrom sep 0 s = (s, [])).
  { induction s as [|c s IH]; [reflexivity|].
    rewrite Contains_cons in H. apply orb_false_iff in H as [Hp Hc].
    rewrite splitFrom_cons, Hp, (IH Hc). reflexivity. }
  now rewrite Hs.
Qed.

(** *** Records, piece by piece *)

Lemma fold_left_flat_map {A B : Type} (step : list B -> A -> list B) :
  (forall acc x, step acc x = acc ++ step [] x) ->
  forall l acc, fold_left step l acc = acc ++ flat_map (step []) l.
Proof.
  intros Hstep. induction l as [|x l IH]; intros acc; simpl.
  - now rewrite app_nil_r.
  - now rewrite IH, (Hstep acc x), app_assoc.
Qed.

Lemma flat_map_ext_in {A B : Type} (f g : A -> list B) (l : list A) :
  (forall x, x ∈ l -> f x = g x) -> flat_map f l = flat_map g l.
Proof.
  intros H. induction l as [|x l IH]; [reflexivity|]. simpl.
  rewrite (H x) by apply list_elem_of_here.
  rewrite IH; [reflexivity|]. intros y Hy. apply H. now apply list_elem_of_further.
Qed.

Lemma windowsBlock_app (acc : list GPUInfo) (block : string) :
  windowsBlock acc block = acc ++ windowsBlock [] block.
Proof.
  unfold windowsBlock.
  match goal with |- context [acceptable ?g] => destruct (acceptable g) end;
    [reflexivity | now rewrite app_nil_r].
Qed.

Lemma lshwBlock_app (acc : list GPUInfo) (block : string) :
  lshwBlock acc block = acc ++ lshwBlock [] block.
Proof.
  unfold lshwBlock.
  match goal with |- context [acceptable ?g] => destruct (acceptable g) end;
    [reflexivity | now rewrite app_nil_r].
Qed.

Lemma macBlock_app (acc : list GPUInfo) (block : string) :
  macBlock acc block = acc ++ macBlock [] block.
Proof.
  unfold macBlock.
  match goal with |- context [if ?b then _ else _] => destruct b end;
    [reflexivity | now rewrite app_nil_r].
Qed.

Lemma jsonBlock_app (acc : list GPUInfo) (block : string) :
  jsonBlock acc block = acc ++ jsonBlock [] block.
Proof.
  unfold jsonBlock.
  match goal with |- context [acceptable ?g] => destruct (acceptable g) end;
    [reflexivity | now rewrite app_nil_r].
Qed.

Lemma windowsBlock_one (block : string) :
  windowsBlock [] block = []
  \/ exists g, windowsBlock [] block = [g] /\ RawOutput g = block.
Proof.
  unfold windowsBlock.
  match goal with |- context [acceptable ?g] => destruct (acceptable g) end;
    [|now left].
  right. eexists. split; [reflexivity|]. simpl.
  now rewrite (fold_left_RawOutput windowsLine _ windowsLine_RawOutput).
Qed.

Lemma lshwBlock_one (block : string) :
  lshwBlock [] block = []
  \/ exists g, lshwBlock [] block = [g] /\ RawOutput g = block.
Proof.
  unfold lshwBlock.
  match goal with |- context [acceptable ?g] => destruct (acceptable g) end;
    [|now left].
  right. eexists. split; [reflexivity|].
  match goal with |- context [if ?b then _ else _] => destruct b end; simpl;
    now destruct (lshwLine_fold_fields (Split block (String nl ""))
                    (setRawOutput zeroGPUInfo block)) as [_ ->].
Qed.

Lemma macBlock_one (block : string) :
  macBlock [] block = []
  \/ exists g, macBlock [] block = [g] /\ RawOutput g = block.
Proof.
  unfold macBlock.
  match goal with |- context [if ?b then _ else _] => destruct b end;
    [|now left].
  right. eexists. split; [reflexivity|]. simpl.
  now rewrite (fold_left_RawOutput macLine _ macLine_RawOutput).
Qed.

Lemma jsonBlock_one (block : string) :
  jsonBlock [] block = []
  \/ exists g, jsonBlock [] block = [g] /\ RawOutput g = block.
Proof.
  unfold jsonBlock.
  match goal with |- context [acceptable ?g] => destruct (acceptable g) end;
    [|now left].
  right. eexists. split; reflexivity.
Qed.

(** X2.  Every parser stores in [RawOutput] the piece of text the record was
    read from.  The key-value parsers and the JSON parser read a text piece
    by piece, block by block or object by object: the result is what they
    read from each piece alone, in the order of the pieces; a piece gives
    at most one record, and that record holds the piece.  The bus-listing
    and renderer parsers store the whole output. *)
Theorem parsers_keep_raw_output (output : string) :
  let blocks := splitIntoBlocks output in
  let objects := Split output "},{" in
  let json := Contains output "{" && Contains output "}" in
  (parseLinuxLshwOutput output = flat_map parseLinuxLshwOutput blocks
   /\ Forall (readsOne parseLinuxLshwOutput) blocks)
  /\ (parseMacGPUOutput output = flat_map parseMacGPUOutput blocks
      /\ Forall (readsOne parseMacGPUOutput) blocks)
  /\ (parseWindowsGPUOutput output
      = (if json then flat_map parseWindowsJSONOutput objects
         else flat_map parseWindowsGPUOutput blocks)
      /\ Forall (readsOne parseWindowsJSONOutput) objects
      /\ (json = false -> Forall (readsOne parseWindowsGPUOutput) blocks))
  /\ (forall g, g ∈ parseLinuxLspciOutput output \/ g ∈ parseLinuxGLXOutput output ->
      RawOutput g = output).
Proof.
  cbv zeta.
  assert (Hlshw : forall b, b ∈ splitIntoBlocks output ->
                    parseLinuxLshwOutput b = lshwBlock [] b).
  { intros b Hb. unfold parseLinuxLshwOutput.
    now rewrite (splitIntoBlocks_block output b Hb). }
  assert (Hmac : forall b, b ∈ splitIntoBlocks output ->
                   parseMacGPUOutput b = macBlock [] b).
  { intros b Hb. unfold parseMacGPUOutput.
    now rewrite (splitIntoBlocks_block output b Hb). }
  assert (Hwin : Contains output "{" && Contains output "}" = false ->
                 forall b, b ∈ splitIntoBlocks output ->
                   parseWindowsGPUOutput b = windowsBlock [] b).
  { intros Htext b Hb. unfold parseWindowsGPUOutput.
    rewrite (block_not_json output b Htext Hb).
    now rewrite (splitIntoBlocks_block output b Hb). }
  assert (Hjson : forall p, p ∈ Split output "},{" ->
                    parseWindowsJSONOutput p = jsonBlock [] p).
  { intros p0 Hp. unfold parseWindowsJSONOutput.
    rewrite (Split_whole "},{" p0); [reflexivity|].
    apply (Split_no_sep "},{" output p0); [discriminate | exact Hp]. }
  split; [|split; [|split]].
  - split.
    + unfold parseLinuxLshwOutput at 1.
      rewrite (fold_left_flat_map lshwBlock lshwBlock_app). cbn [app].
      symmetry. now apply flat_map_ext_in.
    + apply Forall_forall. intros b Hb. unfold readsOne.
      rewrite (Hlshw b Hb). apply lshwBlock_one.
  - split.
    + unfold parseMacGPUOutput at 1.
      rewrite (fold_left_flat_map macBlock macBlock_app). cbn [app].
      symmetry. now apply flat_map_ext_in.
    + apply Forall_forall. intros b Hb. unfold readsOne.
      rewrite (Hmac b Hb). apply macBlock_one.
  - split; [|split].
    + unfold parseWindowsGPUOutput at 1.
      destruct (Contains output "{" && Contains output "}") eqn:Ej.
      * unfold parseWindowsJSONOutput at 1.
        rewrite (fold_left_flat_map jsonBlock jsonBlock_app). cbn [app].
        symmetry. now apply flat_map_ext_in.
      * rewrite (fold_left_flat_map windowsBlock windowsBlock_app). cbn [app].
        symmetry. apply flat_map_ext_in. now apply Hwin.
    + apply Forall_forall. intros p0 Hp. unfold readsOne.
      rewrite (Hjson p0 Hp). apply jsonBlock_one.
    + intros Htext. apply Forall_forall. intros b Hb. unfold readsOne.
      rewrite (Hwin Htext b Hb). apply windowsBlock_one.
  - intros g [Hin|Hin]; revert g Hin; apply Forall_forall.
    + unfold parseLinuxLspciOutput.
      apply fold_left_Forall; [|constructor].
      intros acc m _ Hacc. unfold lspciMatch.
      repeat match goal with |- context [if ?b then _ else _] => destruct b end;
        try exact Hacc; (apply Forall_snoc; [exact Hacc | reflexivity]).
    + unfold parseLinuxGLXOutput.
      apply fold_left_Forall; [|constructor].
      intros acc line _ Hacc. unfold glxLine.
      destruct (Contains line "OpenGL renderer string:"); [|exact Hacc].
      destruct (SplitN line ":" 2) as [|k [|v [|? ?]]]; try exact Hacc.
      destruct (isGenericGPU (TrimSpace v)); simpl; [exact Hacc|].
      apply Forall_snoc; [exact Hacc | reflexivity].
Qed.

Lemma keyvalue_models_nonempty (output : string) :
  Forall (fun g => Model g <> "") (parseWindowsGPUOutput output)
  /\ Forall (fun g => Model g <> "") (parseLinuxLshwOutput output)
  /\ Forall (fun g => Model g <> "") (parseMacGPUOutput output).
Proof.
  repeat split.
  - unfold parseWindowsGPUOutput.
    destruct (Contains output "{" && Contains output "}").
    + unfold parseWindowsJSONOutput. apply fold_left_Forall; [|constructor].
      intros acc block _ Hacc. unfold jsonBlock.
      match goal with |- context [acceptable ?g] => destruct (acceptable g) eqn:Hok end;
        [|exact Hacc].
      apply Forall_snoc; [exact Hacc|].
      apply acceptable_notGeneric in Hok as [_ Hok]. exact Hok.
    + apply fold_left_Forall; [|constructor].
      intros acc block _ Hacc. unfold windowsBlock.
      match goal with |- context [acceptable ?g] => destruct (acceptable g) eqn:Hok end;
        [|exact Hacc].
      apply Forall_snoc; [exact Hacc|].
      apply acceptable_notGeneric in Hok as [_ Hok]. exact Hok.
  - unfold parseLinuxLshwOutput. apply fold_left_Forall; [|constructor].
    intros acc block _ Hacc. unfold lshwBlock.
    match goal with |- context [acceptable ?g] => destruct (acceptable g) eqn:Hok end;
      [|exact Hacc].
    apply Forall_snoc; [exact Hacc|].
    apply acceptable_notGeneric in Hok as [_ Hok].
    match goal with |- context [if ?b then _ else _] => destruct b end; exact Hok.
  - unfold parseMacGPUOutput. apply fold_left_Forall; [|constructor].
    intros acc block _ Hacc. unfold macBlock.
    match goal with |- context [if ?b then _ else _] => destruct b eqn:Hok end;
      [|exact Hacc].
    apply Forall_snoc; [exact Hacc|]. simpl.
    apply negb_true_iff in Hok. now apply isEmpty_false.
Qed.

(** X3.  Off Linux, every record that detection returns has a model.  On Linux
    the renderer parser tests the model only against the generic terms, and
    detection can return a record without one. *)
Theorem DetectGPUs_model_nonempty (d : GPUDetector) (w : World) (g : GPUInfo) :
  (GOOS w <> "linux" -> g ∈ fst (result (DetectGPUs d) w) -> Model g <> "")
  /\ (exists g', g' ∈ fst (result (DetectGPUs d) blankRenderer) /\ Model g' = "").
Proof.
  split.
  2: { eexists. split; [vm_compute; apply list_elem_of_here | reflexivity]. }
  intros Hos Hin.
  assert (Hshape : sentinelOr (fun g => Model g <> "") (fst (result (DetectGPUs d) w))).
  { unfold result, run, DetectGPUs.
    destruct (String.eqb (GOOS w) "windows").
    { apply detectWindowsGPUs_shape. intros out.
      apply (keyvalue_models_nonempty out). }
    destruct (String.eqb (GOOS w) "linux") eqn:E;
      [apply String.eqb_eq in E; contradiction|].
    destruct (String.eqb (GOOS w) "darwin").
    { apply detectMacGPUs_shape. intros out.
      apply (keyvalue_models_nonempty out). }
    left. eexists. split; [|reflexivity]. now apply append_nonempty. }
  destruct Hshape as [(msg & _ & Hs)|Hall].
  - rewrite Hs in Hin. apply list_elem_of_singleton in Hin. subst g. discriminate.
  - rewrite Forall_forall in Hall. now apply Hall.
Qed.

Lemma DetectGPUs_model_nonempty_witness :
  Model (hd (sentinel "") (fst (result (DetectGPUs NewGPUDetector) windowsDesktop))) <> "".
Proof.
  destruct (DetectGPUs_model_nonempty NewGPUDetector windowsDesktop
              (hd (sentinel "") (fst (result (DetectGPUs NewGPUDetector) windowsDesktop))))
    as [H _].
  apply H.
  - discriminate.
  - vm_compute. apply list_elem_of_here.
Defined.

(* ===================================================================== *)
(** ** Texts without a colon *)
(* ===================================================================== *)

Lemma hasByte_TrimSpace (c : ascii) (s : string) :
  hasByte c s = false -> hasByte c (TrimSpace s) = false.
Proof.
  intros H. destruct (TrimSpace_within s) as (p & q & Hs).
  rewrite Hs, !hasByte_append in H.
  apply orb_false_iff in H as [_ H]. now apply orb_false_iff in H as [H _].
Qed.

Lemma hasByte_Contains (c : ascii) (s sub : string) :
  hasByte c sub = true -> hasByte c s = false -> Contains s sub = false.
Proof.
  intros Hsub Hs. apply not_true_is_false. intros H.
  apply Contains_spec in H as (p & q & ->).
  rewrite !hasByte_append, Hsub in Hs. now destruct (hasByte c p).
Qed.

Lemma hasByte_HasPrefix (c : ascii) (s p : string) :
  hasByte c p = true -> hasByte c s = false -> HasPrefix s p = false.
Proof.
  intros Hp Hs. apply not_true_is_false. intros H.
  apply HasPrefix_spec in H as (q & ->).
  rewrite hasByte_append, Hp in Hs. discriminate Hs.
Qed.

Lemma Cut_byte_none (c : ascii) (s : string) :
  hasByte c s = false -> Cut s (String c "") = None.
Proof.
  induction s as [|x s IH]; [reflexivity|]. intros H. simpl in H.
  apply orb_false_iff in H as [Hx Hs].
  change (Cut (String x s) (String c ""))
    with (if HasPrefix (String x s) (String c "")
          then Some ("", dropBytes (String.length (String c "")) (String x s))
          else match Cut s (String c "") with
               | Some (a, b) => Some (String x a, b)
               | None => None
               end).
  rewrite HasPrefix_byte, Ascii.eqb_sym, Hx. now rewrite (IH Hs).
Qed.

Lemma SplitN_byte_none (c : ascii) (s : string) :
  hasByte c s = false -> SplitN s (String c "") 2 = [s].
Proof. intros H. simpl. now rewrite (Cut_byte_none c s H). Qed.

Lemma windowsLine_no_colon (g : GPUInfo) (l : string) :
  hasByte ":" l = false -> windowsLine g l = g.
Proof.
  intros H. apply (hasByte_TrimSpace ":" l) in H. unfold windowsLine. cbv zeta.
  destruct (isEmpty (TrimSpace l)); [reflexivity|].
  now rewrite (SplitN_byte_none ":" _ H).
Qed.

Lemma lshwLine_no_colon (g : GPUInfo) (l : string) :
  hasByte ":" l = false -> lshwLine g l = g.
Proof.
  intros H. apply (hasByte_TrimSpace ":" l) in H. unfold lshwLine. cbv zeta.
  rewrite (hasByte_HasPrefix ":" _ "product:" eq_refl H).
  rewrite (hasByte_HasPrefix ":" _ "vendor:" eq_refl H).
  now rewrite (hasByte_Contains ":" _ "size:" eq_refl H).
Qed.

Lemma macLine_no_colon (g : GPUInfo) (l : string) :
  hasByte ":" l = false -> macLine g l = g.
Proof.
  intros H. apply (hasByte_TrimSpace ":" l) in H. unfold macLine. cbv zeta.
  rewrite (hasByte_Contains ":" _ "Chipset Model:" eq_refl H).
  rewrite (hasByte_Contains ":" _ ":" eq_refl H).
  now rewrite andb_false_r.
Qed.

Lemma glxLine_no_colon (output : string) (gpus : list GPUInfo) (l : string) :
  hasByte ":" l = false -> glxLine output gpus l = gpus.
Proof.
  intros H. unfold glxLine.
  now rewrite (hasByte_Contains ":" _ "OpenGL renderer string:" eq_refl H).
Qed.

Lemma fold_left_fixed {A B : Type} (step : B -> A -> B) (xs : list A) (b : B) :
  (forall x, x ∈ xs -> step b x = b) -> fold_left step xs b = b.
Proof.
  intros H. apply (fold_left_invariant (fun y => y = b)); [|reflexivity].
  intros y x Hx ->. now apply H.
Qed.

Lemma block_lines_no_colon (output b l : string) :
  hasByte ":" output = false ->
  b ∈ splitIntoBlocks output -> l ∈ linesOf b -> hasByte ":" l = false.
Proof.
  intros H Hb Hl. destruct (splitIntoBlocks_line output b l Hb Hl) as [Hin _].
  pose proof (linesOf_hasByte ":" output H) as Hall.
  rewrite Forall_forall in Hall. now apply Hall.
Qed.

(** X4.  The key-value parsers read nothing from a line without a colon: a text
    without any colon yields no GPU from the Windows text parser, the
    hardware-listing parser, the macOS parser and the renderer parser. *)
Theorem parsers_need_colon (output : string) :
  hasByte ":" output = false ->
  (Contains output "{" && Contains output "}" = false ->
   parseWindowsGPUOutput output = [])
  /\ parseLinuxLshwOutput output = []
  /\ parseMacGPUOutput output = []
  /\ parseLinuxGLXOutput output = [].
Proof.
  intros H.
  assert (Hlines : forall (step : GPUInfo -> string -> GPUInfo) b g,
             (forall g l, hasByte ":" l = false -> step g l = g) ->
             b ∈ splitIntoBlocks output ->
             fold_left step (Split b (String nl "")) g = g).
  { intros step b g Hstep Hb. apply fold_left_fixed. intros l Hl.
    apply Hstep. now apply (block_lines_no_colon output b l). }
  split; [|split; [|split]].
  - intros Htext. unfold parseWindowsGPUOutput. rewrite Htext.
    apply fold_left_fixed. intros b Hb. unfold windowsBlock. cbv zeta.
    now rewrite (Hlines windowsLine b _ windowsLine_no_colon Hb).
  - unfold parseLinuxLshwOutput.
    apply fold_left_fixed. intros b Hb. unfold lshwBlock. cbv zeta.
    now rewrite (Hlines lshwLine b _ lshwLine_no_colon Hb).
  - unfold parseMacGPUOutput.
    apply fold_left_fixed. intros b Hb. unfold macBlock. cbv zeta.
    now rewrite (Hlines macLine b _ macLine_no_colon Hb).
  - unfold parseLinuxGLXOutput.
    apply fold_left_fixed. intros l Hl. apply glxLine_no_colon.
    pose proof (linesOf_hasByte ":" output H) as Hall.
    rewrite Forall_forall in Hall. now apply Hall.
Qed.

Lemma parsers_need_colon_witness :
  parseWindowsGPUOutput (unlines ["Name=NVIDIA GeForce RTX 3080"; "AdapterRAM=4293918720"])
  = [].
Proof.
  apply parsers_need_colon; reflexivity.
Defined.

(* ===================================================================== *)
(** ** Classification and case *)
(* ===================================================================== *)

(** X5.  The vendor classifier, the generic filter and the vendor normaliser see
    their input only through its lower-casing, and normalising a normalised
    vendor changes nothing. *)
Theorem classification_ignores_case (s : string) :
  determineVendorFromOutput (ToLower s) = determineVendorFromOutput s
  /\ isGenericGPU (ToLower s) = isGenericGPU s
  /\ normalizeVendorName (ToLower s) = normalizeVendorName s
  /\ normalizeVendorName (normalizeVendorName s) = normalizeVendorName s.
Proof.
  repeat split.
  - unfold determineVendorFromOutput, determineVendorFromOutputWith. now rewrite ToLower_idemp.
  - unfold isGenericGPU. now rewrite ToLower_idemp.
  - unfold normalizeVendorName, normalizeVendorNameWith. now rewrite ToLower_idemp.
  - destruct (normalizeVendorName_cases s) as [H|H].
    + apply list_elem_of_In in H. simpl in H.
      destruct H as [H|[H|[H|[H|[H|[]]]]]]; rewrite <- H; reflexivity.
    + rewrite H. unfold normalizeVendorName, normalizeVendorNameWith in *. rewrite !ToLower_idemp.
      exact H.
Qed.

(** X6.  The AMD pattern "ati" occurs in "corporation".  So a model, or a vendor
    reported by the hardware listing, whose lower-casing contains the word
    corporation is classified as AMD, unless an NVIDIA pattern comes first.
    This holds whatever the lower-casing function [toLower] is. *)
Theorem corporation_is_amd (toLower : string -> string) (s : string) :
  Contains (toLower s) "corporation" = true ->
  (~ matchesGroup toLower s nvidiaPatterns ->
   determineVendorFromOutputWith toLower s = "amd")
  /\ (Contains (toLower s) "nvidia" = false -> normalizeVendorNameWith toLower s = "amd").
Proof.
  intros Hcorp.
  assert (Hati : Contains (toLower s) "ati" = true).
  { eapply Contains_trans; [exact Hcorp | reflexivity]. }
  split.
  - intros Hnv. unfold determineVendorFromOutputWith.
    rewrite (existsb_not_matchesGroup toLower s nvidiaPatterns Hnv).
    assert (Hamd : existsb (Contains (toLower s)) amdPatterns = true).
    { apply existsb_exists. exists "ati". split; [simpl; tauto | exact Hati]. }
    now rewrite Hamd.
  - intros Hnv. unfold normalizeVendorNameWith. rewrite Hnv, Hati.
    now rewrite orb_true_r.
Qed.

Lemma corporation_is_amd_witness :
  determineVendorFromOutput "Intel Corporation UHD Graphics 620" = "amd"
  /\ normalizeVendorName "Intel Corporation" = "amd".
Proof.
  split.
  - destruct (corporation_is_amd ToLower "Intel Corporation UHD Graphics 620")
      as [H _]; [reflexivity|].
    apply H. intros (p & Hp & Hc). apply list_elem_of_In in Hp. simpl in Hp.
    repeat destruct Hp as [<-|Hp]; try discriminate Hc. exact Hp.
  - destruct (corporation_is_amd ToLower "Intel Corporation") as [_ H]; [reflexivity|].
    apply H. reflexivity.
Defined.

(* ===================================================================== *)
(** ** Memory text without a number *)
(* ===================================================================== *)

Lemma findFrom_digits_none (s : string) (pos : nat) :
  noDigit s = true -> findFrom digitsRe pos s = None.
Proof.
  revert pos. induction s as [|c s IH]; intros pos H; [reflexivity|].
  simpl in H. apply andb_true_iff in H as [Hc Hs]. apply negb_true_iff in Hc.
  simpl. rewrite Hc. now apply IH.
Qed.

(** X7.  A text without any digit is returned as it is. *)
Theorem formatMemory_no_digit (memStr : string) :
  noDigit memStr = true -> formatMemory memStr = memStr.
Proof.
  intros H. unfold formatMemory, FindString. now rewrite findFrom_digits_none.
Qed.

Lemma formatMemory_no_digit_witness : formatMemory "N/A" = "N/A".
Proof. apply formatMemory_no_digit. reflexivity. Defined.

(* ===================================================================== *)
(** ** More on the merge: similarity, idempotence, nothing lost *)
(* ===================================================================== *)

Lemma areGPUsSimilar_refl (a : GPUInfo) : areGPUsSimilar a a = true.
Proof.
  unfold areGPUsSimilar. now rewrite String.eqb_refl, Contains_refl.
Qed.

Lemma areGPUsSimilar_sym (a b : GPUInfo) : areGPUsSimilar a b = areGPUsSimilar b a.
Proof.
  unfold areGPUsSimilar. rewrite String.eqb_sym.
  now rewrite (orb_comm (Contains (Model a) (Model b))).
Qed.

Lemma areGPUsSimilar_congr (a b n : GPUInfo) :
  Vendor a = Vendor b -> Model a = Model b ->
  areGPUsSimilar a n = areGPUsSimilar b n.
Proof. intros Hv Hm. unfold areGPUsSimilar. now rewrite Hv, Hm. Qed.

(** X8.  Similarity is reflexive and symmetric, but it does not compose:
    "GeForce" and "RTX" are both similar to "GeForce RTX" and not to each
    other. *)
Theorem areGPUsSimilar_not_transitive :
  (forall a, areGPUsSimilar a a = true)
  /\ (forall a b, areGPUsSimilar a b = areGPUsSimilar b a)
  /\ areGPUsSimilar (gpuNamed "GeForce") (gpuNamed "GeForce RTX") = true
  /\ areGPUsSimilar (gpuNamed "GeForce RTX") (gpuNamed "RTX") = true
  /\ areGPUsSimilar (gpuNamed "GeForce") (gpuNamed "RTX") = false.
Proof.
  split; [exact areGPUsSimilar_refl|]. split; [exact areGPUsSimilar_sym|].
  repeat split.
Qed.

(** [n] has nothing to give to [r]: each of the three fields is set in [r]
    or empty in [n]. *)
Lemma backfill_id_iff (r n : GPUInfo) :
  backfill r n = r <->
  (Memory r <> "" \/ Memory n = "")
  /\ (DriverVersion r <> "" \/ DriverVersion n = "")
  /\ (PCIAddress r <> "" \/ PCIAddress n = "").
Proof.
  destruct r as [v m mem drv pci raw err], n as [v' m' mem' drv' pci' raw' err'].
  unfold backfill. simpl.
  destruct mem, mem', drv, drv', pci, pci'; simpl; split;
    try (intros _; repeat split; (now left) || (now right));
    try (intros H; discriminate H);
    try (intros (H1 & H2 & H3); reflexivity);
    intros (H1 & H2 & H3);
    repeat match goal with
           | H : _ \/ _ |- _ => destruct H as [H|H]; try congruence; try discriminate H
           end.
Qed.

Lemma backfill_idem (r n : GPUInfo) : backfill (backfill r n) n = backfill r n.
Proof.
  apply backfill_id_iff.
  destruct (backfill_firstWins r n) as (-> & -> & ->). unfold firstWins.
  repeat split.
  - destruct (Memory r) eqn:E; simpl; [destruct (Memory n); auto | left; discriminate].
  - destruct (DriverVersion r) eqn:E; simpl;
      [destruct (DriverVersion n); auto | left; discriminate].
  - destruct (PCIAddress r) eqn:E; simpl;
      [destruct (PCIAddress n); auto | left; discriminate].
Qed.

Lemma backfill_self (n : GPUInfo) : backfill n n = n.
Proof.
  apply backfill_id_iff.
  repeat split.
  - destruct (Memory n); [now right | left; discriminate].
  - destruct (DriverVersion n); [now right | left; discriminate].
  - destruct (PCIAddress n); [now right | left; discriminate].
Qed.

Lemma backfill_id_keeps (r r' n : GPUInfo) :
  keepsFirstObserved r r' -> backfill r n = r -> backfill r' n = r'.
Proof.
  intros (_ & _ & _ & _ & Hm & Hd & Hp). rewrite !backfill_id_iff.
  intros (H1 & H2 & H3). repeat split.
  - destruct H1 as [H1|H1]; [left; rewrite (Hm H1); exact H1 | now right].
  - destruct H2 as [H2|H2]; [left; rewrite (Hd H2); exact H2 | now right].
  - destruct H3 as [H3|H3]; [left; rewrite (Hp H3); exact H3 | now right].
Qed.

Lemma mergeOne_cases (result : list GPUInfo) (n : GPUInfo) :
  (exists i r, list_find (fun x => areGPUsSimilar x n) result = Some (i, r)
               /\ result !! i = Some r
               /\ mergeOne result n = <[i := backfill r n]> result)
  \/ (list_find (fun x => areGPUsSimilar x n) result = None
      /\ mergeOne result n = result ++ [n]).
Proof.
  unfold mergeOne.
  destruct (list_find (fun x => areGPUsSimilar x n) result) as [[i r]|] eqn:Hf.
  - left. exists i, r. apply list_find_Some in Hf as Hf'. destruct Hf' as (Hi & _).
    rewrite Hi. auto.
  - right. auto.
Qed.

Lemma absorbed_iff (result : list GPUInfo) (n : GPUInfo) :
  absorbed result n <->
  exists i r, list_find (fun x => areGPUsSimilar x n) result = Some (i, r)
              /\ backfill r n = r.
Proof.
  unfold absorbed. split.
  - intros Habs.
    destruct (mergeOne_cases result n) as [(i & r & Hf & Hi & Hm)|(Hf & Hm)].
    + exists i, r. split; [exact Hf|].
      rewrite Hm in Habs.
      assert (Hl : <[i := backfill r n]> result !! i = Some (backfill r n)).
      { apply list_lookup_insert_eq. eapply lookup_lt_Some; eassumption. }
      rewrite Habs, Hi in Hl. now injection Hl.
    + rewrite Hm in Habs. apply (f_equal length) in Habs.
      rewrite length_app in Habs. simpl in Habs. lia.
  - intros (i & r & Hf & Hb).
    destruct (mergeOne_cases result n) as [(i' & r' & Hf' & Hi & Hm)|(Hf' & Hm)];
      [|congruence].
    rewrite Hf in Hf'. injection Hf' as <- <-.
    rewrite Hm, Hb. now apply list_insert_id.
Qed.

Lemma mergeOne_absorbs (result : list GPUInfo) (n : GPUInfo) :
  absorbed (mergeOne result n) n.
Proof.
  apply absorbed_iff.
  destruct (mergeOne_cases result n) as [(i & r & Hf & Hi & ->)|(Hf & ->)].
  - exists i, (backfill r n). split; [|apply backfill_idem].
    apply list_find_Some in Hf as (_ & Hsim & Hfirst).
    apply list_find_Some. split; [|split].
    + apply list_lookup_insert_eq. eapply lookup_lt_Some; eassumption.
    + destruct (backfill_fields r n) as (Hv & Hm & _).
      now rewrite (areGPUsSimilar_congr _ r n Hv Hm).
    + intros j y Hj Hlt. rewrite list_lookup_insert_ne in Hj by lia.
      now apply (Hfirst j y).
  - exists (length result), n. split; [|apply backfill_self].
    rewrite (list_find_app_r _ result [n] Hf). simpl.
    rewrite decide_True by (apply Is_true_true; apply areGPUsSimilar_refl).
    reflexivity.
Qed.

Lemma absorbed_preserved (result : list GPUInfo) (n m : GPUInfo) :
  absorbed result n -> absorbed (mergeOne result m) n.
Proof.
  rewrite !absorbed_iff. intros (i & r & Hf & Hb).
  apply list_find_Some in Hf as (Hi & Hsim & Hfirst).
  destruct (mergeOne_frame result m i r Hi) as (r' & Hi' & Hk).
  exists i, r'. split; [|now apply (backfill_id_keeps r r' n)].
  apply list_find_Some. split; [exact Hi'|]. split.
  - destruct Hk as (Hv & Hm & _).
    now rewrite (areGPUsSimilar_congr r' r n Hv Hm).
  - intros j y Hj Hlt Hy.
    assert (Hjlt : (j < length result)%nat)
      by (apply lookup_lt_Some in Hi; lia).
    apply lookup_lt_is_Some in Hjlt as [x Hx].
    destruct (mergeOne_frame result m j x Hx) as (x' & Hx' & Hkx).
    rewrite Hj in Hx'. injection Hx' as <-.
    destruct Hkx as (Hv & Hm & _).
    rewrite (areGPUsSimilar_congr y x n Hv Hm) in Hy.
    now apply (Hfirst j x).
Qed.

Lemma merge_absorbs_all (new seen : list GPUInfo) (result : list GPUInfo) :
  (forall n, n ∈ seen -> absorbed result n) ->
  forall n, n ∈ seen ++ new -> absorbed (fold_left mergeOne new result) n.
Proof.
  revert seen result. induction new as [|m new IH]; intros seen result Hseen n Hn.
  - rewrite app_nil_r in Hn. now apply Hseen.
  - simpl. apply (IH (seen ++ [m])).
    + intros x Hx. apply elem_of_app in Hx as [Hx|Hx].
      * apply absorbed_preserved. now apply Hseen.
      * apply list_elem_of_singleton in Hx. subst x. apply mergeOne_absorbs.
    + now rewrite <- app_assoc.
Qed.

Lemma merge_absorbed_id (new : list GPUInfo) (result : list GPUInfo) :
  (forall n, n ∈ new -> absorbed result n) -> fold_left mergeOne new result = result.
Proof.
  induction new as [|m new IH]; intros Habs; simpl; [reflexivity|].
  rewrite (Habs m (list_elem_of_here _ _)).
  apply IH. intros n Hn. apply Habs. now apply list_elem_of_further.
Qed.

(** X9.  Merging the same probe result a second time changes nothing. *)
Theorem mergeLinuxGPUInfo_idempotent (existing new : list GPUInfo) :
  mergeLinuxGPUInfo (mergeLinuxGPUInfo existing new) new
  = mergeLinuxGPUInfo existing new.
Proof.
  unfold mergeLinuxGPUInfo. apply merge_absorbed_id.
  intros n Hn. apply (merge_absorbs_all new [] existing).
  - intros x Hx. inversion Hx.
  - exact Hn.
Qed.

Lemma mergeOne_length_le (result : list GPUInfo) (n : GPUInfo) :
  (length (mergeOne result n) <= S (length result))%nat.
Proof.
  destruct (mergeOne_cases result n) as [(i & r & _ & _ & ->)|(_ & ->)].
  - rewrite length_insert. lia.
  - rewrite length_app. simpl. lia.
Qed.

Lemma mergeLinuxGPUInfo_length_le (existing new : list GPUInfo) :
  (length (mergeLinuxGPUInfo existing new) <= length existing + length new)%nat.
Proof.
  unfold mergeLinuxGPUInfo. revert existing.
  induction new as [|n new IH]; intros existing; simpl; [lia|].
  specialize (IH (mergeOne existing n)).
  pose proof (mergeOne_length_le existing n). lia.
Qed.

(** X10.  The merge neither loses nor invents a GPU.  The merged set is at least
    as long as the existing one and at most as long as both together; every
    new record is similar to a record of the merged set; and every record of
    the merged set has the vendor and the model of an existing or of a new
    record. *)
Theorem mergeLinuxGPUInfo_loses_nothing (existing new : list GPUInfo) :
  (length existing <= length (mergeLinuxGPUInfo existing new)
   <= length existing + length new)%nat
  /\ (forall n, n ∈ new ->
        exists r, r ∈ mergeLinuxGPUInfo existing new /\ areGPUsSimilar r n = true)
  /\ (forall r, r ∈ mergeLinuxGPUInfo existing new ->
        exists x, x ∈ existing ++ new /\ Vendor r = Vendor x /\ Model r = Model x).
Proof.
  split; [|split].
  - split; [apply mergeLinuxGPUInfo_length | apply mergeLinuxGPUInfo_length_le].
  - intros n Hn.
    assert (Habs : absorbed (mergeLinuxGPUInfo existing new) n).
    { apply (merge_absorbs_all new [] existing); [intros x Hx; inversion Hx | exact Hn]. }
    apply absorbed_iff in Habs as (i & r & Hf & _).
    apply list_find_Some in Hf as (Hi & Hsim & _).
    exists r. split; [eapply list_elem_of_lookup_2; eassumption|].
    now apply Is_true_true.
  - apply Forall_forall. apply mergeLinuxGPUInfo_Forall.
    + intros r x (y & Hy & Hv & Hm). exists y. split; [exact Hy|].
      destruct (backfill_fields r x) as (-> & -> & _). auto.
    + apply Forall_forall. intros x Hx. exists x. split; [|auto].
      apply elem_of_app. now left.
    + apply Forall_forall. intros x Hx. exists x. split; [|auto].
      apply elem_of_app. now right.
Qed.

(* ===================================================================== *)
(** ** The calls that detection makes *)
(* ===================================================================== *)

Lemma tryLinuxLspci_trace (d : GPUDetector) (w : World) (tr : list Call) :
  snd (tryLinuxLspci d w tr)
  = tr ++ Exec (timeout d) "lspci" lspciPreferredArgs
       :: match snd (commandOutput w (timeout d) "lspci" lspciPreferredArgs) with
          | Some _ => [Exec (timeout d) "lspci" []]
          | None => []
          end.
Proof.
  unfold tryLinuxLspci, bind, runCommandWithTimeout, ret.
  destruct (commandOutput w (timeout d) "lspci" lspciPreferredArgs) as [o1 [e1|]];
    cbn [snd]; [|reflexivity].
  destruct (commandOutput w (timeout d) "lspci" []) as [o2 [e2|]];
    cbn [snd]; now rewrite <- app_assoc.
Qed.

Lemma tryLinuxLshw_trace (d : GPUDetector) (w : World) (tr : list Call) :
  snd (tryLinuxLshw d w tr) = tr ++ [Exec (timeout d) "lshw" lshwArgs].
Proof.
  unfold tryLinuxLshw, bind, runCommandWithTimeout, ret.
  now destruct (commandOutput w (timeout d) "lshw" lshwArgs) as [o [e|]].
Qed.

Lemma tryLinuxNvidiaProc_trace (w : World) (tr : list Call) :
  snd (tryLinuxNvidiaProc w tr) = tr ++ [ReadFile nvidiaProcPath].
Proof.
  unfold tryLinuxNvidiaProc, bind, osReadFile, ret.
  now destruct (fileContent w nvidiaProcPath) as [o [e|]].
Qed.

Lemma tryLinuxGLX_trace (d : GPUDetector) (w : World) (tr : list Call) :
  snd (tryLinuxGLX d w tr) = tr ++ [Exec (timeout d) "glxinfo" []].
Proof.
  unfold tryLinuxGLX, bind, runCommandWithTimeout, ret.
  now destruct (commandOutput w (timeout d) "glxinfo" []) as [o [e|]].
Qed.

Lemma detectLinuxGPUs_trace (d : GPUDetector) (w : World) :
  trace (detectLinuxGPUs d) w = linuxCalls d w.
Proof.
  unfold trace, run, detectLinuxGPUs, bind.
  pose proof (tryLinuxLspci_trace d w []) as H1.
  destruct (tryLinuxLspci d w []) as [g1 tr1]. cbn [snd] in H1.
  pose proof (tryLinuxLshw_trace d w tr1) as H2.
  destruct (tryLinuxLshw d w tr1) as [g2 tr2]. cbn [snd] in H2.
  pose proof (tryLinuxNvidiaProc_trace w tr2) as H3.
  destruct (tryLinuxNvidiaProc w tr2) as [g3 tr3]. cbn [snd] in H3.
  pose proof (tryLinuxGLX_trace d w tr3) as H4.
  destruct (tryLinuxGLX d w tr3) as [g4 tr4]. cbn [snd] in H4.
  assert (Htr : tr4 = linuxCalls d w).
  { subst tr4 tr3 tr2 tr1. unfold linuxCalls. rewrite app_nil_l.
    rewrite <- !app_assoc. reflexivity. }
  match goal with |- context [(length ?e =? 0)%nat] => destruct (length e =? 0)%nat end;
    exact Htr.
Qed.

(** X11.  On Linux every probe is attempted, whatever the earlier ones found: the
    preferred bus listing, the simple one only when the preferred failed,
    the hardware listing, the driver file and the renderer query, in this
    order. *)
Theorem detectLinuxGPUs_probes_all (d : GPUDetector) (w : World) :
  trace (detectLinuxGPUs d) w = linuxCalls d w.
Proof. apply detectLinuxGPUs_trace. Qed.

Lemma detectWindowsGPUs_trace (d : GPUDetector) (w : World) :
  trace (detectWindowsGPUs d) w = [cimCall d]
  \/ trace (detectWindowsGPUs d) w = [cimCall d; wmiCall d]
  \/ trace (detectWindowsGPUs d) w = [cimCall d; wmiCall d; wmicCall d].
Proof.
  unfold trace, run, detectWindowsGPUs, windowsMethods, tryMethods,
    detectWindowsGPUsPowerShellCIM, detectWindowsGPUsPowerShellWMI,
    detectWindowsGPUsWMIC, bind, runCommandWithTimeout, ret, cimCall, wmiCall, wmicCall.
  destruct (commandOutput w (timeout d) "powershell"
              ["-NoProfile"; "-Command"; cimCommand]) as [o1 [e1|]];
    [|destruct (parseWindowsGPUOutput o1); [|now left]];
    (destruct (commandOutput w (timeout d) "powershell"
                 ["-NoProfile"; "-Command"; wmiCommand]) as [o2 [e2|]];
     [|destruct (parseWindowsGPUOutput o2); [|right; now left]]);
    (destruct (commandOutput w (timeout d) "wmic" wmicArgs) as [o3 [e3|]];
     [|destruct (parseWindowsGPUOutput o3)]); right; now right.
Qed.

Lemma detectMacGPUs_trace (d : GPUDetector) (w : World) :
  trace (detectMacGPUs d) w = [macCall d].
Proof.
  unfold trace, run, detectMacGPUs, bind, runCommandWithTimeout, ret, macCall.
  now destruct (commandOutput w (timeout d) "system_profiler" ["SPDisplaysDataType"])
    as [o [e|]].
Qed.

Lemma probeCall_exec (d : GPUDetector) (name : string) (args : list string) :
  name ∈ probeCommands -> probeCall d (Exec (timeout d) name args).
Proof. intros H. left. now exists name, args. Qed.

(** X12.  Detection runs nothing but its six programs, each under the detector's
    own timeout, and reads no file but the NVIDIA driver file; it makes at
    most five calls, one on macOS and none on an unsupported platform. *)
Theorem DetectGPUs_calls (d : GPUDetector) (w : World) :
  Forall (probeCall d) (trace (DetectGPUs d) w)
  /\ (length (trace (DetectGPUs d) w) <= 5)%nat
  /\ (GOOS w = "darwin" -> trace (DetectGPUs d) w = [macCall d])
  /\ (unsupportedOS w -> trace (DetectGPUs d) w = []).
Proof.
  assert (Hin : forall n, n ∈ probeCommands <-> In n probeCommands)
    by (intros n; apply list_elem_of_In).
  assert (Hcalls : forall cs,
             (forall c, In c cs ->
                c = ReadFile nvidiaProcPath
                \/ exists name args, c = Exec (timeout d) name args
                                      /\ In name probeCommands) ->
             Forall (probeCall d) cs).
  { intros cs H. apply Forall_forall. intros c Hc. apply list_elem_of_In in Hc.
    destruct (H c Hc) as [->|(name & args & -> & Hn)]; [now right|].
    apply probeCall_exec. now apply Hin. }
  assert (Hwin : Forall (probeCall d) (trace (detectWindowsGPUs d) w)
                 /\ (length (trace (detectWindowsGPUs d) w) <= 5)%nat).
  { destruct (detectWindowsGPUs_trace d w) as [->|[->| ->]]; split;
      try (simpl; lia); apply Hcalls; intros c Hc; simpl in Hc;
      repeat destruct Hc as [<-|Hc]; try contradiction;
      right; eexists _, _; (split; [reflexivity | simpl; tauto]). }
  assert (Hlin : Forall (probeCall d) (trace (detectLinuxGPUs d) w)
                 /\ (length (trace (detectLinuxGPUs d) w) <= 5)%nat).
  { rewrite detectLinuxGPUs_trace. unfold linuxCalls.
    destruct (snd (commandOutput w (timeout d) "lspci" lspciPreferredArgs));
      split; try (simpl; lia); apply Hcalls; intros c Hc; simpl in Hc;
      repeat destruct Hc as [<-|Hc]; try contradiction;
      try (now left);
      right; eexists _, _; (split; [reflexivity | simpl; tauto]). }
  assert (Hmac : Forall (probeCall d) (trace (detectMacGPUs d) w)
                 /\ (length (trace (detectMacGPUs d) w) <= 5)%nat).
  { rewrite detectMacGPUs_trace. split; [|simpl; lia].
    apply Hcalls. intros c [<-|[]].
    right. eexists _, _. split; [reflexivity | simpl; tauto]. }
  unfold trace, run, DetectGPUs in *.
  split; [|split; [|split]].
  - destruct (String.eqb (GOOS w) "windows"); [apply Hwin|].
    destruct (String.eqb (GOOS w) "linux"); [apply Hlin|].
    destruct (String.eqb (GOOS w) "darwin"); [apply Hmac | constructor].
  - destruct (String.eqb (GOOS w) "windows"); [apply Hwin|].
    destruct (String.eqb (GOOS w) "linux"); [apply Hlin|].
    destruct (String.eqb (GOOS w) "darwin"); [apply Hmac | simpl; lia].
  - intros Hos. rewrite Hos. apply (detectMacGPUs_trace d w).
  - intros (H1 & H2 & H3). apply String.eqb_neq in H1, H2, H3.
    now rewrite H1, H2, H3.
Qed.

Lemma DetectGPUs_calls_witness :
  trace (DetectGPUs NewGPUDetector) headlessMac = [macCall NewGPUDetector]
  /\ trace (DetectGPUs NewGPUDetector) (deadHost "plan9") = [].
Proof.
  destruct (DetectGPUs_calls NewGPUDetector headlessMac) as (_ & _ & H & _).
  destruct (DetectGPUs_calls NewGPUDetector (deadHost "plan9")) as (_ & _ & _ & H').
  split; [apply H; reflexivity|].
  apply H'. repeat split; discriminate.
Defined.

(* ===================================================================== *)
(** ** The NVIDIA driver file *)
(* ===================================================================== *)

(** X13.  On Linux, a readable NVIDIA driver file alone puts an NVIDIA record into
    the result: a record similar to the one built from the file, with a
    driver version whenever the file shows one. *)
Theorem DetectGPUs_nvidia_driver_file (d : GPUDetector) (w : World) (data : string) :
  GOOS w = "linux" ->
  fileContent w nvidiaProcPath = (data, None) ->
  exists g,
    g ∈ fst (result (DetectGPUs d) w)
    /\ Vendor g = "nvidia"
    /\ areGPUsSimilar g (nvidiaProcRecord data) = true
    /\ (extractNvidiaVersionFromProc data <> "" -> DriverVersion g <> "").
Proof.
  intros Hos Hfile.
  unfold result, run, DetectGPUs. rewrite Hos.
  change (String.eqb "linux" "windows") with false.
  change (String.eqb "linux" "linux") with true. cbv iota.
  unfold detectLinuxGPUs, bind.
  destruct (tryLinuxLspci d w []) as [g1 tr1].
  destruct (tryLinuxLshw d w tr1) as [g2 tr2].
  assert (H3 : fst (tryLinuxNvidiaProc w tr2) = nvidiaProcRecord data).
  { unfold tryLinuxNvidiaProc, bind, osReadFile, ret. now rewrite Hfile. }
  destruct (tryLinuxNvidiaProc w tr2) as [g3 tr3]. cbn [fst] in H3. subst g3.
  destruct (tryLinuxGLX d w tr3) as [g4 tr4].
  set (b := if (0 <? length g2)%nat then _ else _).
  change (negb (String.eqb (Vendor (nvidiaProcRecord data)) "unknown")) with true.
  cbv iota.
  change (mergeLinuxGPUInfo b [nvidiaProcRecord data])
    with (mergeOne b (nvidiaProcRecord data)).
  set (c := mergeOne b (nvidiaProcRecord data)).
  assert (Hc : absorbed c (nvidiaProcRecord data)) by apply mergeOne_absorbs.
  apply absorbed_iff in Hc as (i & r & Hf & Hb).
  apply list_find_Some in Hf as (Hi & Hsim & _). apply Is_true_true in Hsim.
  set (e := if (0 <? length g4)%nat then mergeLinuxGPUInfo c g4 else c).
  assert (He : exists r', e !! i = Some r' /\ keepsFirstObserved r r').
  { subst e. destruct (0 <? length g4)%nat.
    - now apply mergeLinuxGPUInfo_frame.
    - exists r. split; [exact Hi | apply keepsFirstObserved_refl]. }
  destruct He as (r' & Hi' & Hv & Hm & _ & _ & _ & Hd & _).
  assert (Hne : (length e =? 0)%nat = false).
  { apply Nat.eqb_neq. apply lookup_lt_Some in Hi'. lia. }
  rewrite Hne. unfold ret. cbn [fst].
  exists r'. split; [eapply list_elem_of_lookup_2; eassumption|].
  assert (Hsim' : areGPUsSimilar r' (nvidiaProcRecord data) = true)
    by now rewrite (areGPUsSimilar_congr r' r _ Hv Hm).
  split; [|split; [exact Hsim'|]].
  - apply areGPUsSimilar_spec in Hsim' as [Hvend _]. exact Hvend.
  - intros Hver. apply backfill_id_iff in Hb as (_ & [Hb|Hb] & _).
    + rewrite (Hd Hb). exact Hb.
    + contradiction.
Qed.

Lemma DetectGPUs_nvidia_driver_file_witness :
  exists g,
    g ∈ fst (result (DetectGPUs NewGPUDetector) linuxWorkstation)
    /\ Vendor g = "nvidia"
    /\ areGPUsSimilar g
         (nvidiaProcRecord "NVRM version: NVIDIA UNIX x86_64 Kernel Module  535.104.05")
       = true
    /\ (extractNvidiaVersionFromProc
          "NVRM version: NVIDIA UNIX x86_64 Kernel Module  535.104.05" <> "" ->
        DriverVersion g <> "").
Proof.
  apply (DetectGPUs_nvidia_driver_file NewGPUDetector linuxWorkstation); reflexivity.
Defined.

(* ===================================================================== *)
(** ** The encoder table and the configuration *)
(* ===================================================================== *)

Lemma In_elem_of {A : Type} (x : A) (l : list A) : In x l -> x ∈ l.
Proof. apply list_elem_of_In. Qed.

Lemma ConfigureForGPU_row (goos : string) (gpu : GPUInfo) :
  ConfigureForGPU goos gpu ∈ encoderRows
  /\ (ConfigureForGPU goos gpu = ("none", "libx264", "medium")
      <-> ~ Vendor gpu ∈ hardwareVendors)
  /\ (goos <> "windows" ->
      fst (fst (ConfigureForGPU goos gpu)) <> "qsv"
      /\ fst (fst (ConfigureForGPU goos gpu)) <> "d3d11va").
Proof.
  assert (Hcases : Vendor gpu = "nvidia" \/ Vendor gpu = "intel" \/ Vendor gpu = "amd"
                   \/ Vendor gpu = "apple" \/ ~ Vendor gpu ∈ hardwareVendors).
  { destruct (decide (Vendor gpu ∈ hardwareVendors)) as [H|H]; [|tauto].
    apply list_elem_of_In in H. simpl in H.
    destruct H as [H|[H|[H|[H|[]]]]]; rewrite <- H; tauto. }
  assert (Hnone : ~ Vendor gpu ∈ hardwareVendors ->
                  getAccelerationMethod goos gpu = "none").
  { intros H. unfold getAccelerationMethod.
    destruct (String.eqb (Vendor gpu) "nvidia") eqn:E1;
      [apply String.eqb_eq in E1; exfalso; apply H; rewrite E1;
       apply In_elem_of; simpl; tauto|].
    destruct (String.eqb (Vendor gpu) "intel") eqn:E2;
      [apply String.eqb_eq in E2; exfalso; apply H; rewrite E2;
       apply In_elem_of; simpl; tauto|].
    destruct (String.eqb (Vendor gpu) "amd") eqn:E3;
      [apply String.eqb_eq in E3; exfalso; apply H; rewrite E3;
       apply In_elem_of; simpl; tauto|].
    destruct (String.eqb (Vendor gpu) "apple") eqn:E4;
      [apply String.eqb_eq in E4; exfalso; apply H; rewrite E4;
       apply In_elem_of; simpl; tauto|].
    reflexivity. }
  assert (Hin : forall v, In v hardwareVendors -> v ∈ hardwareVendors)
    by (intros v; apply In_elem_of).
  unfold ConfigureForGPU.
  destruct Hcases as [Hv|[Hv|[Hv|[Hv|Hv]]]].
  1-4: unfold getAccelerationMethod; rewrite Hv;
    destruct (String.eqb goos "windows") eqn:Ew; simpl;
    (split; [apply In_elem_of; simpl; tauto|]);
    (split; [split; [discriminate | intros H; exfalso; apply H, Hin; simpl; tauto]|]);
    intros Hw; try (apply String.eqb_eq in Ew; contradiction);
    split; discriminate.
  rewrite (Hnone Hv). simpl.
  split; [apply In_elem_of; simpl; tauto|].
  split; [tauto|]. intros _. split; discriminate.
Qed.

(** X14.  [ConfigureForGPU] always returns a row of the table.  The row is the
    software one exactly for a vendor outside nvidia, intel, amd, apple, and
    the Windows-only accelerations qsv and d3d11va are chosen on Windows
    only. *)
Theorem ConfigureForGPU_table (goos : string) (gpu : GPUInfo) :
  ConfigureForGPU goos gpu ∈ encoderRows
  /\ (ConfigureForGPU goos gpu = ("none", "libx264", "medium")
      <-> ~ Vendor gpu ∈ hardwareVendors)
  /\ (goos <> "windows" ->
      fst (fst (ConfigureForGPU goos gpu)) <> "qsv"
      /\ fst (fst (ConfigureForGPU goos gpu)) <> "d3d11va").
Proof. apply ConfigureForGPU_row. Qed.

Lemma ConfigureForGPU_table_witness :
  ConfigureForGPU "linux" (mkGPUInfo matroxVendor "G200eR2" "16 MB" "" "" "" "")
  = ("none", "libx264", "medium").
Proof.
  apply ConfigureForGPU_table.
  intros H. apply list_elem_of_In in H. simpl in H.
  repeat destruct H as [H|H]; try discriminate H. exact H.
Defined.

(** X15.  [configureProcessing] never fails and never touches quality or paths.
    It chooses a row of the encoder table, and the software row exactly when
    there is no GPU or the first GPU's vendor has no hardware encoder; that
    covers the sentinel record of a failed detection. *)
Theorem configureProcessing_rows (goos : string) (gpus : list GPUInfo) :
  let cfg := fst (Processor.configureProcessing goos gpus) in
  snd (Processor.configureProcessing goos gpus) = None
  /\ Quality cfg = 23 /\ OutputPath cfg = "output.mp4" /\ InputPath cfg = ""
  /\ (Acceleration cfg, Codec cfg, Preset cfg) ∈ encoderRows
  /\ (cfg = SetSoftwareEncoding NewDefault
      <-> gpus = [] \/ exists g rest, gpus = g :: rest /\ ~ Vendor g ∈ hardwareVendors)
  /\ (forall g rest, gpus = g :: rest -> isSentinel g ->
      cfg = SetSoftwareEncoding NewDefault).
Proof.
  assert (Hunk : ~ "unknown" ∈ hardwareVendors).
  { intros H. apply list_elem_of_In in H. simpl in H.
    repeat destruct H as [H|H]; try discriminate H. exact H. }
  unfold Processor.configureProcessing.
  destruct gpus as [|g rest].
  { simpl. split; [reflexivity|]. split; [reflexivity|]. split; [reflexivity|].
    split; [reflexivity|]. split; [apply In_elem_of; simpl; tauto|].
    split; [split; auto|]. intros g rest H. discriminate H. }
  destruct (String.eqb (Vendor g) "unknown") eqn:Eu.
  { apply String.eqb_eq in Eu. simpl.
    split; [reflexivity|]. split; [reflexivity|]. split; [reflexivity|].
    split; [reflexivity|]. split; [apply In_elem_of; simpl; tauto|].
    split; [|reflexivity].
    split; [|reflexivity].
    intros _. right. exists g, rest. split; [reflexivity|]. now rewrite Eu. }
  destruct (ConfigureForGPU_row goos g) as (Hrow & Hsoft & _).
  destruct (ConfigureForGPU goos g) as [[acc codec] preset]. simpl.
  split; [reflexivity|]. split; [reflexivity|]. split; [reflexivity|].
  split; [reflexivity|]. split; [exact Hrow|]. split; [split|].
  - intros H. right. exists g, rest. split; [reflexivity|].
    apply Hsoft. unfold SetHardwareEncoding, SetSoftwareEncoding in H. simpl in H.
    now injection H as -> -> ->.
  - intros [H|(g' & rest' & H & Hv)]; [discriminate H|].
    injection H as <- <-. apply Hsoft in Hv. now injection Hv as -> -> ->.
  - intros g' rest' H (Hv & _). injection H as <- <-.
    apply String.eqb_neq in Eu. contradiction.
Qed.

Lemma configureProcessing_rows_witness :
  fst (Processor.configureProcessing "linux" [sentinel linuxFailure])
  = SetSoftwareEncoding NewDefault.
Proof.
  destruct (configureProcessing_rows "linux" [sentinel linuxFailure])
    as (_ & _ & _ & _ & _ & _ & H).
  apply (H (sentinel linuxFailure) []); [reflexivity|].
  repeat split; discriminate.
Defined.

(* ===================================================================== *)
(** ** The output format *)
(* ===================================================================== *)

Lemma fileFormat_cases (args : list string) (ext : string) :
  exists fmt opts,
    CommandBuilder.fileFormat args ext = args ++ "-f" :: fmt :: opts
    /\ fmt ∈ outputFormats
    /\ (opts = [] \/ fmt = "hls" /\ opts = hlsOptions)
    /\ (~ ext ∈ otherContainers -> fmt = "mp4" /\ opts = []).
Proof.
  unfold CommandBuilder.fileFormat, hlsOptions.
  assert (Hin : forall e, e ∈ otherContainers <-> In e otherContainers)
    by (intros e; apply list_elem_of_In).
  repeat match goal with
         | |- context [if String.eqb ext ?e then _ else _] =>
             let E := fresh "E" in
             destruct (String.eqb ext e) eqn:E;
             [apply String.eqb_eq in E|]
         end;
    rewrite <- ?app_assoc; simpl;
    eexists _, _; (split; [reflexivity|]);
    (split; [apply In_elem_of; simpl; tauto|]);
    (split; [first [now left | right; split; reflexivity]|]);
    intros Hnot; try (split; reflexivity);
    exfalso; apply Hnot, Hin; subst ext; simpl; tauto.
Qed.

Lemma rtmp_not_rtsp (l : string) :
  HasPrefix l "rtmp://" || HasPrefix l "rtmps://" = true ->
  HasPrefix l "rtsp://" || HasPrefix l "rtsps://" = false.
Proof.
  intros H. apply orb_true_iff in H.
  destruct H as [H|H]; apply HasPrefix_spec in H as (q & ->); reflexivity.
Qed.

(** X16.  Both builders always add exactly one output format, taken from a fixed
    list, after the arguments they are given; options follow it only for
    HLS, and in the fallback manager for RTSP.  For the same output the
    fallback manager adds what the command builder adds, followed for an
    RTSP address by the RTSP publishing options. *)
Theorem addOutputFormat_format (goos : string) (args : list string) (outputPath : string) :
  (exists fmt opts,
      CommandBuilder.addOutputFormat goos args outputPath = args ++ "-f" :: fmt :: opts
      /\ fmt ∈ outputFormats
      /\ (opts = [] \/ fmt = "hls" /\ opts = hlsOptions))
  /\ FallbackManager.addOutputFormat goos args outputPath
     = CommandBuilder.addOutputFormat goos args outputPath
       ++ (if isRTSP outputPath then rtspPublishing else []).
Proof.
  unfold CommandBuilder.addOutputFormat, FallbackManager.addOutputFormat,
    FallbackManager.isStreamingURL, CommandBuilder.isStreamingURL, isRTSP,
    CommandBuilder.addStreamingFormat, FallbackManager.addStreamingFormat,
    hlsOptions, rtspPublishing.
  set (lower := ToLower outputPath).
  destruct (HasPrefix lower "rtmp://" || HasPrefix lower "rtmps://") eqn:Ertmp.
  { pose proof (rtmp_not_rtsp lower Ertmp) as Hno.
    apply orb_false_iff in Hno as [Hn1 Hn2]. rewrite ?Hn1, ?Hn2.
    simpl orb. cbv iota. split; [|now rewrite app_nil_r].
    eexists _, _. split; [reflexivity|].
    split; [apply In_elem_of; simpl; tauto | now left]. }
  simpl orb.
  destruct (HasPrefix lower "rtsp://" || HasPrefix lower "rtsps://") eqn:Ertsp.
  { simpl orb. cbv iota. split.
    - eexists _, _. split; [reflexivity|].
      split; [apply In_elem_of; simpl; tauto | now left].
    - now rewrite <- !app_assoc. }
  apply orb_false_iff in Ertsp as [E3 E4]. rewrite ?E3, ?E4. simpl orb.
  destruct (HasPrefix lower "srt://") eqn:E5; simpl orb; cbv iota.
  { split; [|now rewrite app_nil_r].
    eexists _, _. split; [reflexivity|].
    split; [apply In_elem_of; simpl; tauto | now left]. }
  destruct (HasPrefix lower "udp://") eqn:E6; simpl orb; cbv iota.
  { split; [|now rewrite app_nil_r].
    eexists _, _. split; [reflexivity|].
    split; [apply In_elem_of; simpl; tauto | now left]. }
  destruct (HasPrefix lower "tcp://") eqn:E7; simpl orb; cbv iota.
  { split; [|now rewrite app_nil_r].
    eexists _, _. split; [reflexivity|].
    split; [apply In_elem_of; simpl; tauto | now left]. }
  destruct (HasPrefix lower "http://" || HasPrefix lower "https://") eqn:E8.
  { destruct (Contains lower ".m3u8"); [|destruct (Contains lower ".mpd")];
      (split; [|now rewrite app_nil_r]);
      rewrite <- ?app_assoc; simpl;
      eexists _, _; (split; [reflexivity|]);
      (split; [apply In_elem_of; simpl; tauto|]);
      first [now left | right; split; reflexivity]. }
  split; [|now rewrite app_nil_r].
  destruct (fileFormat_cases args (ToLower (Ext goos outputPath)))
    as (fmt & opts & Hf & Hfmt & Hopts & _).
  exists fmt, opts. auto.
Qed.

(* ===================================================================== *)
(** ** The ffmpeg command lines *)
(* ===================================================================== *)

Lemma addHardwareAcceleration_app (args : list string) (acceleration : string) :
  CommandBuilder.addHardwareAcceleration args acceleration
  = args ++ CommandBuilder.addHardwareAcceleration [] acceleration.
Proof.
  unfold CommandBuilder.addHardwareAcceleration.
  repeat match goal with |- context [if ?b then _ else _] => destruct b end;
    rewrite <- ?app_assoc, ?app_nil_r; reflexivity.
Qed.

Lemma addVideoEncoding_app (args : list string) (config : ProcessingConfig) :
  CommandBuilder.addVideoEncoding args config
  = args ++ CommandBuilder.addVideoEncoding [] config.
Proof.
  unfold CommandBuilder.addVideoEncoding.
  repeat match goal with |- context [if ?b then _ else _] => destruct b end;
    rewrite <- ?app_assoc; reflexivity.
Qed.

Lemma fileFormat_app (args : list string) (ext : string) :
  CommandBuilder.fileFormat args ext = args ++ CommandBuilder.fileFormat [] ext.
Proof.
  unfold CommandBuilder.fileFormat.
  repeat match goal with |- context [if ?b then _ else _] => destruct b end;
    rewrite <- ?app_assoc; reflexivity.
Qed.

Lemma cb_addOutputFormat_app (goos : string) (args : list string) (outputPath : string) :
  CommandBuilder.addOutputFormat goos args outputPath
  = args ++ CommandBuilder.addOutputFormat goos [] outputPath.
Proof.
  unfold CommandBuilder.addOutputFormat, CommandBuilder.addStreamingFormat.
  destruct (CommandBuilder.isStreamingURL outputPath); [|apply fileFormat_app].
  repeat match goal with |- context [if ?b then _ else _] => destruct b end;
    rewrite <- ?app_assoc; reflexivity.
Qed.

Lemma fm_addOutputFormat_app (goos : string) (args : list string) (outputPath : string) :
  FallbackManager.addOutputFormat goos args outputPath
  = args ++ FallbackManager.addOutputFormat goos [] outputPath.
Proof.
  unfold FallbackManager.addOutputFormat, FallbackManager.addStreamingFormat.
  destruct (FallbackManager.isStreamingURL outputPath); [|apply fileFormat_app].
  repeat match goal with |- context [if ?b then _ else _] => destruct b end;
    rewrite <- ?app_assoc; reflexivity.
Qed.

Lemma BuildFFmpegCommand_eq (goos : string) (config : ProcessingConfig) :
  CommandBuilder.BuildFFmpegCommand goos config
  = CommandBuilder.addHardwareAcceleration [] (Acceleration config)
    ++ "-i" :: InputPath config
    :: (CommandBuilder.addVideoEncoding [] config
        ++ "-c:a" :: "copy"
        :: CommandBuilder.addOutputFormat goos [] (OutputPath config)
        ++ streamingTail)
    ++ ["-y"; OutputPath config].
Proof.
  unfold CommandBuilder.BuildFFmpegCommand, streamingTail.
  rewrite cb_addOutputFormat_app, addVideoEncoding_app.
  rewrite <- !app_assoc. simpl. rewrite <- !app_assoc. reflexivity.
Qed.

Lemma addVideoEncoding_codec (config : ProcessingConfig) :
  (Acceleration config, Codec config, Preset config) ∈ encoderRows ->
  followedBy "-c:v" (Codec config) (CommandBuilder.addVideoEncoding [] config).
Proof.
  intros H. apply list_elem_of_In in H. simpl in H.
  destruct config as [acc codec q preset inp outp]. simpl in H.
  unfold followedBy, CommandBuilder.addVideoEncoding.
  destruct H as [H|[H|[H|[H|[H|[H|[]]]]]]]; injection H as <- <- <-; simpl.
  - now exists [], ["-preset"; "medium"; "-rc"; "vbr"; "-cq"; formatInt q; "-b:v"; "0"].
  - now exists [], ["-preset"; "medium"; "-global_quality"; formatInt q].
  - now exists ["-vf"; "format=nv12,hwupload"], ["-qp"; formatInt q].
  - now exists [], ["-q:v"; formatInt q].
  - now exists [], ["-quality"; "balanced"; "-rc"; "cqp"; "-qp_i"; formatInt q;
                    "-qp_p"; formatInt q].
  - now exists [], ["-preset"; "medium"; "-crf"; formatInt q].
Qed.

Lemma followedBy_app_l (a b : string) (l pre post : list string) :
  followedBy a b l -> followedBy a b (pre ++ l ++ post).
Proof.
  intros (p & q & ->). exists (pre ++ p), (q ++ post).
  now rewrite <- !app_assoc.
Qed.

(** X17.  The command line of the primary attempt: the hardware options come
    first and are absent without acceleration, the input follows [-i], the
    audio is copied, and the line ends with [-y] and the output.  For every
    row of the encoder table the codec named after [-c:v] is the row's
    codec. *)
Theorem BuildFFmpegCommand_shape (goos : string) (config : ProcessingConfig) :
  let args := CommandBuilder.BuildFFmpegCommand goos config in
  (exists mid,
      args = CommandBuilder.addHardwareAcceleration [] (Acceleration config)
             ++ "-i" :: InputPath config :: mid ++ ["-y"; OutputPath config])
  /\ last args = Some (OutputPath config)
  /\ followedBy "-c:a" "copy" args
  /\ (Acceleration config = "none" -> exists rest, args = "-i" :: InputPath config :: rest)
  /\ ((Acceleration config, Codec config, Preset config) ∈ encoderRows ->
      followedBy "-c:v" (Codec config) args).
Proof.
  cbv zeta. rewrite BuildFFmpegCommand_eq.
  set (hw := CommandBuilder.addHardwareAcceleration [] (Acceleration config)).
  set (video := CommandBuilder.addVideoEncoding [] config).
  set (fmt := CommandBuilder.addOutputFormat goos [] (OutputPath config)).
  split; [eexists; reflexivity|]. split; [|split; [|split]].
  - change ["-y"; OutputPath config] with (["-y"] ++ [OutputPath config]).
    rewrite !app_comm_cons, !app_assoc. apply last_snoc.
  - exists (hw ++ "-i" :: InputPath config :: video),
      (fmt ++ streamingTail ++ ["-y"; OutputPath config]).
    rewrite <- !app_assoc. simpl. now rewrite <- !app_assoc.
  - intros Hnone. subst hw. rewrite Hnone. simpl. eexists. reflexivity.
  - intros Hrow.
    change (hw ++ "-i" :: InputPath config
               :: (video ++ "-c:a" :: "copy" :: fmt ++ streamingTail)
               ++ ["-y"; OutputPath config])
      with (hw ++ ["-i"; InputPath config]
               ++ (video ++ "-c:a" :: "copy" :: fmt ++ streamingTail)
               ++ ["-y"; OutputPath config]).
    rewrite (app_assoc hw), <- (app_assoc video).
    apply followedBy_app_l. now apply addVideoEncoding_codec.
Qed.

Lemma BuildFFmpegCommand_shape_witness :
  followedBy "-c:v" "h264_nvenc"
    (CommandBuilder.BuildFFmpegCommand "linux" (configFor "linux" rtxFromLspci)).
Proof.
  destruct (BuildFFmpegCommand_shape "linux" (configFor "linux" rtxFromLspci))
    as (_ & _ & _ & _ & H).
  apply H. apply In_elem_of. simpl. tauto.
Defined.

(** X18.  There are always three fallbacks, each a software command line for the
    configured input, quality and output.  The second asks for MP4.  For a
    file output with an ASCII path whose extension names no other
    container, the first asks for MP4 too and the two are the same
    command. *)
Theorem getFallbackMethods_software (goos : string) (config : ProcessingConfig) :
  length (FallbackManager.getFallbackMethods goos config) = 3%nat
  /\ Forall (softwareCommand config) (fallbackArgs goos config)
  /\ (exists first second third,
         fallbackArgs goos config = [first; second; third]
         /\ followedBy "-f" "mp4" second
         /\ (isASCII (OutputPath config) = true ->
             FallbackManager.isStreamingURL (OutputPath config) = false ->
             ~ ToLower (Ext goos (OutputPath config)) ∈ otherContainers ->
             first = second)).
Proof.
  split; [reflexivity|].
  unfold fallbackArgs, FallbackManager.getFallbackMethods, FallbackManager.addMP4Fallback.
  cbn [map Args].
  rewrite fm_addOutputFormat_app.
  set (fmt := FallbackManager.addOutputFormat goos [] (OutputPath config)).
  set (q := formatInt (Quality config)).
  set (inp := InputPath config). set (outp := OutputPath config).
  set (lowLatency := ["-fflags"; "nobuffer"; "-flags"; "low_delay";
                      "-fflags"; "+discardcorrupt"; "-analyzeduration"; "0";
                      "-probesize"; "32"; "-preset"; "ultrafast";
                      "-tune"; "zerolatency"]).
  split.
  - apply List.Forall_cons; [|apply List.Forall_cons; [|apply List.Forall_cons;
                                                         [|apply List.Forall_nil]]];
      unfold softwareCommand; fold inp outp q.
    + split; [|split].
      * exists (lowLatency ++ ["-crf"; q; "-c:a"; "copy"] ++ fmt
                ++ ["-movflags"; "+faststart"]).
        subst lowLatency. cbn [app]. rewrite <- ?app_assoc. reflexivity.
      * exists (["-i"; inp; "-c:v"; "libx264"] ++ lowLatency),
          (["-c:a"; "copy"] ++ fmt ++ ["-movflags"; "+faststart"; "-y"; outp]).
        subst lowLatency. cbn [app]. rewrite <- ?app_assoc. reflexivity.
      * exists (["-i"; inp; "-c:v"; "libx264"] ++ lowLatency ++ ["-crf"; q]),
          (fmt ++ ["-movflags"; "+faststart"; "-y"; outp]).
        subst lowLatency. cbn [app]. rewrite <- ?app_assoc. reflexivity.
    + split; [|split].
      * exists (lowLatency ++ ["-crf"; q; "-c:a"; "copy"; "-f"; "mp4";
                               "-movflags"; "+faststart"]).
        reflexivity.
      * exists (["-i"; inp; "-c:v"; "libx264"] ++ lowLatency),
          ["-c:a"; "copy"; "-f"; "mp4"; "-movflags"; "+faststart"; "-y"; outp].
        reflexivity.
      * exists (["-i"; inp; "-c:v"; "libx264"] ++ lowLatency ++ ["-crf"; q]),
          ["-f"; "mp4"; "-movflags"; "+faststart"; "-y"; outp].
        reflexivity.
    + split; [|split].
      * now exists ["-preset"; "ultrafast"; "-crf"; q; "-c:a"; "copy"].
      * now exists ["-i"; inp; "-c:v"; "libx264"; "-preset"; "ultrafast"],
          ["-c:a"; "copy"; "-y"; outp].
      * now exists ["-i"; inp; "-c:v"; "libx264"; "-preset"; "ultrafast"; "-crf"; q],
          ["-y"; outp].
  - eexists _, _, _. split; [reflexivity|]. split.
    + exists (["-i"; inp; "-c:v"; "libx264"] ++ lowLatency ++ ["-crf"; q; "-c:a"; "copy"]),
        ["-movflags"; "+faststart"; "-y"; outp].
      reflexivity.
    + intros _ Hfile Hext. subst fmt outp. unfold FallbackManager.addOutputFormat.
      rewrite Hfile.
      destruct (fileFormat_cases [] (ToLower (Ext goos (OutputPath config))))
        as (f & opts & Hf & _ & _ & Hmp4).
      destruct (Hmp4 Hext) as [-> ->]. rewrite Hf. reflexivity.
Qed.

Lemma getFallbackMethods_software_witness :
  exists first second third,
    fallbackArgs "linux" NewDefault = [first; second; third] /\ first = second.
Proof.
  destruct (getFallbackMethods_software "linux" NewDefault)
    as (_ & _ & first & second & third & Heq & _ & Hsame).
  exists first, second, third. split; [exact Heq|].
  apply Hsame; [reflexivity | reflexivity |].
  intros H. apply list_elem_of_In in H. vm_compute in H.
  repeat destruct H as [H|H]; try discriminate H. exact H.
Defined.

(* ===================================================================== *)
(** ** Running ffmpeg: the primary attempt and the fallbacks *)
(* ===================================================================== *)

Lemma tryFallbackList_three (a b c : FallbackMethod) (mc : Machine) (tr : list Event) :
  tryFallbackList [a; b; c] mc tr
  = match runCmd mc tr "ffmpeg" (Args a) with
    | None => (None, tr ++ [ffmpeg (Args a)])
    | Some _ =>
        match runCmd mc (tr ++ [ffmpeg (Args a)]) "ffmpeg" (Args b) with
        | None => (None, tr ++ [ffmpeg (Args a); ffmpeg (Args b)])
        | Some _ =>
            match runCmd mc (tr ++ [ffmpeg (Args a); ffmpeg (Args b)]) "ffmpeg" (Args c) with
            | None => (None, tr ++ [ffmpeg (Args a); ffmpeg (Args b); ffmpeg (Args c)])
            | Some _ =>
                (Some allFallbacksFailed,
                 tr ++ [ffmpeg (Args a); ffmpeg (Args b); ffmpeg (Args c)])
            end
        end
    end.
Proof.
  unfold tryFallbackList, abind, cmdRun, aret, ffmpeg.
  destruct (runCmd mc tr "ffmpeg" (Args a)); [|reflexivity].
  replace ((tr ++ [EvRun "ffmpeg" (Args a)]) ++ [EvRun "ffmpeg" (Args b)])
    with (tr ++ [EvRun "ffmpeg" (Args a); EvRun "ffmpeg" (Args b)])
    by now rewrite <- app_assoc.
  destruct (runCmd mc (tr ++ [EvRun "ffmpeg" (Args a)]) "ffmpeg" (Args b));
    [|reflexivity].
  replace ((tr ++ [EvRun "ffmpeg" (Args a); EvRun "ffmpeg" (Args b)])
             ++ [EvRun "ffmpeg" (Args c)])
    with (tr ++ [EvRun "ffmpeg" (Args a); EvRun "ffmpeg" (Args b);
                 EvRun "ffmpeg" (Args c)])
    by now rewrite <- app_assoc.
  now destruct (runCmd mc (tr ++ [EvRun "ffmpeg" (Args a); EvRun "ffmpeg" (Args b)])
                  "ffmpeg" (Args c)).
Qed.

Lemma TryFallbacks_from (goos : string) (config : ProcessingConfig)
      (mc : Machine) (tr : list Event) :
  let f i := fallbackCommand goos config i in
  TryFallbacks goos config mc tr
  = match runCmd mc tr "ffmpeg" (f 0%nat) with
    | None => (None, tr ++ [ffmpeg (f 0%nat)])
    | Some _ =>
        match runCmd mc (tr ++ [ffmpeg (f 0%nat)]) "ffmpeg" (f 1%nat) with
        | None => (None, tr ++ [ffmpeg (f 0%nat); ffmpeg (f 1%nat)])
        | Some _ =>
            match runCmd mc (tr ++ [ffmpeg (f 0%nat); ffmpeg (f 1%nat)]) "ffmpeg" (f 2%nat) with
            | None => (None, tr ++ [ffmpeg (f 0%nat); ffmpeg (f 1%nat); ffmpeg (f 2%nat)])
            | Some _ =>
                (Some allFallbacksFailed,
                 tr ++ [ffmpeg (f 0%nat); ffmpeg (f 1%nat); ffmpeg (f 2%nat)])
            end
        end
    end.
Proof.
  cbv zeta. unfold TryFallbacks.
  change (FallbackManager.getFallbackMethods goos config)
    with [nth 0 (FallbackManager.getFallbackMethods goos config) (mkFallbackMethod "" []);
          nth 1 (FallbackManager.getFallbackMethods goos config) (mkFallbackMethod "" []);
          nth 2 (FallbackManager.getFallbackMethods goos config) (mkFallbackMethod "" [])].
  rewrite tryFallbackList_three. reflexivity.
Qed.

(** X19.  The fallbacks are run in their order until one succeeds; nothing is run
    after a success, and the error is returned only after all three have
    failed. *)
Theorem TryFallbacks_first_success (goos : string) (config : ProcessingConfig)
        (mc : Machine) :
  let f i := fallbackCommand goos config i in
  let r1 := runCmd mc [] "ffmpeg" (f 0%nat) in
  let r2 := runCmd mc [ffmpeg (f 0%nat)] "ffmpeg" (f 1%nat) in
  let r3 := runCmd mc [ffmpeg (f 0%nat); ffmpeg (f 1%nat)] "ffmpeg" (f 2%nat) in
  perform (TryFallbacks goos config) mc
  = match r1, r2, r3 with
    | None, _, _ => (None, [ffmpeg (f 0%nat)])
    | Some _, None, _ => (None, [ffmpeg (f 0%nat); ffmpeg (f 1%nat)])
    | Some _, Some _, None =>
        (None, [ffmpeg (f 0%nat); ffmpeg (f 1%nat); ffmpeg (f 2%nat)])
    | Some _, Some _, Some _ =>
        (Some allFallbacksFailed,
         [ffmpeg (f 0%nat); ffmpeg (f 1%nat); ffmpeg (f 2%nat)])
    end.
Proof.
  cbv zeta. unfold perform. rewrite TryFallbacks_from. cbn [app].
  destruct (runCmd mc [] "ffmpeg" (fallbackCommand goos config 0)); [|reflexivity].
  destruct (runCmd mc [ffmpeg (fallbackCommand goos config 0)] "ffmpeg"
              (fallbackCommand goos config 1)); [|reflexivity].
  reflexivity.
Qed.


Lemma processVideo_from (goos : string) (cfg : ProcessingConfig)
      (mc : Machine) (tr : list Event) :
  let p := CommandBuilder.BuildFFmpegCommand goos cfg in
  let f i := fallbackCommand goos cfg i in
  let out := EvStat (OutputPath cfg) in
  Processor.processVideo goos cfg mc tr
  = match runCmd mc tr "ffmpeg" p with
    | None => (None, tr ++ [ffmpeg p; out])
    | Some _ =>
        match runCmd mc (tr ++ [ffmpeg p]) "ffmpeg" (f 0%nat) with
        | None => (None, tr ++ [ffmpeg p; ffmpeg (f 0%nat); out])
        | Some _ =>
            match runCmd mc (tr ++ [ffmpeg p; ffmpeg (f 0%nat)]) "ffmpeg" (f 1%nat) with
            | None => (None, tr ++ [ffmpeg p; ffmpeg (f 0%nat); ffmpeg (f 1%nat); out])
            | Some _ =>
                match runCmd mc (tr ++ [ffmpeg p; ffmpeg (f 0%nat); ffmpeg (f 1%nat)])
                        "ffmpeg" (f 2%nat) with
                | None =>
                    (None, tr ++ [ffmpeg p; ffmpeg (f 0%nat); ffmpeg (f 1%nat);
                                  ffmpeg (f 2%nat); out])
                | Some _ =>
                    (Some allEncodingFailed,
                     tr ++ [ffmpeg p; ffmpeg (f 0%nat); ffmpeg (f 1%nat); ffmpeg (f 2%nat)])
                end
            end
        end
    end.
Proof.
  cbv zeta. unfold Processor.processVideo, abind, cmdRun, osStat, aret.
  fold (ffmpeg (CommandBuilder.BuildFFmpegCommand goos cfg)).
  destruct (runCmd mc tr "ffmpeg" (CommandBuilder.BuildFFmpegCommand goos cfg));
    [|now rewrite <- app_assoc].
  rewrite TryFallbacks_from. cbv zeta.
  set (tr1 := tr ++ [ffmpeg (CommandBuilder.BuildFFmpegCommand goos cfg)]).
  assert (H1 : forall l, tr1 ++ l
                         = tr ++ ffmpeg (CommandBuilder.BuildFFmpegCommand goos cfg) :: l)
    by (intros l; subst tr1; now rewrite <- app_assoc).
  rewrite <- !H1.
  destruct (runCmd mc tr1 "ffmpeg" (fallbackCommand goos cfg 0));
    [|now rewrite <- !app_assoc].
  destruct (runCmd mc (tr1 ++ [ffmpeg (fallbackCommand goos cfg 0)]) "ffmpeg"
              (fallbackCommand goos cfg 1)); [|now rewrite <- !app_assoc].
  destruct (runCmd mc (tr1 ++ [ffmpeg (fallbackCommand goos cfg 0);
                               ffmpeg (fallbackCommand goos cfg 1)]) "ffmpeg"
              (fallbackCommand goos cfg 2)); [reflexivity | now rewrite <- !app_assoc].
Qed.

(** X20.  [processVideo] runs the primary command and then the three fallbacks,
    stopping at the first success; after a success it looks at the output
    file and returns nil, and it returns its one error only after all four
    commands have failed. *)
Theorem processVideo_attempts (goos : string) (cfg : ProcessingConfig) (mc : Machine) :
  let p := CommandBuilder.BuildFFmpegCommand goos cfg in
  let f i := fallbackCommand goos cfg i in
  let out := EvStat (OutputPath cfg) in
  let r0 := runCmd mc [] "ffmpeg" p in
  let r1 := runCmd mc [ffmpeg p] "ffmpeg" (f 0%nat) in
  let r2 := runCmd mc [ffmpeg p; ffmpeg (f 0%nat)] "ffmpeg" (f 1%nat) in
  let r3 := runCmd mc [ffmpeg p; ffmpeg (f 0%nat); ffmpeg (f 1%nat)] "ffmpeg" (f 2%nat) in
  perform (Processor.processVideo goos cfg) mc
  = match r0, r1, r2, r3 with
    | None, _, _, _ => (None, [ffmpeg p; out])
    | Some _, None, _, _ => (None, [ffmpeg p; ffmpeg (f 0%nat); out])
    | Some _, Some _, None, _ =>
        (None, [ffmpeg p; ffmpeg (f 0%nat); ffmpeg (f 1%nat); out])
    | Some _, Some _, Some _, None =>
        (None, [ffmpeg p; ffmpeg (f 0%nat); ffmpeg (f 1%nat); ffmpeg (f 2%nat); out])
    | Some _, Some _, Some _, Some _ =>
        (Some allEncodingFailed,
         [ffmpeg p; ffmpeg (f 0%nat); ffmpeg (f 1%nat); ffmpeg (f 2%nat)])
    end.
Proof.
  cbv zeta. unfold perform. rewrite processVideo_from. cbn [app].
  destruct (runCmd mc [] "ffmpeg" (CommandBuilder.BuildFFmpegCommand goos cfg));
    [|reflexivity].
  destruct (runCmd mc [ffmpeg (CommandBuilder.BuildFFmpegCommand goos cfg)] "ffmpeg"
              (fallbackCommand goos cfg 0)); [|reflexivity].
  destruct (runCmd mc [ffmpeg (CommandBuilder.BuildFFmpegCommand goos cfg);
                       ffmpeg (fallbackCommand goos cfg 0)] "ffmpeg"
              (fallbackCommand goos cfg 1)); reflexivity.
Qed.

Lemma processVideo_cases (goos : string) (cfg : ProcessingConfig)
      (mc : Machine) (tr : list Event) :
  exists evs,
    snd (Processor.processVideo goos cfg mc tr) = tr ++ evs
    /\ (fst (Processor.processVideo goos cfg mc tr) = None
        \/ fst (Processor.processVideo goos cfg mc tr) = Some allEncodingFailed)
    /\ (forall ev, ev ∈ evs ->
          ev = EvStat (OutputPath cfg)
          \/ exists args, ev = ffmpeg args /\ In args (commandLines goos cfg)).
Proof.
  rewrite processVideo_from. cbv zeta. unfold commandLines.
  repeat match goal with
         | |- context [match runCmd ?m ?t ?n ?a with _ => _ end] =>
             destruct (runCmd m t n a)
         end;
    eexists; cbn [fst snd]; (split; [reflexivity|]);
    (split; [first [now left | now right]|]);
    intros ev Hev; apply list_elem_of_In in Hev; simpl in Hev;
    repeat destruct Hev as [<-|Hev]; try contradiction;
    first [now left | right; eexists; split; [reflexivity | simpl; tauto]].
Qed.

(* ===================================================================== *)
(** ** Validation *)
(* ===================================================================== *)

Lemma validateVAAPISetup_cases (mc : Machine) (tr : list Event) :
  fst (Validator.validateVAAPISetup mc tr) = None
  /\ exists evs, snd (Validator.validateVAAPISetup mc tr) = tr ++ evs
                 /\ Forall inspection evs.
Proof.
  unfold Validator.validateVAAPISetup, Validator.findRenderNode, Validator.renderNodes,
    abind, osStat, execLookPath, cmdOutput, aret.
  repeat match goal with
         | |- context [match stat ?m ?t ?p with _ => _ end] => destruct (stat m t p)
         | |- context [match lookPath ?m ?t ?p with _ => _ end] => destruct (lookPath m t p)
         | |- context [let '(_, _) := outputCmd ?m ?t ?n ?a in _] =>
             destruct (outputCmd m t n a)
         end;
    cbn [fst snd]; (split; [reflexivity|]);
    rewrite <- ?app_assoc; eexists; (split; [reflexivity|]);
    repeat constructor.
Qed.

(** X21.  Validation fails exactly when ffmpeg is not installed.  The VAAPI
    checks never fail it, are made only for the vaapi acceleration, and all
    that validation ever does is look: for programs, for render nodes, at
    the output of vainfo. *)
Theorem ValidateSetup_outcome (config : ProcessingConfig) (mc : Machine) :
  outcome (Validator.ValidateSetup config) mc
  = match lookPath mc [] "ffmpeg" with
    | Some _ => Some Validator.ffmpegMissing
    | None => None
    end
  /\ (lookPath mc [] "ffmpeg" <> None \/ Acceleration config <> "vaapi" ->
      events (Validator.ValidateSetup config) mc = [EvLookPath "ffmpeg"])
  /\ Forall inspection (events (Validator.ValidateSetup config) mc).
Proof.
  unfold outcome, events, perform, Validator.ValidateSetup, abind, execLookPath, aret.
  destruct (lookPath mc [] "ffmpeg") as [e|] eqn:Hff.
  { cbn [fst snd app]. repeat split; auto. repeat constructor. }
  destruct (String.eqb (Acceleration config) "vaapi") eqn:Ev.
  - destruct (validateVAAPISetup_cases mc ([] ++ [EvLookPath "ffmpeg"]))
      as (Hnone & evs & Htr & Hall).
    split; [exact Hnone|]. split.
    + intros [H|H]; [contradiction|]. apply String.eqb_eq in Ev. contradiction.
    + rewrite Htr. cbn [app]. constructor; [exact I | exact Hall].
  - cbn [fst snd app]. repeat split; auto. repeat constructor.
Qed.

Lemma ValidateSetup_outcome_witness :
  events (Validator.ValidateSetup (configFor "linux" rtxFromLspci)) softwareOnlyMachine
  = [EvLookPath "ffmpeg"].
Proof.
  apply ValidateSetup_outcome. right. discriminate.
Defined.

(* ===================================================================== *)
(** ** Playback *)
(* ===================================================================== *)

Lemma tryPlayers_cases (videoPath : string) (mc : Machine) (tr : list Event) :
  exists evs,
    snd (Player.PlayVideo videoPath mc tr) = tr ++ evs
    /\ ((fst (Player.PlayVideo videoPath mc tr) = None
         /\ exists cmd, cmd ∈ playerCommands /\ last evs = Some (EvWait cmd))
        \/ (fst (Player.PlayVideo videoPath mc tr) = Some Player.noPlayer
            /\ existsb isWait evs = false
            /\ Forall (fun cmd => EvLookPath cmd ∈ evs) playerCommands))
    /\ Forall (fun ev => isRun ev = false /\ isRead ev = false) evs
    /\ (forall cmd args, EvStart cmd args ∈ evs ->
          exists name, (cmd, args, name) ∈ Player.players videoPath).
Proof.
  unfold Player.PlayVideo, Player.players, Player.tryPlayers,
    abind, execLookPath, cmdStart, cmdWait, aret, playerCommands.
  repeat match goal with
         | |- context [match lookPath ?m ?t ?p with _ => _ end] =>
             destruct (lookPath m t p)
         | |- context [match startCmd ?m ?t ?p ?a with _ => _ end] =>
             destruct (startCmd m t p a)
         | |- context [let '(_, _) := (waitCmd ?m ?t ?p, _) in _] => cbv beta iota
         end;
    cbn [fst snd]; rewrite <- ?app_assoc; cbn [app];
    eexists; (split; [reflexivity|]);
    (split;
     [first
        [ left; split; [reflexivity|];
          first [ exists "ffplay"; split; [apply In_elem_of; simpl; tauto | reflexivity]
                | exists "vlc"; split; [apply In_elem_of; simpl; tauto | reflexivity]
                | exists "mpv"; split; [apply In_elem_of; simpl; tauto | reflexivity] ]
        | right; split; [reflexivity|]; split; [reflexivity|];
          repeat (apply List.Forall_cons; [apply In_elem_of; simpl; tauto|]);
          apply List.Forall_nil ]|]);
    (split; [repeat (apply List.Forall_cons; [split; reflexivity|]); apply List.Forall_nil|]);
    intros cmd args Hin; apply list_elem_of_In in Hin; simpl in Hin;
    repeat destruct Hin as [Hin|Hin]; try discriminate Hin; try contradiction;
    injection Hin as <- <-; eexists; apply In_elem_of; simpl; eauto.
Qed.

(** X22.  [PlayVideo] returns nil as soon as one of its three players is installed
    and has started, whatever the player's exit status, and then the end of
    that player is the last thing that happened.  It returns its error only
    when no player ran to its end, after having looked for all three.  It
    starts nothing but one of the three players on the given video. *)
Theorem PlayVideo_outcome (videoPath : string) (mc : Machine) :
  let evs := events (Player.PlayVideo videoPath) mc in
  ((outcome (Player.PlayVideo videoPath) mc = None
    /\ exists cmd, cmd ∈ playerCommands /\ last evs = Some (EvWait cmd))
   \/ (outcome (Player.PlayVideo videoPath) mc = Some Player.noPlayer
       /\ existsb isWait evs = false
       /\ Forall (fun cmd => EvLookPath cmd ∈ evs) playerCommands))
  /\ (forall cmd args, EvStart cmd args ∈ evs ->
        exists name, (cmd, args, name) ∈ Player.players videoPath).
Proof.
  cbv zeta. unfold outcome, events, perform.
  destruct (tryPlayers_cases videoPath mc []) as (evs & Htr & Hcases & _ & Hstart).
  rewrite Htr. cbn [app]. split; [exact Hcases | exact Hstart].
Qed.

Lemma OfferPlayback_cases (outputPath : string) (mc : Machine) (tr : list Event) :
  let answer := TrimSpace (ToLower (fst (readString mc tr "player"))) in
  (answer <> "y" -> answer <> "yes" ->
   Player.OfferPlayback outputPath mc tr = (None, tr ++ [EvReadString "player"]))
  /\ (answer = "y" \/ answer = "yes" ->
      Player.OfferPlayback outputPath mc tr
      = Player.PlayVideo outputPath mc (tr ++ [EvReadString "player"])).
Proof.
  cbv zeta. unfold Player.OfferPlayback, abind, readerReadString, aret.
  destruct (readString mc tr "player") as [choice err]. cbn [fst].
  split.
  - intros H1 H2. apply String.eqb_neq in H1, H2. now rewrite H1, H2.
  - intros [H|H]; rewrite H; reflexivity.
Qed.

(** X23.  Playback is offered with one read of the terminal.  Any answer other
    than "y" or "yes", compared after lower-casing and trimming, ends with
    nil and starts nothing, also when the read itself failed. *)
Theorem OfferPlayback_declined (outputPath : string) (mc : Machine) :
  let answer := TrimSpace (ToLower (fst (readString mc [] "player"))) in
  answer <> "y" -> answer <> "yes" ->
  perform (Player.OfferPlayback outputPath) mc = (None, [EvReadString "player"]).
Proof.
  cbv zeta. intros H1 H2. unfold perform.
  now destruct (OfferPlayback_cases outputPath mc []) as [H _]; rewrite H.
Qed.

Lemma OfferPlayback_declined_witness :
  perform (Player.OfferPlayback "output.mp4") softwareOnlyMachine
  = (None, [EvReadString "player"]).
Proof. apply OfferPlayback_declined; discriminate. Defined.

(* ===================================================================== *)
(** ** The questions to the user *)
(* ===================================================================== *)

Lemma getUserInput_cases (cfg : ProcessingConfig) (mc : Machine) (tr : list Event) :
  let r := fst (Processor.getUserInput cfg mc tr) in
  let cfg' := fst r in
  let first := readString mc tr "processor" in
  exists reads,
    snd (Processor.getUserInput cfg mc tr) = tr ++ EvReadString "processor" :: reads
    /\ Forall (fun ev => ev = EvReadString "processor") reads
    /\ Acceleration cfg' = Acceleration cfg /\ Codec cfg' = Codec cfg
    /\ Preset cfg' = Preset cfg
    /\ (Quality cfg' = Quality cfg \/ 0 <= Quality cfg' <= 51)
    /\ match snd r with
       | None =>
           length reads = 2%nat
           /\ snd first = None
           /\ InputPath cfg' = TrimSpace (fst first) /\ InputPath cfg' <> ""
           /\ (OutputPath cfg' = OutputPath cfg \/ OutputPath cfg' <> "")
       | Some e =>
           reads = [] /\ OutputPath cfg' = OutputPath cfg /\ Quality cfg' = Quality cfg
           /\ (snd first = Some e
               \/ (snd first = None /\ e = Processor.noInput
                   /\ TrimSpace (fst first) = ""))
       end.
Proof.
  cbv zeta. unfold Processor.getUserInput, abind, readerReadString, aret.
  destruct (readString mc tr "processor") as [input [e|]].
  { exists []. cbn [fst snd]. repeat split; auto. }
  cbn [fst snd].
  destruct (String.eqb (InputPath (setInputPath cfg (TrimSpace input))) "") eqn:Ein.
  { exists []. cbn [fst snd]. apply String.eqb_eq in Ein. simpl in Ein.
    repeat split; auto. }
  apply String.eqb_neq in Ein. simpl in Ein.
  set (tr1 := tr ++ [EvReadString "processor"]).
  destruct (readString mc tr1 "processor") as [output oerr].
  set (tr2 := tr1 ++ [EvReadString "processor"]).
  destruct (readString mc tr2 "processor") as [qualityStr qerr].
  exists [EvReadString "processor"; EvReadString "processor"].
  cbn [fst snd]. subst tr2 tr1.
  split; [now rewrite <- !app_assoc|].
  split; [repeat constructor|].
  destruct (String.eqb (TrimSpace output) "") eqn:Eout;
    destruct (String.eqb (TrimSpace qualityStr) "") eqn:Eq; cbn [negb];
    try (destruct (sscanInt (TrimSpace qualityStr)) as [quality|];
         [destruct ((0 <=? quality) && (quality <=? 51)) eqn:Erange|]);
    simpl;
    repeat split; auto;
    try (right; apply andb_prop in Erange as [H0 H51]; lia);
    try (right; now apply String.eqb_neq in Eout).
Qed.



(* ===================================================================== *)
(** ** The whole workflow *)
(* ===================================================================== *)

Lemma configureProcessing_config (goos : string) (gpus : list GPUInfo) :
  let cfg := fst (Processor.configureProcessing goos gpus) in
  snd (Processor.configureProcessing goos gpus) = None
  /\ Quality cfg = 23 /\ OutputPath cfg = "output.mp4"
  /\ (Acceleration cfg, Codec cfg, Preset cfg) ∈ encoderRows.
Proof.
  cbv zeta. unfold Processor.configureProcessing.
  destruct gpus as [|g rest];
    [|destruct (String.eqb (Vendor g) "unknown")];
    try (simpl; repeat split; apply In_elem_of; simpl; tauto).
  destruct (ConfigureForGPU_row goos g) as (Hrow & _).
  destruct (ConfigureForGPU goos g) as [[acc codec] preset]. simpl.
  repeat split. exact Hrow.
Qed.

Lemma ValidateSetup_cases (config : ProcessingConfig) (mc : Machine) (tr : list Event) :
  exists evs,
    snd (Validator.ValidateSetup config mc tr) = tr ++ EvLookPath "ffmpeg" :: evs
    /\ Forall inspection evs.
Proof.
  unfold Validator.ValidateSetup, abind, execLookPath, aret.
  destruct (lookPath mc tr "ffmpeg").
  { exists []. split; [reflexivity | constructor]. }
  destruct (String.eqb (Acceleration config) "vaapi").
  - destruct (validateVAAPISetup_cases mc (tr ++ [EvLookPath "ffmpeg"]))
      as (_ & evs & Htr & Hall).
    exists evs. split; [|exact Hall]. rewrite Htr. now rewrite <- app_assoc.
  - exists []. split; [reflexivity | constructor].
Qed.

Lemma OfferPlayback_from (outputPath : string) (mc : Machine) (tr : list Event) :
  exists evs,
    snd (Player.OfferPlayback outputPath mc tr) = tr ++ EvReadString "player" :: evs
    /\ (fst (Player.OfferPlayback outputPath mc tr) = None
        \/ fst (Player.OfferPlayback outputPath mc tr) = Some Player.noPlayer)
    /\ Forall (fun ev => isRun ev = false /\ isRead ev = false) evs.
Proof.
  destruct (OfferPlayback_cases outputPath mc tr) as [Hno Hyes].
  cbv zeta in Hno, Hyes.
  destruct (decide (TrimSpace (ToLower (fst (readString mc tr "player"))) = "y"))
    as [Hy|Hy];
    [|destruct (decide (TrimSpace (ToLower (fst (readString mc tr "player"))) = "yes"))
        as [Hyy|Hyy]].
  3: { rewrite (Hno Hy Hyy). exists []. cbn [fst snd].
       split; [reflexivity|]. split; [now left | constructor]. }
  1: rewrite (Hyes (or_introl Hy)). 2: rewrite (Hyes (or_intror Hyy)).
  all: destruct (tryPlayers_cases outputPath mc (tr ++ [EvReadString "player"]))
      as (evs & Htr & Hres & Hall & _);
    exists evs; rewrite Htr, <- app_assoc; (split; [reflexivity|]);
    (split; [|exact Hall]);
    destruct Hres as [(H & _)|(H & _)]; [now left | now right].
Qed.

Lemma prefixed_not_noPlayer (c : ascii) (a e : string) :
  c <> "n"%char -> Some (String c a +:+ e) = Some Player.noPlayer -> False.
Proof.
  intros Hc H. rewrite append_cons in H. unfold Player.noPlayer in H.
  injection H as H _. now apply Hc.
Qed.

Lemma Run_from (mc : Machine) (tr : list Event) :
  let goos := GOOS (gpuHost mc) in
  let detected := run (DetectGPUs NewGPUDetector) (gpuHost mc) in
  let config := fst (Processor.configureProcessing goos (fst (fst detected))) in
  let v := Validator.ValidateSetup config mc (tr ++ [EvDetect (snd detected)]) in
  let u := Processor.getUserInput config mc (snd v) in
  let p := Processor.processVideo goos (fst (fst u)) mc (snd u) in
  Processor.Run mc tr
  = match snd (fst u) with
    | Some e => (Some ("input failed: " +:+ e), snd u)
    | None =>
        match fst p with
        | Some e => (Some ("video processing failed: " +:+ e), snd p)
        | None => Player.OfferPlayback (OutputPath (fst (fst u))) mc (snd p)
        end
    end.
Proof.
  cbv zeta. unfold Processor.Run, Processor.detectAndDisplayGPUs, abind.
  destruct (DetectGPUs_sentinel_or_clean NewGPUDetector (gpuHost mc) []) as [_ Herr].
  unfold run.
  destruct (DetectGPUs NewGPUDetector (gpuHost mc) []) as [[gpus err] calls].
  cbn [fst snd] in *. subst err.
  destruct (configureProcessing_config (GOOS (gpuHost mc)) gpus) as (Hc & _).
  cbv zeta in Hc.
  destruct (Processor.configureProcessing (GOOS (gpuHost mc)) gpus) as [config cerr].
  cbn [fst snd] in *. subst cerr.
  destruct (Validator.ValidateSetup config mc (tr ++ [EvDetect calls])) as [warn tr2].
  cbn [fst snd].
  destruct (Processor.getUserInput config mc tr2) as [[cfg' [e|]] tr3]; cbn [fst snd];
    [reflexivity|].
  unfold aret.
  destruct (Processor.processVideo (GOOS (gpuHost mc)) cfg' mc tr3) as [[e|] tr4];
    reflexivity.
Qed.

Lemma Run_cases (mc : Machine) :
  let goos := GOOS (gpuHost mc) in
  let evs := events Processor.Run mc in
  let err := outcome Processor.Run mc in
  (exists rest,
      evs = EvDetect (trace (DetectGPUs NewGPUDetector) (gpuHost mc))
            :: EvLookPath "ffmpeg" :: rest
      /\ EvReadString "processor" ∈ rest)
  /\ (err = None
      \/ (exists e, err = Some ("input failed: " +:+ e) /\ existsb isRun evs = false)
      \/ err = Some ("video processing failed: " +:+ allEncodingFailed)
      \/ err = Some Player.noPlayer)
  /\ (forall name args, EvRun name args ∈ evs ->
        name = "ffmpeg"
        /\ exists cfg, complete cfg /\ In args (commandLines goos cfg))
  /\ (EvReadString "player" ∈ evs <-> err = None \/ err = Some Player.noPlayer).
Proof.
  cbv zeta. unfold outcome, events, perform, trace.
  rewrite Run_from. cbv zeta. cbn [app].
  set (goos := GOOS (gpuHost mc)).
  set (calls := snd (run (DetectGPUs NewGPUDetector) (gpuHost mc))).
  set (gpus := fst (fst (run (DetectGPUs NewGPUDetector) (gpuHost mc)))).
  destruct (configureProcessing_config goos gpus) as (_ & Hq & Ho & Hrow).
  cbv zeta in Hq, Ho, Hrow.
  set (config := fst (Processor.configureProcessing goos gpus)) in *.
  destruct (ValidateSetup_cases config mc [EvDetect calls]) as (evV & HtrV & HallV).
  rewrite HtrV. cbn [app].
  set (tr2 := EvDetect calls :: EvLookPath "ffmpeg" :: evV).
  destruct (getUserInput_cases config mc tr2)
    as (reads & HtrU & HallU & Ha & Hc & Hp & Hqual & Hres).
  cbv zeta in Ha, Hc, Hp, Hqual, Hres.
  set (u := Processor.getUserInput config mc tr2) in *.
  assert (HnoRunV : forall ev, ev ∈ tr2 -> isRun ev = false /\ ev <> EvReadString "player").
  { intros ev Hev. subst tr2. apply elem_of_cons in Hev as [->|Hev]; [now split|].
    apply elem_of_cons in Hev as [->|Hev]; [now split|].
    rewrite Forall_forall in HallV. specialize (HallV ev Hev).
    destruct ev; try contradiction; now split. }
  assert (HnoRunU : forall ev, ev ∈ snd u -> isRun ev = false /\ ev <> EvReadString "player").
  { intros ev Hev. rewrite HtrU in Hev. apply elem_of_app in Hev as [Hev|Hev];
      [now apply HnoRunV|].
    apply elem_of_cons in Hev as [->|Hev]; [now split|].
    rewrite Forall_forall in HallU. rewrite (HallU ev Hev). now split. }
  assert (Hfirst : exists rest,
             snd u = EvDetect calls :: EvLookPath "ffmpeg" :: rest
             /\ EvReadString "processor" ∈ rest).
  { exists (evV ++ EvReadString "processor" :: reads). split; [exact HtrU|].
    apply elem_of_app. right. apply list_elem_of_here. }
  assert (Hext : forall l, (exists rest,
                     snd u ++ l = EvDetect calls :: EvLookPath "ffmpeg" :: rest
                     /\ EvReadString "processor" ∈ rest)).
  { intros l. destruct Hfirst as (rest & -> & Hin). exists (rest ++ l).
    split; [reflexivity|]. apply elem_of_app. now left. }
  destruct (snd (fst u)) as [e|] eqn:Herr.
  { (* the input failed *)
    cbn [fst snd]. split; [exact Hfirst|]. split; [|split].
    - right. left. exists e. split; [reflexivity|].
      apply not_true_is_false. intros Hex. apply existsb_exists in Hex as (ev & Hin & Hrun).
      apply In_elem_of, HnoRunU in Hin. destruct Hin as [Hin _]. congruence.
    - intros name args Hin. apply HnoRunU in Hin. destruct Hin as [Hin _]. discriminate Hin.
    - split.
      + intros Hin. apply HnoRunU in Hin. now destruct Hin as [_ Hin].
      + intros [H|H]; [discriminate H|]. now apply prefixed_not_noPlayer in H. }
  destruct Hres as (Hlen & _ & Hin & Hine & Hout).
  set (cfg' := fst (fst u)) in *.
  assert (Hcomplete : complete cfg').
  { unfold complete. rewrite Ha, Hc, Hp. split; [exact Hrow|].
    split; [destruct Hqual as [->|H]; [rewrite Hq; lia | exact H]|].
    split; [exact Hine|]. destruct Hout as [->|H]; [now rewrite Ho | exact H]. }
  destruct (processVideo_cases goos cfg' mc (snd u)) as (evP & HtrP & HresP & HallP).
  set (p := Processor.processVideo goos cfg' mc (snd u)) in *.
  assert (HrunP : forall name args, EvRun name args ∈ evP ->
            name = "ffmpeg" /\ exists cfg, complete cfg /\ In args (commandLines goos cfg)).
  { intros name args Hev. destruct (HallP _ Hev) as [H|(a & H & Ha')]; [discriminate H|].
    injection H as -> ->. split; [reflexivity|]. now exists cfg'. }
  assert (HnoReadP : forall ev, ev ∈ evP -> ev <> EvReadString "player").
  { intros ev Hev. destruct (HallP _ Hev) as [->|(a & -> & _)]; discriminate. }
  destruct (fst p) as [e|] eqn:HerrP.
  { (* every encoding attempt failed *)
    destruct HresP as [H|H]; [discriminate H|]. injection H as ->.
    cbn [fst snd]. rewrite HtrP. split; [apply Hext|]. split; [|split].
    - right. right. now left.
    - intros name args Hev. apply elem_of_app in Hev as [Hev|Hev];
        [apply HnoRunU in Hev; destruct Hev as [Hev _]; discriminate Hev
        | now apply HrunP].
    - split.
      + intros Hev. apply elem_of_app in Hev as [Hev|Hev];
          [apply HnoRunU in Hev; now destruct Hev | now apply HnoReadP in Hev].
      + intros [H|H]; [discriminate H|]. now apply prefixed_not_noPlayer in H. }
  (* encoding succeeded: playback is offered *)
  destruct (OfferPlayback_from (OutputPath cfg') mc (snd p)) as (evO & HtrO & HresO & HallO).
  cbv beta iota. rewrite HtrO.
  set (res := fst (Player.OfferPlayback (OutputPath cfg') mc (snd p))) in *.
  rewrite HtrP, <- app_assoc.
  split; [apply Hext|]. split; [|split].
  - destruct HresO as [->| ->]; [now left | now do 3 right].
  - intros name args Hev. apply elem_of_app in Hev as [Hev|Hev];
      [apply HnoRunU in Hev; destruct Hev as [Hev _]; discriminate Hev|].
    apply elem_of_app in Hev as [Hev|Hev]; [now apply HrunP|].
    apply elem_of_cons in Hev as [Hev|Hev]; [discriminate Hev|].
    rewrite Forall_forall in HallO. apply HallO in Hev. destruct Hev as [Hev _].
    discriminate Hev.
  - split; [intros _; destruct HresO as [->| ->]; [now left | now right]|].
    intros _. apply elem_of_app. right. apply elem_of_app. right. apply list_elem_of_here.
Qed.

Lemma tryPlayers_launches (videoPath : string) (mc : Machine) (tr : list Event) :
  exists evs,
    snd (Player.PlayVideo videoPath mc tr) = tr ++ evs /\ Forall launch evs.
Proof.
  unfold Player.PlayVideo, Player.players, Player.tryPlayers,
    abind, execLookPath, cmdStart, cmdWait, aret.
  repeat match goal with
         | |- context [match lookPath ?m ?t ?p with _ => _ end] =>
             destruct (lookPath m t p)
         | |- context [match startCmd ?m ?t ?p ?a with _ => _ end] =>
             destruct (startCmd m t p a)
         | |- context [let '(_, _) := (waitCmd ?m ?t ?p, _) in _] => cbv beta iota
         end;
    cbn [fst snd]; rewrite <- ?app_assoc; cbn [app];
    eexists; (split; [reflexivity|]);
    repeat (apply List.Forall_cons;
            [first [ exact I
                   | exists videoPath; eexists; apply In_elem_of; simpl; eauto ]|]);
    apply List.Forall_nil.
Qed.

Lemma OfferPlayback_launches (outputPath : string) (mc : Machine) (tr : list Event) :
  exists evs,
    snd (Player.OfferPlayback outputPath mc tr) = tr ++ evs /\ Forall launch evs.
Proof.
  destruct (OfferPlayback_cases outputPath mc tr) as [Hno Hyes].
  cbv zeta in Hno, Hyes.
  destruct (decide (TrimSpace (ToLower (fst (readString mc tr "player"))) = "y"))
    as [Hy|Hy];
    [|destruct (decide (TrimSpace (ToLower (fst (readString mc tr "player"))) = "yes"))
        as [Hyy|Hyy]].
  3: { rewrite (Hno Hy Hyy). exists [EvReadString "player"]. cbn [snd].
       split; [reflexivity | repeat constructor]. }
  1: rewrite (Hyes (or_introl Hy)). 2: rewrite (Hyes (or_intror Hyy)).
  all: destruct (tryPlayers_launches outputPath mc (tr ++ [EvReadString "player"]))
      as (evs & Htr & Hall);
    exists (EvReadString "player" :: evs); rewrite Htr, <- app_assoc;
    (split; [reflexivity|]); now constructor.
Qed.

Lemma Run_launches (mc : Machine) : Forall launch (events Processor.Run mc).
Proof.
  unfold events, perform. rewrite Run_from. cbv zeta. cbn [app].
  set (goos := GOOS (gpuHost mc)).
  set (calls := snd (run (DetectGPUs NewGPUDetector) (gpuHost mc))).
  set (gpus := fst (fst (run (DetectGPUs NewGPUDetector) (gpuHost mc)))).
  set (config := fst (Processor.configureProcessing goos gpus)).
  destruct (ValidateSetup_cases config mc [EvDetect calls]) as (evV & HtrV & HallV).
  rewrite HtrV. cbn [app].
  set (tr2 := EvDetect calls :: EvLookPath "ffmpeg" :: evV).
  destruct (getUserInput_cases config mc tr2) as (reads & HtrU & HallU & _).
  set (u := Processor.getUserInput config mc tr2) in *.
  assert (HU : Forall launch (snd u)).
  { rewrite HtrU. subst tr2. constructor; [exact I|]. constructor; [exact I|].
    apply Forall_app. split.
    - eapply Forall_impl; [exact HallV|]. intros ev Hev.
      destruct ev; try contradiction; try exact I. exact Hev.
    - constructor; [exact I|].
      eapply Forall_impl; [exact HallU|]. now intros ev ->. }
  destruct (snd (fst u)) as [e|]; [exact HU|].
  set (cfg' := fst (fst u)).
  destruct (processVideo_cases goos cfg' mc (snd u)) as (evP & HtrP & _ & HallP).
  set (p := Processor.processVideo goos cfg' mc (snd u)) in *.
  assert (HP : Forall launch (snd p)).
  { rewrite HtrP. apply Forall_app. split; [exact HU|].
    apply Forall_forall. intros ev Hev.
    destruct (HallP ev Hev) as [->|(a & -> & _)]; [exact I | reflexivity]. }
  destruct (fst p) as [e|]; [exact HP|].
  destruct (OfferPlayback_launches (OutputPath cfg') mc (snd p)) as (evO & HtrO & HallO).
  rewrite HtrO. apply Forall_app. now split.
Qed.

(** X25.  The workflow as a whole.  It starts with detection and the search for
    ffmpeg, and always goes on to ask for the input, also when validation
    found no ffmpeg.  Its only errors are a failed input, the failure of all
    four encoding attempts, and the absence of a player: detection and
    configuration never stop it.  Besides the detection probes it executes
    nothing but ffmpeg through [cmd.Run], on one of the four command lines
    of a complete configuration and never after a failed input, [vainfo]
    through [cmd.Output], and a player with its arguments through
    [cmd.Start].  The question about playback is asked exactly on the runs
    that end with nil or with the player error. *)
Theorem Run_outcome (mc : Machine) :
  let goos := GOOS (gpuHost mc) in
  let evs := events Processor.Run mc in
  let err := outcome Processor.Run mc in
  (exists rest,
      evs = EvDetect (trace (DetectGPUs NewGPUDetector) (gpuHost mc))
            :: EvLookPath "ffmpeg" :: rest
      /\ EvReadString "processor" ∈ rest)
  /\ (err = None
      \/ (exists e, err = Some ("input failed: " +:+ e) /\ existsb isRun evs = false)
      \/ err = Some ("video processing failed: " +:+ allEncodingFailed)
      \/ err = Some Player.noPlayer)
  /\ Forall launch evs
  /\ (forall name args, EvRun name args ∈ evs ->
        exists cfg, complete cfg /\ In args (commandLines goos cfg))
  /\ (EvReadString "player" ∈ evs <-> err = None \/ err = Some Player.noPlayer).
Proof.
  cbv zeta.
  destruct (Run_cases mc) as (H1 & H2 & H3 & H4). cbv zeta in H1, H2, H3, H4.
  split; [exact H1|]. split; [exact H2|]. split; [apply Run_launches|].
  split; [|exact H4].
  intros name args Hev. now destruct (H3 name args Hev).
Qed.

Lemma Run_outcome_witness :
  EvReadString "player" ∈ events Processor.Run answeringMachine.
Proof.
  apply (Run_outcome answeringMachine). left. vm_compute. reflexivity.
Defined.
